(** * Joggl: a shallow embedding of [index.js]

    Joggl reads the Toggl report of one day, merges the entries that share a
    project and a description, checks that every merged item names exactly
    one Jira sub-task, and posts one work log per item.

    The embedding follows the script top to bottom:
    - [Regex]: the fragment of JavaScript regular expressions the script
      uses, with the backtracking semantics of [String.match];
    - [findJiraIds]: the function of the same name;
    - [JsObject]: object literals used as dictionaries ([projects],
      [items], [issues]): own properties in creation order, the properties
      they inherit from [Object.prototype], the order of [for-in];
    - [group], [flatten]: the grouping loop and the loops that form the
      array [allItems];
    - [main] and the callbacks it nests ([on_report], [cross_check],
      [on_search], [submit], [createNextWorkLog]): the whole run, a function
      from the environment (command line, answers to the prompts, replies
      of the two services) to the trace of what the run does (prompts,
      requests, lines printed) and the way the process ends.

    Strings are [string].  The classes of the pattern are ranges of ASCII
    characters; any other character ends a match, whatever its encoding.
    Durations are integer milliseconds ([Z]): JavaScript numbers add
    integers exactly below 2^53, far beyond the milliseconds of a day; the
    one division of the script is kept as a fraction ([Q]), and [NaN]
    never reaches a request.  The theorems that state a sum of durations
    or the quotient assume the rows within that range ([exact_sums],
    [exact_seconds]). *)

From Stdlib Require Import List String Ascii Bool Arith ZArith QArith Lia.
From Stdlib Require Import Permutation.
Import ListNotations.

Local Close Scope Q_scope.
Local Open Scope Z_scope.
Local Open Scope string_scope.
Local Open Scope list_scope.

Set Implicit Arguments.

(* ================================================================== *)
(** ** Regular expressions *)

Module Regex.

(** A character class: the union of ranges and single characters
    between the square brackets. *)
Inductive cls : Type :=
| Range (lo hi : ascii)
| Lit (c : ascii)
| Union (a b : cls).

Fixpoint in_cls (c : cls) (x : ascii) : bool :=
  match c with
  | Range lo hi =>
      (nat_of_ascii lo <=? nat_of_ascii x)%nat
      && (nat_of_ascii x <=? nat_of_ascii hi)%nat
  | Lit y => (nat_of_ascii x =? nat_of_ascii y)%nat
  | Union a b => in_cls a x || in_cls b x
  end.

(** One element of a sequence: a class, possibly under a greedy
    quantifier.  The script quantifies classes only. *)
Inductive atom : Type :=
| One (c : cls)
| Plus (c : cls)
| Star (c : cls).

Definition regex : Type := list atom.

(** [greedy c k s]: the class [c] repeated, greedily, followed by the
    continuation [k].  The matcher first takes one more character; when
    the rest of the pattern then fails it backtracks and tries the
    continuation here.  The result is the number of characters
    consumed. *)
Fixpoint greedy (c : cls) (k : string -> option nat) (s : string)
  : option nat :=
  match s with
  | String x s' =>
      if in_cls c x then
        match greedy c k s' with
        | Some n => Some (S n)
        | None => k s
        end
      else k s
  | EmptyString => k s
  end.

(** [exec_at r s]: match [r] at the start of [s]; the length of the
    match when there is one. *)
Fixpoint exec_at (r : regex) (s : string) : option nat :=
  match r with
  | [] => Some 0%nat
  | One c :: r' =>
      match s with
      | String x s' =>
          if in_cls c x then option_map S (exec_at r' s') else None
      | EmptyString => None
      end
  | Plus c :: r' =>
      match s with
      | String x s' =>
          if in_cls c x then option_map S (greedy c (exec_at r') s')
          else None
      | EmptyString => None
      end
  | Star c :: r' => greedy c (exec_at r') s
  end.

(** The matches of a global ([/g]) regular expression, as
    [String.prototype.match] collects them: the search resumes where the
    last match ended (one character further after an empty match).
    [skip] counts the characters of the last match still to be passed. *)
Fixpoint match_all (r : regex) (skip : nat) (s : string) : list string :=
  match skip with
  | S k =>
      match s with
      | String _ s' => match_all r k s'
      | EmptyString => []
      end
  | O =>
      match exec_at r s with
      | Some n =>
          substring 0 n s ::
            match s with
            | String _ s' => match_all r (Nat.pred n) s'
            | EmptyString => []
            end
      | None =>
          match s with
          | String _ s' => match_all r 0 s'
          | EmptyString => []
          end
      end
  end.

(** [string.match(/r/g)]: the array of all matches, or [null] (here
    [None]) when there is none. *)
Definition String_match (s : string) (r : regex) : option (list string) :=
  match match_all r 0 s with
  | [] => None
  | m => Some m
  end.

End Regex.

(* ================================================================== *)
(** ** [findJiraIds] *)

Import Regex.

Definition letter : cls := Union (Range "a" "z") (Range "A" "Z").
Definition digit : cls := Range "0" "9".
Definition nonzero : cls := Range "1" "9".
Definition word : cls := Union letter (Union digit (Lit "_")).
Definition hyphen : cls := Lit "-".

(** The pattern of the script: a letter, one or more of [a-zA-Z0-9_], a
    hyphen, a digit from 1 to 9, any number of digits, all inside one
    group, with the flag [g].  The group is the whole pattern and [match]
    with [g] returns whole matches only. *)
Definition jira_regex : regex :=
  [One letter; Plus word; One hyphen; One nonzero; Star digit].

Definition findJiraIds (str : string) : list string :=
  let m := String_match str jira_regex in
  match m with
  | None => []
  | Some m => m
  end.

(* ================================================================== *)
(** ** Plain objects used as dictionaries *)

Module JsObject.

Section Own.
Variables K V : Type.
Variable eqb : K -> K -> bool.
(** The array index a property key denotes, when it is the canonical
    decimal form of an integer below 2^32 - 1. *)
Variable index : K -> option N.

(** The own properties of an object, in the order of their creation. *)
Definition t : Type := list (K * V).

Definition empty : t := [].

Fixpoint get (o : t) (k : K) : option V :=
  match o with
  | [] => None
  | (k', v) :: o' => if eqb k' k then Some v else get o' k
  end.

(** [o[k] = v] on own properties: an existing property keeps its
    place, a new one is added last. *)
Fixpoint set (o : t) (k : K) (v : V) : t :=
  match o with
  | [] => [(k, v)]
  | (k', v') :: o' =>
      if eqb k' k then (k', v) :: o' else (k', v') :: set o' k v
  end.

Fixpoint insert_index (n : N) (p : K * V) (l : list (N * (K * V)))
  : list (N * (K * V)) :=
  match l with
  | [] => [(n, p)]
  | (m, q) :: l' =>
      if (n <=? m)%N then (n, p) :: l else (m, q) :: insert_index n p l'
  end.

Definition indexed (o : t) : list (N * (K * V)) :=
  fold_right
    (fun p acc =>
       match index (fst p) with
       | Some n => insert_index n p acc
       | None => acc
       end) [] o.

Definition named (o : t) : list (K * V) :=
  filter (fun p => match index (fst p) with
                   | Some _ => false
                   | None => true
                   end) o.

(** The order in which [for (var k in o)] visits the own properties:
    array indices in ascending order, then the other keys in the order
    of their creation. *)
Definition for_in (o : t) : list (K * V) :=
  map snd (indexed o) ++ named o.
End Own.

(** *** String keys *)

Definition digit_value (c : ascii) : option N :=
  let n := N_of_ascii c in
  if ((48 <=? n) && (n <=? 57))%N then Some (n - 48)%N else None.

Fixpoint decimal (s : string) (acc : N) : option N :=
  match s with
  | EmptyString => Some acc
  | String c s' =>
      match digit_value c with
      | Some d => decimal s' (10 * acc + d)%N
      | None => None
      end
  end.

Definition array_index (s : string) : option N :=
  match s with
  | EmptyString => None
  | String c s' =>
      if Ascii.eqb c "0" && negb (String.eqb s' EmptyString) then None
      else match decimal s 0 with
           | Some n => if (n <? 4294967295)%N then Some n else None
           | None => None
           end
  end.

(** The properties every plain object inherits from [Object.prototype]. *)
Definition Object_prototype_names : list string :=
  [ "constructor"; "toString"; "toLocaleString"; "valueOf";
    "hasOwnProperty"; "isPrototypeOf"; "propertyIsEnumerable";
    "__proto__"; "__defineGetter__"; "__defineSetter__";
    "__lookupGetter__"; "__lookupSetter__" ].

Definition inherited (k : string) : bool :=
  existsb (String.eqb k) Object_prototype_names.

(** What [o[k]] evaluates to on an object literal. *)
Inductive property (V : Type) : Type :=
| Own (v : V)
| Inherited (name : string)
| Undefined.
Arguments Inherited {V} name.
Arguments Undefined {V}.

Definition dict (V : Type) : Type := t string V.

Definition lookup {V : Type} (o : dict V) (k : string) : property V :=
  match get String.eqb o k with
  | Some v => Own v
  | None => if inherited k then Inherited k else Undefined
  end.

(** [o[k] = v].  The key [__proto__] is an accessor of
    [Object.prototype]: assigning to it creates no own property, it
    replaces the prototype of [o].  On [items] the value assigned under
    that key is [Object.prototype] itself, so nothing changes.  On
    [issues] the new prototype is an entry, with the properties [key] and
    [isSubtask]; the script looks [issues] up under ticket ids only, which
    are none of these names (lemma [looked_up_ids]). *)
Definition assign {V : Type} (o : dict V) (k : string) (v : V) : dict V :=
  if String.eqb k "__proto__" then o else set String.eqb o k v.

Definition keys_in_order {V : Type} (o : dict V) : list (string * V) :=
  for_in array_index o.

End JsObject.

(* ================================================================== *)
(** ** The Toggl report and its aggregation *)

(** One row of [res.body.data].  [pid] and [project] are [null] for an
    entry without a project. *)
Module Log.
Record t : Type := {
  pid : option Z;
  project : option string;
  description : string;
  dur : Z
}.
End Log.

(** The object literal of the grouping loop, with the two properties the
    later loops add to it ([None] while they are not set). *)
Module Item.
Record t : Type := {
  description : string;
  jiraIds : list string;
  duration : Z;
  occurrences : Z;
  project : option string;
  jiraId : option string
}.
End Item.

(** What [project.items[log.description]] can hold: an item of the loop,
    or the member of [Object.prototype] found under that name (a built-in
    function; [Object.prototype] itself under [__proto__]).  On a
    built-in, [duration] and [occurrences] start undefined, so that the
    two [+=] leave [NaN] in both. *)
Inductive value : Type :=
| Obj (item : Item.t)
| Builtin (name : string).

Module Project.
Record t : Type := {
  name : option string;
  id : option Z;
  items : JsObject.dict value
}.
End Project.

(** [projects] is keyed by [log.pid]: a number or [null], whose string
    form is never the name of an inherited property. *)
Definition pid_eqb (a b : option Z) : bool :=
  match a, b with
  | Some x, Some y => Z.eqb x y
  | None, None => true
  | _, _ => false
  end.

Definition pid_index (p : option Z) : option N :=
  match p with
  | Some z => if ((0 <=? z) && (z <? 4294967295))%Z then Some (Z.to_N z)
              else None
  | None => None
  end.

Definition projects_t : Type := JsObject.t (option Z) Project.t.

(** The body of [res.body.data.forEach(log => ...)]. *)
Definition group (projects : projects_t) (log : Log.t) : projects_t :=
  (* Fetch or make the project *)
  let project :=
    match JsObject.get pid_eqb projects (Log.pid log) with
    | Some project => project
    | None => {| Project.name := Log.project log;
                 Project.id := Log.pid log;
                 Project.items := JsObject.empty _ _ |}
    end in
  (* Fetch or make the item *)
  let item :=
    match JsObject.lookup (Project.items project) (Log.description log) with
    | JsObject.Own item => item
    | JsObject.Inherited name => Builtin name
    | JsObject.Undefined =>
        Obj {| Item.description := Log.description log;
               Item.jiraIds := findJiraIds (Log.description log);
               Item.duration := 0;
               Item.occurrences := 0;
               Item.project := None;
               Item.jiraId := None |}
    end in
  (* Update the item *)
  let item :=
    match item with
    | Obj i =>
        Obj {| Item.description := Item.description i;
               Item.jiraIds := Item.jiraIds i;
               Item.duration := Item.duration i + Log.dur log;
               Item.occurrences := Item.occurrences i + 1;
               Item.project := Item.project i;
               Item.jiraId := Item.jiraId i |}
    | Builtin name => Builtin name
    end in
  (* Update the project *)
  let project :=
    {| Project.name := Project.name project;
       Project.id := Project.id project;
       Project.items :=
         JsObject.assign (Project.items project) (Log.description log) item |}
  in
  (* Update the projects *)
  JsObject.set pid_eqb projects (Log.pid log) project.

Definition grouped (data : list Log.t) : projects_t :=
  fold_left group data (JsObject.empty _ _).

(** [item.project = projects[pid].name] *)
Definition set_project (name : option string) (v : value) : value :=
  match v with
  | Obj i =>
      Obj {| Item.description := Item.description i;
             Item.jiraIds := Item.jiraIds i;
             Item.duration := Item.duration i;
             Item.occurrences := Item.occurrences i;
             Item.project := name;
             Item.jiraId := Item.jiraId i |}
  | Builtin n => Builtin n
  end.

(** The two nested [for-in] loops that form the single array. *)
Definition flatten (projects : projects_t) : list value :=
  flat_map
    (fun p : option Z * Project.t =>
       let project := snd p in
       map (fun q : string * value =>
              set_project (Project.name project) (snd q))
           (JsObject.keys_in_order (Project.items project)))
    (JsObject.for_in pid_index projects).

Definition allItems_of (data : list Log.t) : list value :=
  flatten (grouped data).

(** [totalDuration += item.duration]; [None] is [NaN]. *)
Definition totalDuration_of (allItems : list value) : option Z :=
  fold_left
    (fun acc v =>
       match acc, v with
       | Some t, Obj i => Some (t + Item.duration i)
       | _, _ => None
       end) allItems (Some 0).

(* ================================================================== *)
(** ** The run: environment, observable events, endings *)

(** The command line, as [commander] parses it; an omitted option is
    [undefined] ([None]). *)
Module Flags.
Record t : Type := {
  date : option string;
  apiToken : option string;
  workspace : option string;
  username : option string;
  password : option string
}.
End Flags.

(** What a request meets: no response at all (connection refused, reset,
    DNS failure, ...), or a response with a status code. *)
Inductive reply (B : Type) : Type :=
| NoResponse (message : string)
| Response (statusCode : Z) (body : B).
Arguments NoResponse {B} message.

(** [err] of a superagent callback. *)
Inductive error : Type :=
| Transport (message : string)
| BadStatus (statusCode : Z).

Module Res.
Record t (B : Type) : Type := { statusCode : Z; body : B }.
Arguments statusCode {B} _.
Arguments body {B} _.
End Res.

(** The arguments [(err, res)] superagent calls [.end]'s callback with:
    without a response [err] is the failure and [res] is undefined; with a
    response [res] is set, and [err] too unless the status is 2xx. *)
Definition callback {B : Type} (r : reply B)
  : option error * option (Res.t B) :=
  match r with
  | NoResponse m => (Some (Transport m), None)
  | Response st b =>
      (if (200 <=? st)%Z && (st <? 300)%Z then None else Some (BadStatus st),
       Some {| Res.statusCode := st; Res.body := b |})
  end.

Module Report.
Record body : Type := {
  total_count : Z;
  per_page : Z;
  data : list Log.t
}.
End Report.

(** An issue of the search response: [issue.key] and
    [issue.fields.issuetype.subtask]. *)
Module Issue.
Record t : Type := { key : string; subtask : bool }.
End Issue.

Module Search.
Record body : Type := { issues : list Issue.t }.
End Search.

(** The entries of the dictionary [issues]. *)
Module Ticket.
Record t : Type := { key : string; isSubtask : bool }.
End Ticket.

Module Worklog.
Record body : Type := {
  comment : string;
  timeSpentSeconds : Q;
  started : string
}.
End Worklog.

Inductive question : Type :=
| AskApiToken
| AskWorkspaceId
| AskJiraUsername
| AskJiraPassword.

(** Everything the run reads from outside. *)
Record env : Type := {
  program : Flags.t;
  today : string;                    (* moment().format("YYYY-MM-DD") *)
  prompt : question -> string;       (* what the user types *)
  confirm : bool;                    (* the answer to "Are you sure?" *)
  report : reply Report.body;        (* Toggl's reply *)
  search : reply Search.body;        (* Jira's reply to the search *)
  worklog : nat -> reply unit        (* Jira's reply to the n-th POST *)
}.

Inductive status : Type := Ready | NoJiraId | MultipleJiraIds.

Inductive verdict : Type := Found | NotASubtask | DoesntExist.

(** The lines the script prints, by what they say. *)
Inductive message : Type :=
| MissingApiToken
| MissingWorkspaceId
| Fetching (date : string)
| ApiRequest (workspace_id : option string) (date : string)
| ErrMessage (err : error)
| ErrObject (err : option error)
| TooManyEntries (per_page : Z)
| FoundItems (n : nat)
| NoItems (date : string)
| SummaryHeader
| ItemSummary (i : nat) (description : string) (duration count : Z)
              (jira : list string) (s : status)
| IssuesDetected (n : nat)
| Verifying (jql : string)
| KeyResult (key : string) (v : verdict)
| AboutToCreate (n : nat) (totalDuration : option Z)
| AllCreated
| Adding (timeInSeconds : Q) (jiraId : option string) (started : string)
| Done
| Failed.

Inductive event : Type :=
| Asked (q : question)
| AskedConfirm
| GetReport (workspace_id : option string) (page : Z)
            (since until : string) (apiToken : string)
| GetSearch (jql : string) (username password : string)
| PostWorklog (jiraId : option string) (body : Worklog.body)
              (username password : string)
| ConsoleLog (m : message)
| ConsoleError (m : message).

Inductive exn : Type :=
| TypeError (property : string).   (* reading [property] of undefined *)

(** How the process ends: [process.exit(code)], or an exception nobody
    catches. *)
Inductive ending : Type :=
| Exit (code : Z)
| Uncaught (e : exn).

(** Node terminates with status 1 on an uncaught exception. *)
Definition exit_status (e : ending) : Z :=
  match e with
  | Exit code => code
  | Uncaught _ => 1
  end.

(** *** The monad of the script: a trace of events, and an early end *)

Inductive result (A : Type) : Type :=
| Ret (a : A)
| Ended (e : ending).
Arguments Ended {A} e.

Definition M (A : Type) : Type := list event * result A.

Definition ret {A : Type} (a : A) : M A := ([], Ret a).

Definition bind {A B : Type} (m : M A) (f : A -> M B) : M B :=
  match m with
  | (t, Ret a) => let (t', r) := f a in (t ++ t', r)
  | (t, Ended e) => (t, Ended e)
  end.

Notation "x <- m ;; k" := (bind m (fun x => k))
  (at level 61, m at next level, right associativity).
Notation "m ;; k" := (bind m (fun _ => k))
  (at level 61, right associativity).

Definition emit (e : event) : M unit := ([e], Ret tt).
Definition console_log (m : message) : M unit := emit (ConsoleLog m).
Definition console_error (m : message) : M unit := emit (ConsoleError m).
Definition process_exit {A : Type} (code : Z) : M A := ([], Ended (Exit code)).
Definition throw {A : Type} (e : exn) : M A := ([], Ended (Uncaught e)).

(** [res.property]: a [TypeError] when [res] is undefined. *)
Definition read {B : Type} (res : option (Res.t B)) (property : string)
  : M (Res.t B) :=
  match res with
  | Some res => ret res
  | None => throw (TypeError property)
  end.

Fixpoint forEach {A S : Type} (l : list A) (body : S -> A -> M S) (s : S)
  : M S :=
  match l with
  | [] => ret s
  | a :: l' => s' <- body s a ;; forEach l' body s'
  end.

(** [!s] is false on a non-empty string only. *)
Definition truthy (s : option string) : bool :=
  match s with
  | Some s => negb (String.eqb s EmptyString)
  | None => false
  end.

(** [let x = program.x; if (!x) { x = ... }] *)
Definition unless_given (flag : option string) (ask : M string) : M string :=
  match flag with
  | Some s => if String.eqb s EmptyString then ask else ret s
  | None => ask
  end.

Definition ask (e : env) (q : question) : M string :=
  emit (Asked q) ;; ret (prompt e q).

Definition newline : string := String (ascii_of_nat 10) EmptyString.
Definition dquote : string := String (ascii_of_nat 34) EmptyString.

(* ================================================================== *)
(** ** The script *)

(** Lines 34-48: the API token and the workspace id.  The answer to the
    second prompt goes to [apiToken], as the script has it. *)
Definition credentials (e : env) : M (string * option string) :=
  (* Get the API Key from args or prompt *)
  apiToken <-
    unless_given (Flags.apiToken (program e))
      (console_log MissingApiToken ;; ask e AskApiToken) ;;
  (* Get the workspace id or prompt *)
  let workspace := Flags.workspace (program e) in
  apiToken <-
    (if truthy workspace then ret apiToken
     else console_log MissingWorkspaceId ;; ask e AskWorkspaceId) ;;
  ret (apiToken, workspace).

(** Lines 51-54. *)
Definition target_date (e : env) : string :=
  match Flags.date (program e) with
  | Some d => if String.eqb d EmptyString then today e else d
  | None => today e
  end.

(** [if (err) { console.error(...); console.error(err); process.exit(1) }] *)
Definition fail_on (err : option error) : M unit :=
  match err with
  | Some x =>
      console_error (ErrMessage x) ;;
      console_error (ErrObject (Some x)) ;;
      process_exit 1
  | None => ret tt
  end.

(** *** The summary loop (lines 157-190) *)

Definition status_of (jiraIds : list string) : status :=
  if (List.length jiraIds =? 1)%nat then Ready
  else if (List.length jiraIds =? 0)%nat then NoJiraId
  else MultipleJiraIds.

(** [item.jiraId = item.jiraIds[0]] *)
Definition track (item : Item.t) : Item.t :=
  {| Item.description := Item.description item;
     Item.jiraIds := Item.jiraIds item;
     Item.duration := Item.duration item;
     Item.occurrences := Item.occurrences item;
     Item.project := Item.project item;
     Item.jiraId := nth_error (Item.jiraIds item) 0 |}.

(** What the loop makes of one item: the item with the id it tracks, and
    the status it prints. *)
Definition classify (item : Item.t) : Item.t * status :=
  (track item, status_of (Item.jiraIds item)).

Record summary : Type := {
  issues : nat;
  i : nat;
  uniqueJiraIds : list string;
  seen : list Item.t          (* the items visited, [jiraId] set *)
}.

Definition add_unique (jiraId : option string) (unique : list string)
  : list string :=
  if truthy jiraId then
    match jiraId with
    | Some id => if existsb (String.eqb id) unique then unique
                 else unique ++ [id]
    | None => unique
    end
  else unique.

(** The counters after one item: [issues ++], [i++], and the item with its
    id among those seen. *)
Definition note (s : summary) (item : Item.t) (st : status) : summary :=
  {| issues := match st with
               | Ready => issues s
               | _ => S (issues s)
               end;
     i := S (i s);
     (* Get an array of unique id's for later *)
     uniqueJiraIds := add_unique (Item.jiraId item) (uniqueJiraIds s);
     seen := seen s ++ [item] |}.

Definition summarise (s : summary) (v : value) : M summary :=
  match v with
  | Builtin _ =>
      (* [item.jiraIds] is undefined: [item.jiraIds.join] throws *)
      throw (TypeError "join")
  | Obj item =>
      let (item, st) := classify item in
      (* Log the item *)
      console_log (ItemSummary (i s) (Item.description item)
                     (Item.duration item) (Item.occurrences item)
                     (Item.jiraIds item) st) ;;
      ret (note s item st)
  end.

(** *** The cross-check (lines 242-269) *)

Definition issues_of (found : list Issue.t) : JsObject.dict Ticket.t :=
  fold_left
    (fun issues issue =>
       JsObject.assign issues (Issue.key issue)
         {| Ticket.key := Issue.key issue;
            Ticket.isSubtask := Issue.subtask issue |})
    found (JsObject.empty _ _).

Definition verify (issues : JsObject.dict Ticket.t) (key : string) : verdict :=
  match JsObject.lookup issues key with
  | JsObject.Undefined => DoesntExist
  | JsObject.Own issue =>
      if negb (Ticket.isSubtask issue) then NotASubtask else Found
  | JsObject.Inherited _ =>
      (* a built-in: an object, without [isSubtask] *)
      NotASubtask
  end.

Definition check (issues : JsObject.dict Ticket.t) (errors : nat)
  (key : string) : M nat :=
  let v := verify issues key in
  console_log (KeyResult key v) ;;
  ret match v with
      | Found => errors
      | _ => S errors
      end.

(** *** The submission (lines 283-339) *)

Section Submit.
(** The variables [createNextWorkLog] closes over. *)
Variable date : string.
Variables username password : string.
Variable replies : nat -> reply unit.

Definition worklog_body (item : Item.t) : Worklog.body :=
  let timeInSeconds := Qmake (Item.duration item) 1000 in
  let comment :=
    (Item.description item ++ " " ++ newline ++ newline
       ++ "(Imported via Joggl)")%string in
  let started := (date ++ "T00:00:00.000+0000")%string in
  {| Worklog.comment := comment;
     Worklog.timeSpentSeconds := timeInSeconds;
     Worklog.started := started |}.

Definition post (item : Item.t) : event :=
  PostWorklog (Item.jiraId item) (worklog_body item) username password.

(** [allItems] is the queue; [n] counts the requests already made. *)
Fixpoint createNextWorkLog (allItems : list Item.t) (n : nat)
  : M Empty_set :=
  match allItems with
  | [] =>
      (* If there are no items left, exit *)
      console_log AllCreated ;;
      process_exit 0
  | item :: allItems =>
      (* Pop the next item from the array *)
      let body := worklog_body item in
      console_log (Adding (Worklog.timeSpentSeconds body)
                     (Item.jiraId item) (Worklog.started body)) ;;
      (* Run the request *)
      emit (post item) ;;
      let (err, res) := callback (replies n) in
      res <- read res "statusCode" ;;
      (* if we got 201, it was good so move on *)
      if (Res.statusCode res =? 201)%Z then
        console_log Done ;;
        createNextWorkLog allItems (S n)
      else
        console_log Failed ;;
        console_error (ErrObject err) ;;
        process_exit 1
  end.
End Submit.

(** *** The whole script *)

Definition jql_of (uniqueJiraIds : list string) : string :=
  ("key in (" ++ dquote
     ++ String.concat (dquote ++ "," ++ dquote) uniqueJiraIds
     ++ dquote ++ ")")%string.

(** Lines 272-340: the last [co] block. *)
Definition submit (e : env) (date username password : string)
  (allItems : list Item.t) (totalDuration : option Z) : M Empty_set :=
  console_log (AboutToCreate (List.length allItems) totalDuration) ;;
  emit AskedConfirm ;;
  let ok := confirm e in
  (* Exit now if we said no *)
  (if negb ok then process_exit 0 else ret tt) ;;
  (* Create the next work log *)
  createNextWorkLog date username password (worklog e) allItems 0.

(** Lines 233-341: the callback of the search request. *)
Definition on_search (e : env) (date username password : string)
  (allItems : list Item.t) (totalDuration : option Z)
  (uniqueJiraIds : list string)
  (err : option error) (res : option (Res.t Search.body)) : M Empty_set :=
  (* Make sure the API returned something *)
  fail_on err ;;
  res <- read res "body" ;;
  (* Map the issues into a dictionary to check over *)
  let issues := issues_of (Search.issues (Res.body res)) in
  (* Verify each ticket in uniqueJiraIds *)
  errors <- forEach uniqueJiraIds (check issues) 0%nat ;;
  (if (0 <? errors)%nat then
     console_error (IssuesDetected errors) ;;
     process_exit 1
   else ret tt) ;;
  (* Create a work log for each item *)
  submit e date username password allItems totalDuration.

(** Lines 202-232: the second [co] block. *)
Definition cross_check (e : env) (date : string)
  (allItems : list Item.t) (totalDuration : option Z)
  (uniqueJiraIds : list string) (jql : string) : M Empty_set :=
  username <- unless_given (Flags.username (program e))
                (ask e AskJiraUsername) ;;
  password <- unless_given (Flags.password (program e))
                (ask e AskJiraPassword) ;;
  emit (GetSearch jql username password) ;;
  let (err, res) := callback (search e) in
  on_search e date username password allItems totalDuration uniqueJiraIds
    err res.

(** Lines 79-343: the callback of the report request. *)
Definition on_report (e : env) (date : string)
  (err : option error) (res : option (Res.t Report.body)) : M Empty_set :=
  (* Make sure the API returned something *)
  fail_on err ;;
  res <- read res "body" ;;
  let body := Res.body res in
  (* Make sure we have all the data in the response *)
  (if (Report.total_count body >? Report.per_page body)%Z then
     console_error (TooManyEntries (Report.per_page body)) ;;
     process_exit 1
   else ret tt) ;;
  console_log (FoundItems (List.length (Report.data body))) ;;
  (* Map the raw data to a bunch of entries *)
  let projects := grouped (Report.data body) in
  (* Now we've merged the same tasks together, form a single array *)
  let allItems := flatten projects in
  let totalDuration := totalDuration_of allItems in
  (* Make sure we have stuff to report *)
  (if (List.length allItems =? 0)%nat then
     console_log (NoItems date) ;;
     process_exit 0
   else ret tt) ;;
  (* Loop all the items *)
  console_log SummaryHeader ;;
  s <- forEach allItems summarise
         {| issues := 0; i := 1; uniqueJiraIds := []; seen := [] |} ;;
  let allItems := seen s in
  (if (0 <? issues s)%nat then
     console_error (IssuesDetected (issues s)) ;;
     process_exit 1
   else ret tt) ;;
  (* Work out the jira tickets we want to work with *)
  let jql := jql_of (uniqueJiraIds s) in
  console_log (Verifying jql) ;;
  cross_check e date allItems totalDuration (uniqueJiraIds s) jql.

(** Lines 32-79: the first [co] block. *)
Definition main (e : env) : M Empty_set :=
  c <- credentials e ;;
  let (apiToken, workspace) := c in
  (* Work out the date *)
  let date := target_date e in
  (* Log what we are doing *)
  console_log (Fetching date) ;;
  console_log (ApiRequest workspace date) ;;
  (* Make the request *)
  emit (GetReport workspace 1 date date apiToken) ;;
  let (err, res) := callback (report e) in
  on_report e date err res.

(** The trace of a computation that cannot return, and the way it ends. *)
Definition finish (m : M Empty_set) : list event * ending :=
  match m with
  | (t, Ended x) => (t, x)
  | (_, Ret a) => match a with end
  end.

Definition run (e : env) : list event * ending := finish (main e).

Definition trace (e : env) : list event := fst (run e).
Definition outcome (e : env) : ending := snd (run e).

(** The work logs a trace submits, in order. *)
Definition posts (t : list event) : list event :=
  filter (fun ev => match ev with
                    | PostWorklog _ _ _ _ => true
                    | _ => false
                    end) t.

(* ================================================================== *)
(** ** The vocabulary of the statements *)

(** *** Work items *)

(** The sum of the durations of the entries. *)
Definition total_dur (logs : list Log.t) : Z :=
  fold_right (fun log acc => Log.dur log + acc) 0 logs.

(** The work item the specification expects of entries that share the
    project and the description of [log]. *)
Definition merged (log : Log.t) (logs : list Log.t) : Item.t :=
  {| Item.description := Log.description log;
     Item.jiraIds := findJiraIds (Log.description log);
     Item.duration := total_dur logs;
     Item.occurrences := Z.of_nat (List.length logs);
     Item.project := Log.project log;
     Item.jiraId := None |}.

Definition same_key (a b : Log.t) : Prop :=
  Log.pid a = Log.pid b /\ Log.description a = Log.description b.

(** *** Runs *)

(** The server reports "created". *)
Definition created (r : reply unit) : bool :=
  match r with
  | Response st _ => (st =? 201)%Z
  | NoResponse _ => false
  end.

(** The same environment, with other rows in the report. *)
Definition with_data (e : env) (data : list Log.t) : env :=
  {| program := program e;
     today := today e;
     prompt := prompt e;
     confirm := confirm e;
     report :=
       match report e with
       | Response st body =>
           Response st {| Report.total_count := Report.total_count body;
                          Report.per_page := Report.per_page body;
                          Report.data := data |}
       | NoResponse m => NoResponse m
       end;
     search := search e;
     worklog := worklog e |}.

(** Events before the confirmation: neither the prompt "Are you sure?"
    nor a work log. *)
Definition early (ev : event) : bool :=
  match ev with
  | AskedConfirm | PostWorklog _ _ _ _ => false
  | _ => true
  end.

(** The items among the values of the array. *)
Definition objects (allItems : list value) : list Item.t :=
  flat_map (fun v => match v with
                     | Obj item => [item]
                     | Builtin _ => []
                     end) allItems.

(** The summary loop over items only. *)
Definition summarised (items : list Item.t) (s : summary) : summary :=
  fold_left (fun s item => note s (track item) (status_of (Item.jiraIds item)))
    items s.

Definition start : summary :=
  {| issues := 0; i := 1; uniqueJiraIds := []; seen := [] |}.

(** The ids the run looks up in the issue tracker. *)
Definition unique_ids (items : list Item.t) : list string :=
  uniqueJiraIds (summarised items start).

(** The value of [x] after [let x = program.x; if (!x) { x = answer }]. *)
Definition given_or (flag : option string) (answer : string) : string :=
  match flag with
  | Some s => if String.eqb s EmptyString then answer else s
  | None => answer
  end.

(** The value of [apiToken] when the report is requested. *)
Definition toggl_token (e : env) : string :=
  if truthy (Flags.workspace (program e)) then
    given_or (Flags.apiToken (program e)) (prompt e AskApiToken)
  else prompt e AskWorkspaceId.

Definition jira_username (e : env) : string :=
  given_or (Flags.username (program e)) (prompt e AskJiraUsername).

Definition jira_password (e : env) : string :=
  given_or (Flags.password (program e)) (prompt e AskJiraPassword).

(** The line "Adding ... seconds to ... on ..." printed for an item. *)
Definition adding (date : string) (item : Item.t) : event :=
  ConsoleLog (Adding (Qmake (Item.duration item) 1000) (Item.jiraId item)
                (date ++ "T00:00:00.000+0000")%string).

(** A run that reaches the confirmation: every value of the array is an
    item, every item is ready, every id looked up was found, and what
    follows the events [pre] is [submit] on the items. *)
Definition passes (e : env) (date : string) (body : Report.body)
  (found : Search.body) (pre : list event) (r : list event * ending) : Prop :=
  let allItems := allItems_of (Report.data body) in
  let rest :=
    finish (submit e date (jira_username e) (jira_password e)
              (map track (objects allItems)) (totalDuration_of allItems)) in
  allItems = map Obj (objects allItems)
  /\ (forall item, In item (objects allItems) ->
                   status_of (Item.jiraIds item) = Ready)
  /\ (forall id, In id (unique_ids (objects allItems)) ->
                 verify (issues_of (Search.issues found)) id = Found)
  /\ r = (pre ++ fst rest, snd rest).

(** The ids of an item are those of its description. *)
Definition ids_of_description (v : value) : Prop :=
  match v with
  | Obj item => Item.jiraIds item = findJiraIds (Item.description item)
  | Builtin _ => True
  end.

Fixpoint has_hyphen (s : string) : bool :=
  match s with
  | EmptyString => false
  | String c s' => Ascii.eqb c "-" || has_hyphen s'
  end.

(** A whole number of seconds. *)
Definition whole (q : Q) : Prop := exists n : Z, Qeq q (inject_Z n).

(** *** Ticket identifiers *)

Fixpoint every (c : cls) (s : string) : bool :=
  match s with
  | EmptyString => true
  | String x s' => in_cls c x && every c s'
  end.

(** One letter, then one or more letters, digits or underscores, then a
    hyphen, then a digit sequence with a nonzero leading digit. *)
Definition JiraId (m : string) : Prop :=
  exists l key d ds,
    m = String l (key ++ String "-" (String d ds))%string
    /\ in_cls letter l = true
    /\ key <> EmptyString
    /\ every word key = true
    /\ in_cls nonzero d = true
    /\ every digit ds = true.

Definition begins_with_digit (m : string) : Prop :=
  exists c rest, m = String c rest /\ in_cls digit c = true.

(** The digits after the hyphen begin with a zero. *)
Definition leading_zero_suffix (m : string) : Prop :=
  exists key ds,
    m = (key ++ String "-" (String "0" ds))%string /\ every digit ds = true.

(** [Matches s ms]: [ms] are the non-overlapping matches of [s], left to
    right: the first id of [s] that begins leftmost, taken as long as it
    goes, then the matches of what follows it. *)
Inductive Matches : string -> list string -> Prop :=
| Matches_none s :
    (forall pre m post, s = (pre ++ m ++ post)%string -> ~ JiraId m) ->
    Matches s []
| Matches_next pre m post ms :
    JiraId m ->
    (forall pre' m' post',
        (pre ++ m ++ post = pre' ++ m' ++ post')%string -> JiraId m' ->
        (String.length pre <= String.length pre')%nat) ->
    (forall m' post',
        (m ++ post = m' ++ post')%string -> JiraId m' ->
        (String.length m' <= String.length m)%nat) ->
    Matches post ms ->
    Matches (pre ++ m ++ post)%string (m :: ms).

(** The longest prefix of [s] inside the class [c], and what follows. *)
Fixpoint take_while (c : cls) (s : string) : string :=
  match s with
  | String x s' => if in_cls c x then String x (take_while c s') else EmptyString
  | EmptyString => EmptyString
  end.

Fixpoint drop_while (c : cls) (s : string) : string :=
  match s with
  | String x s' => if in_cls c x then drop_while c s' else s
  | EmptyString => EmptyString
  end.

(** The id at the start of [s], read off directly: what [jira_regex]
    finds there (lemma [exec_at_jira]). *)
Definition jira_at (s : string) : option string :=
  match s with
  | String l s1 =>
      if in_cls letter l then
        match s1 with
        | String w _ =>
            if in_cls word w then
              let key := take_while word s1 in
              match drop_while word s1 with
              | String h (String d s2) =>
                  if in_cls hyphen h && in_cls nonzero d then
                    Some (String l (key ++ String h
                                      (String d (take_while digit s2))))%string
                  else None
              | _ => None
              end
            else None
        | EmptyString => None
        end
      else None
  | EmptyString => None
  end.

(** *** More about ticket identifiers *)

(** The number of characters of the matches together. *)
Definition total_length (ms : list string) : nat :=
  fold_right (fun m n => (String.length m + n)%nat) 0%nat ms.

(** *** More about the grouping *)

(** The key of an entry: its project id and its description. *)
Definition key_of (log : Log.t) : option Z * string :=
  (Log.pid log, Log.description log).

Definition has_key (pid : option Z) (description : string) (log : Log.t)
  : bool :=
  pid_eqb (Log.pid log) pid && String.eqb (Log.description log) description.

(** The entries of the report with the key of [log]. *)
Definition entries_like (log : Log.t) (data : list Log.t) : list Log.t :=
  filter (has_key (Log.pid log) (Log.description log)) data.

(** The project name of the first entry with this project id. *)
Definition project_name (pid : option Z) (data : list Log.t)
  : option string :=
  match find (fun log => pid_eqb (Log.pid log) pid) data with
  | Some log => Log.project log
  | None => None
  end.

(** The work item of the entries with the key of [log]. *)
Definition work_item (log : Log.t) (data : list Log.t) : Item.t :=
  {| Item.description := Log.description log;
     Item.jiraIds := findJiraIds (Log.description log);
     Item.duration := total_dur (entries_like log data);
     Item.occurrences := Z.of_nat (List.length (entries_like log data));
     Item.project := project_name (Log.pid log) data;
     Item.jiraId := None |}.

(** [projects[pid].items[description]], own properties only. *)
Definition stored (projects : projects_t) (pid : option Z)
  (description : string) : option value :=
  match JsObject.get pid_eqb projects pid with
  | Some project => JsObject.get String.eqb (Project.items project) description
  | None => None
  end.

(** What the grouping loop has stored under a key after the rows [data]. *)
Definition expected (data : list Log.t) (pid : option Z)
  (description : string) : option value :=
  match filter (has_key pid description) data with
  | [] => None
  | entries =>
      if String.eqb description "__proto__" then None
      else if JsObject.inherited description then Some (Builtin description)
      else Some (Obj {| Item.description := description;
                        Item.jiraIds := findJiraIds description;
                        Item.duration := total_dur entries;
                        Item.occurrences := Z.of_nat (List.length entries);
                        Item.project := None;
                        Item.jiraId := None |})
  end.

(** The keys under which the loop has stored a value. *)
Definition stored_keys (projects : projects_t) : list (option Z * string) :=
  flat_map (fun p : option Z * Project.t =>
              map (fun q : string * value => (fst p, fst q))
                  (Project.items (snd p)))
    projects.

Definition key_dec (a b : option Z * string) : {a = b} + {a <> b}.
Proof.
  decide equality; [apply string_dec|].
  decide equality. apply Z.eq_dec.
Defined.

(** The distinct keys of the rows, [__proto__] apart. *)
Definition distinct_keys (data : list Log.t) : list (option Z * string) :=
  nodup key_dec
    (map key_of
       (filter (fun log => negb (String.eqb (Log.description log) "__proto__"))
          data)).

Definition occurrences_of (v : value) : Z :=
  match v with
  | Obj item => Item.occurrences item
  | Builtin _ => 0
  end.

Definition duration_of (v : value) : Z :=
  match v with
  | Obj item => Item.duration item
  | Builtin _ => 0
  end.

Definition sum_of (f : value -> Z) (l : list value) : Z :=
  fold_right (fun v acc => f v + acc) 0 l.


(** The rows whose description is not the name of an inherited
    property. *)
Definition kept (data : list Log.t) : list Log.t :=
  filter (fun log => negb (JsObject.inherited (Log.description log))) data.

(** The rows that do not leave a built-in function in the array. *)
Definition harmless (log : Log.t) : bool :=
  negb (JsObject.inherited (Log.description log))
  || String.eqb (Log.description log) "__proto__".

Definition is_item (v : value) : bool :=
  match v with
  | Obj _ => true
  | Builtin _ => false
  end.

(** The sum of [g] over the values of an object. *)
Definition total {K V : Type} (g : V -> Z) (o : JsObject.t K V) : Z :=
  fold_right (fun p acc => g (snd p) + acc) 0 o.

(** The project the loop body fetches or makes. *)
Definition fetched (projects : projects_t) (log : Log.t) : Project.t :=
  match JsObject.get pid_eqb projects (Log.pid log) with
  | Some project => project
  | None => {| Project.name := Log.project log;
               Project.id := Log.pid log;
               Project.items := JsObject.empty _ _ |}
  end.

(** *** The lines of a run *)

(** A 2xx response: the callback gets no [err]. *)
Definition success {B : Type} (r : reply B) : bool :=
  match r with
  | Response st _ => (200 <=? st)%Z && (st <? 300)%Z
  | NoResponse _ => false
  end.

(** The lines of the summary, numbered from [n]. *)
Fixpoint summary_lines (items : list Item.t) (n : nat) : list event :=
  match items with
  | [] => []
  | item :: items =>
      ConsoleLog (ItemSummary n (Item.description item) (Item.duration item)
                    (Item.occurrences item) (Item.jiraIds item)
                    (status_of (Item.jiraIds item)))
      :: summary_lines items (S n)
  end.

Definition ready (item : Item.t) : bool :=
  (List.length (Item.jiraIds item) =? 1)%nat.

(** The items the summary counts as issues. *)
Definition unready (items : list Item.t) : list Item.t :=
  filter (fun item => negb (ready item)) items.

(** The verdicts of the cross-check, one line for each id. *)
Definition key_lines (issues : JsObject.dict Ticket.t) (ids : list string)
  : list event :=
  map (fun id => ConsoleLog (KeyResult id (verify issues id))) ids.

Definition is_found (v : verdict) : bool :=
  match v with
  | Found => true
  | _ => false
  end.

(** The ids the cross-check counts as errors. *)
Definition failures (issues : JsObject.dict Ticket.t) (ids : list string)
  : list string :=
  filter (fun id => negb (is_found (verify issues id))) ids.

(** Up to the request of the report. *)
Definition prologue (e : env) : list event :=
  fst (credentials e)
  ++ [ConsoleLog (Fetching (target_date e));
      ConsoleLog (ApiRequest (Flags.workspace (program e)) (target_date e));
      GetReport (Flags.workspace (program e)) 1 (target_date e)
        (target_date e) (toggl_token e)].

(** From the response of the report to the end of the summary. *)
Definition report_lines (e : env) (body : Report.body) : list event :=
  prologue e
  ++ [ConsoleLog (FoundItems (List.length (Report.data body)));
      ConsoleLog SummaryHeader]
  ++ summary_lines (objects (allItems_of (Report.data body))) 1.

(** The prompts for the Jira account, for what the flags leave out. *)
Definition jira_prompts (e : env) : list event :=
  fst (unless_given (Flags.username (program e)) (ask e AskJiraUsername))
  ++ fst (unless_given (Flags.password (program e)) (ask e AskJiraPassword)).

(** From the end of the summary to the end of the cross-check. *)
Definition search_lines (e : env) (body : Report.body) (found : Search.body)
  : list event :=
  let ids := unique_ids (objects (allItems_of (Report.data body))) in
  [ConsoleLog (Verifying (jql_of ids))]
  ++ jira_prompts e
  ++ [GetSearch (jql_of ids) (jira_username e) (jira_password e)]
  ++ key_lines (issues_of (Search.issues found)) ids.

(** What the script prints and sends for an item whose work log is
    created. *)
Definition submitted (date username password : string) (item : Item.t)
  : list event :=
  [adding date item; post date username password item; ConsoleLog Done].

(** The last issue of the search response with this key. *)
Definition last_issue (found : list Issue.t) (key : string)
  : option Issue.t :=
  find (fun issue => String.eqb (Issue.key issue) key) (rev found).

(** What the script does apart from printing: prompts and requests. *)
Definition is_action (ev : event) : bool :=
  match ev with
  | ConsoleLog _ | ConsoleError _ => false
  | _ => true
  end.

Definition actions (t : list event) : list event := filter is_action t.

(** The prompts for what the command line leaves out. *)
Definition toggl_asked (e : env) : list event :=
  (if truthy (Flags.apiToken (program e)) then [] else [Asked AskApiToken])
  ++ (if truthy (Flags.workspace (program e)) then []
      else [Asked AskWorkspaceId]).

Definition jira_asked (e : env) : list event :=
  (if truthy (Flags.username (program e)) then []
   else [Asked AskJiraUsername])
  ++ (if truthy (Flags.password (program e)) then []
      else [Asked AskJiraPassword]).

(** The [err] of a request that did not succeed. *)
Definition failure {B : Type} (r : reply B) : error :=
  match r with
  | NoResponse m => Transport m
  | Response st _ => BadStatus st
  end.

(** *** The range of the arithmetic *)

(** The numbers of the script are doubles.  Sums of integers are those of
    the integers as long as no sum leaves the safe integers, and the
    quotient of an integer of at most 15 digits by 1000 is a decimal
    fraction of at most 15 digits, which a double keeps apart from every
    other such fraction and which the request carries digit for digit.
    The theorems that state a sum or the quotient are stated within these
    ranges. *)
Definition MAX_SAFE_INTEGER : Z := 2 ^ 53 - 1.

(** The magnitudes of the durations of the rows, together: a bound of
    every sum the loops form of them. *)
Definition total_abs (logs : list Log.t) : Z :=
  fold_right (fun log acc => Z.abs (Log.dur log) + acc) 0 logs.

Definition exact_sums (logs : list Log.t) : Prop :=
  total_abs logs <= MAX_SAFE_INTEGER.

Definition exact_seconds (logs : list Log.t) : Prop :=
  total_abs logs < 10 ^ 15.

(** The rows of the report, when there is a response. *)
Definition report_rows (e : env) : list Log.t :=
  match report e with
  | Response _ body => Report.data body
  | NoResponse _ => []
  end.

(** *** Sample runs *)

Definition entry (description : string) (dur : Z) : Log.t :=
  {| Log.pid := Some 1; Log.project := Some "X";
     Log.description := description; Log.dur := dur |}.

(** A run with every option on the command line, a report of one page
    with the rows [data], and a search that returns [found]. *)
Definition sample (data : list Log.t) (found : list Issue.t)
  (replies : nat -> reply unit) (ok : bool) : env :=
  {| program := {| Flags.date := Some "2016-05-01";
                   Flags.apiToken := Some "token";
                   Flags.workspace := Some "42";
                   Flags.username := Some "me";
                   Flags.password := Some "secret" |};
     today := "2016-05-02";
     prompt := fun _ => "typed";
     confirm := ok;
     report := Response 200 {| Report.total_count := Z.of_nat (List.length data);
                               Report.per_page := 50;
                               Report.data := data |};
     search := Response 200 {| Search.issues := found |};
     worklog := replies |}.

Definition subtask (key : string) : Issue.t :=
  {| Issue.key := key; Issue.subtask := true |}.

Definition story (key : string) : Issue.t :=
  {| Issue.key := key; Issue.subtask := false |}.

Definition all_created : nat -> reply unit := fun _ => Response 201 tt.

(** A report of 500 entries, 200 to the page. *)
Definition crowded : env :=
  {| program := program (sample [] [] all_created true);
     today := "2016-05-02";
     prompt := fun _ => "typed";
     confirm := true;
     report := Response 200 {| Report.total_count := 500;
                               Report.per_page := 200;
                               Report.data := [entry "Fix ABC-12 bug" 60000] |};
     search := NoResponse "unused";
     worklog := all_created |}.

(** A command line without the workspace option; at the prompt the user
    types 42.  Toggl cannot be reached. *)
Definition no_workspace : env :=
  {| program := {| Flags.date := Some "2016-05-01";
                   Flags.apiToken := Some "token";
                   Flags.workspace := None;
                   Flags.username := Some "me";
                   Flags.password := Some "secret" |};
     today := "2016-05-02";
     prompt := fun q => match q with
                        | AskWorkspaceId => "42"
                        | _ => "typed"
                        end;
     confirm := true;
     report := NoResponse "ECONNREFUSED";
     search := NoResponse "unused";
     worklog := all_created |}.

(* ================================================================== *)
(** * Proofs *)

Unset Implicit Arguments.

Example findJiraIds_1 : findJiraIds "Fix ABC-12 bug" = ["ABC-12"].
Proof. reflexivity. Qed.
Example findJiraIds_2 :
  findJiraIds "Spans ABC-1 and XYZ-2" = ["ABC-1"; "XYZ-2"].
Proof. reflexivity. Qed.
Example findJiraIds_3 : findJiraIds "Unplanned work" = [].
Proof. reflexivity. Qed.
Example findJiraIds_4 :
  findJiraIds "AB-0 AB-10 A-1 9AB-7x AB-01" = ["AB-10"; "AB-7"].
Proof. reflexivity. Qed.
Example findJiraIds_5 : findJiraIds "AB-12-3AB_-4CD-5" = ["AB-12"; "AB_-4"; "CD-5"].
Proof. reflexivity. Qed.

(* ================================================================== *)
(** ** Strings *)

Section Strings.
Local Open Scope string_scope.

Lemma append_nil_r (s : string) : s ++ EmptyString = s.
Proof. induction s; simpl; congruence. Qed.

Lemma append_assoc (a b c : string) : (a ++ b) ++ c = a ++ b ++ c.
Proof. induction a; simpl; congruence. Qed.

Lemma length_append (a b : string) :
  String.length (a ++ b) = (String.length a + String.length b)%nat.
Proof. induction a; simpl; congruence. Qed.

Lemma length_zero (s : string) : String.length s = 0%nat -> s = EmptyString.
Proof. destruct s; simpl; [reflexivity | discriminate]. Qed.

Lemma substring_0_append (m post : string) :
  substring 0 (String.length m) (m ++ post) = m.
Proof.
  induction m as [|c m IH]; simpl.
  - destruct post; reflexivity.
  - now rewrite IH.
Qed.

(** Two ways of cutting one string: the shorter head is a prefix of the
    longer. *)
Lemma append_cut (a b a' b' : string) :
  a ++ b = a' ++ b' ->
  (String.length a <= String.length a')%nat ->
  exists c, a' = a ++ c /\ b = c ++ b'.
Proof.
  revert a'. induction a as [|x a IH]; intros a' E L; simpl in *.
  - exists a'. split; [reflexivity | assumption].
  - destruct a' as [|y a']; simpl in *; [lia|].
    injection E as -> E.
    destruct (IH a' E) as (c & -> & ->); [lia|].
    exists c. split; reflexivity.
Qed.

Lemma append_same_length (a b a' b' : string) :
  a ++ b = a' ++ b' -> String.length a = String.length a' ->
  a = a' /\ b = b'.
Proof.
  intros E L. destruct (append_cut a b a' b' E) as (c & -> & ->); [lia|].
  rewrite length_append in L.
  assert (c = EmptyString) as -> by (apply length_zero; lia).
  now rewrite append_nil_r.
Qed.
End Strings.

(* ================================================================== *)
(** ** The character classes of the pattern *)

Ltac classes :=
  repeat match goal with
    | H : in_cls _ _ = true |- _ => revert H
    | H : in_cls _ _ = false |- _ => revert H
    end;
  cbv [letter word digit nonzero hyphen in_cls];
  repeat match goal with
    | |- context [nat_of_ascii (Ascii ?a ?b ?c ?d ?e ?f ?g ?h)] =>
        let n := eval vm_compute in (nat_of_ascii (Ascii a b c d e f g h)) in
        change (nat_of_ascii (Ascii a b c d e f g h)) with n
    end;
  repeat rewrite ?orb_true_iff, ?orb_false_iff, ?andb_true_iff,
    ?andb_false_iff, ?Nat.leb_le, ?Nat.leb_gt, ?Nat.eqb_eq, ?Nat.eqb_neq;
  intros; lia.

Lemma hyphen_not_word (x : ascii) :
  in_cls word x = true -> in_cls hyphen x = false.
Proof. classes. Qed.

Lemma hyphen_is_hyphen (x : ascii) : in_cls hyphen x = true -> x = "-"%char.
Proof.
  unfold hyphen; cbn [in_cls]. intros H. apply Nat.eqb_eq in H.
  rewrite <- (ascii_nat_embedding x), H. reflexivity.
Qed.

Lemma hyphen_in : in_cls hyphen "-" = true.
Proof. reflexivity. Qed.

Lemma hyphen_not_in_word : in_cls word "-" = false.
Proof. reflexivity. Qed.

Lemma letter_is_word (x : ascii) : in_cls letter x = true -> in_cls word x = true.
Proof. classes. Qed.

Lemma letter_not_digit (x : ascii) :
  in_cls letter x = true -> in_cls digit x = false.
Proof. classes. Qed.

Lemma nonzero_is_digit (x : ascii) :
  in_cls nonzero x = true -> in_cls digit x = true.
Proof. classes. Qed.

Lemma zero_not_nonzero : in_cls nonzero "0" = false.
Proof. reflexivity. Qed.

(* ================================================================== *)
(** ** What the pattern finds at one position *)

Section Scanner.
Local Open Scope string_scope.

Lemma Some_inj (A : Type) (a b : A) : Some a = Some b -> a = b.
Proof. congruence. Qed.

Lemma take_drop (c : cls) (s : string) :
  take_while c s ++ drop_while c s = s.
Proof.
  induction s as [|x s IH]; simpl; [reflexivity|].
  destruct (in_cls c x); simpl; [now rewrite IH | reflexivity].
Qed.

Lemma every_take (c : cls) (s : string) : every c (take_while c s) = true.
Proof.
  induction s as [|x s IH]; simpl; [reflexivity|].
  destruct (in_cls c x) eqn:E; simpl; [now rewrite E | reflexivity].
Qed.

Lemma drop_head (c : cls) (s : string) (x : ascii) (r : string) :
  drop_while c s = String x r -> in_cls c x = false.
Proof.
  induction s as [|y s IH]; simpl; [discriminate|].
  destruct (in_cls c y) eqn:E; [assumption|].
  intros [= -> _]. assumption.
Qed.

Lemma take_append (c : cls) (a b : string) :
  every c a = true ->
  take_while c (a ++ b) = a ++ take_while c b
  /\ drop_while c (a ++ b) = drop_while c b.
Proof.
  induction a as [|x a IH]; simpl; [auto|].
  intros H. apply andb_true_iff in H as [Hx Ha]. rewrite Hx.
  destruct (IH Ha) as [-> ->]. auto.
Qed.

Lemma every_append (c : cls) (a b : string) :
  every c (a ++ b) = every c a && every c b.
Proof.
  induction a as [|x a IH]; simpl; [reflexivity|].
  now rewrite IH, andb_assoc.
Qed.

(** A continuation that refuses every character of the class makes the
    repetition deterministic: only the longest run can be followed. *)
Lemma greedy_reject (c : cls) (k : string -> option nat) (s : string) :
  (forall x s', in_cls c x = true -> k (String x s') = None) ->
  greedy c k s =
    option_map (Nat.add (String.length (take_while c s)))
      (k (drop_while c s)).
Proof.
  intros Hk. induction s as [|x s IH]; simpl.
  - destruct (k EmptyString); reflexivity.
  - destruct (in_cls c x) eqn:E.
    + rewrite IH. destruct (k (drop_while c s)); simpl; [reflexivity|].
      now apply Hk.
    + simpl. destruct (k (String x s)); reflexivity.
Qed.

(** At the end of the pattern the repetition takes the longest run. *)
Lemma greedy_last (c : cls) (k : string -> option nat) (s : string) :
  (forall s', k s' = Some 0%nat) ->
  greedy c k s = Some (String.length (take_while c s)).
Proof.
  intros Hk. induction s as [|x s IH]; simpl; [apply Hk|].
  destruct (in_cls c x); [now rewrite IH | apply Hk].
Qed.

(** The backtracking matcher and the direct reading agree. *)
Lemma exec_at_jira (s : string) :
  exec_at jira_regex s = option_map String.length (jira_at s).
Proof.
  destruct s as [|l s1]; [reflexivity|].
  unfold jira_regex. cbn [exec_at jira_at].
  destruct (in_cls letter l); [|reflexivity].
  destruct s1 as [|w s2]; [reflexivity|].
  destruct (in_cls word w) eqn:Ew; [|reflexivity].
  rewrite greedy_reject.
  2:{ intros x s' Hx. cbn [exec_at]. now rewrite (hyphen_not_word x Hx). }
  cbn [take_while drop_while]. rewrite Ew.
  destruct (drop_while word s2) as [|h [|d s3]]; cbn [exec_at option_map].
  - reflexivity.
  - destruct (in_cls hyphen h); reflexivity.
  - destruct (in_cls hyphen h); [|reflexivity]. cbn [andb option_map].
    destruct (in_cls nonzero d); [|reflexivity].
    rewrite greedy_last by reflexivity. cbn [option_map].
    f_equal. cbn [String.length]. rewrite length_append.
    cbn [String.length]. lia.
Qed.

(** What [jira_at] returns is an id at the start of the string, followed
    by no further digit. *)
Lemma jira_at_sound (s m : string) :
  jira_at s = Some m ->
  JiraId m /\ exists post, s = m ++ post /\ take_while digit post = EmptyString.
Proof.
  destruct s as [|l s1]; [discriminate|]. cbn [jira_at].
  destruct (in_cls letter l) eqn:El; [|discriminate].
  destruct s1 as [|w s2]; [discriminate|].
  destruct (in_cls word w) eqn:Ew; [|discriminate].
  destruct (drop_while word (String w s2)) as [|h [|d s3]] eqn:Ed;
    try discriminate.
  destruct (in_cls hyphen h) eqn:Eh; [|discriminate].
  destruct (in_cls nonzero d) eqn:En; [|discriminate].
  cbn [andb]. intros H. apply Some_inj in H. subst m.
  apply hyphen_is_hyphen in Eh. subst h.
  split.
  - exists l, (take_while word (String w s2)), d, (take_while digit s3).
    repeat split; auto using every_take.
    cbn [take_while]. rewrite Ew. discriminate.
  - exists (drop_while digit s3). split.
    + cbn [append]. f_equal. rewrite append_assoc. cbn [append].
      rewrite take_drop, <- Ed. now rewrite take_drop.
    + destruct (drop_while digit s3) as [|x r] eqn:E; [reflexivity|].
      apply drop_head in E. cbn [take_while]. now rewrite E.
Qed.

(** Every id at the start of the string is a prefix of the one
    [jira_at] returns. *)
Lemma jira_at_complete (s m post : string) :
  s = m ++ post -> JiraId m ->
  exists m0, jira_at s = Some m0
             /\ (String.length m <= String.length m0)%nat.
Proof.
  intros -> (l & key & d & ds & -> & Hl & Hkey & Hw & Hd & Hds).
  cbn [append jira_at]. rewrite Hl.
  destruct key as [|w key]; [congruence|]. cbn [append].
  cbn [every] in Hw. apply andb_true_iff in Hw as [Hw Hkey'].
  rewrite Hw.
  change (String w (key ++ String "-" (String d ds) ++ post))
    with (String w key ++ String "-" (String d (ds ++ post))).
  destruct (take_append word (String w key)
              (String "-" (String d (ds ++ post)))) as [Et Ed].
  { cbn [every]. now rewrite Hw, Hkey'. }
  rewrite append_assoc. cbn [append] in *. rewrite Ed, Et.
  cbn [take_while drop_while]. rewrite hyphen_not_in_word, hyphen_in, Hd.
  cbn [andb]. eexists. split; [reflexivity|].
  destruct (take_append digit ds post Hds) as [-> _].
  cbn [String.length]. rewrite !length_append. cbn [String.length].
  rewrite !length_append. lia.
Qed.
End Scanner.

(* ================================================================== *)
(** ** All the matches of a string *)

Section AllMatches.
Local Open Scope string_scope.

Lemma match_all_skip (r : regex) (a b : string) :
  match_all r (String.length a) (a ++ b) = match_all r 0 b.
Proof. induction a as [|x a IH]; [destruct b|]; simpl; auto. Qed.

Lemma findJiraIds_match_all (s : string) :
  findJiraIds s = match_all jira_regex 0 s.
Proof.
  unfold findJiraIds, String_match.
  destruct (match_all jira_regex 0 s); reflexivity.
Qed.

Lemma JiraId_nonempty (m : string) :
  JiraId m -> exists c m', m = String c m'.
Proof. intros (l & key & d & ds & -> & _). eauto. Qed.

Lemma ids_some (s m post : string) :
  jira_at s = Some m -> s = m ++ post ->
  match_all jira_regex 0 s = m :: match_all jira_regex 0 post.
Proof.
  intros H ->. destruct (jira_at_sound _ _ H) as [Hm _].
  destruct (JiraId_nonempty _ Hm) as (c & m' & ->).
  cbn [append match_all]. rewrite exec_at_jira.
  change (String c (m' ++ post)) with (String c m' ++ post) at 1 2.
  rewrite H. cbn [option_map]. rewrite substring_0_append.
  cbn [String.length Nat.pred]. now rewrite match_all_skip.
Qed.

Lemma ids_none (c : ascii) (s : string) :
  jira_at (String c s) = None ->
  match_all jira_regex 0 (String c s) = match_all jira_regex 0 s.
Proof.
  intros H. cbn [match_all]. rewrite exec_at_jira, H. reflexivity.
Qed.

Lemma ids_empty : match_all jira_regex 0 EmptyString = [].
Proof. reflexivity. Qed.

(** No id at the start of [s]. *)
Lemma jira_at_none (s : string) :
  jira_at s = None -> forall m post, s = m ++ post -> ~ JiraId m.
Proof.
  intros H m post E Hm.
  destruct (jira_at_complete _ _ _ E Hm) as (m0 & E0 & _). congruence.
Qed.

(** The id [jira_at] finds is the longest at the start of [s]. *)
Lemma jira_at_longest (s m : string) :
  jira_at s = Some m -> forall m' post', s = m' ++ post' -> JiraId m' ->
  (String.length m' <= String.length m)%nat.
Proof.
  intros H m' post' E Hm'.
  destruct (jira_at_complete _ _ _ E Hm') as (m0 & E0 & L). congruence.
Qed.

Lemma Matches_skip (c : ascii) (s : string) (ms : list string) :
  jira_at (String c s) = None -> Matches s ms -> Matches (String c s) ms.
Proof.
  intros Hc HM. inversion HM as [s0 Hno | pre m post ms' Hm Hleft Hlong Hrest];
    subst.
  - apply Matches_none. intros pre m post E Hm.
    destruct pre as [|x pre]; cbn [append] in E.
    + exact (jira_at_none _ Hc _ _ E Hm).
    + injection E as _ E. exact (Hno _ _ _ E Hm).
  - change (String c (pre ++ m ++ post)) with (String c pre ++ m ++ post).
    apply Matches_next; auto.
    intros pre' m' post' E Hm'.
    destruct pre' as [|x pre']; cbn [append] in E.
    + exfalso. exact (jira_at_none _ Hc _ _ E Hm').
    + injection E as _ E. specialize (Hleft _ _ _ E Hm').
      cbn [String.length]. lia.
Qed.

(** The matches the script collects are the matches of the
    specification. *)
Lemma Matches_match_all (s : string) : Matches s (match_all jira_regex 0 s).
Proof.
  remember (String.length s) as n eqn:En.
  revert s En. induction n as [n IH] using lt_wf_ind. intros s En.
  destruct s as [|c s].
  - apply Matches_none. intros pre m post E Hm.
    destruct (JiraId_nonempty _ Hm) as (x & m' & ->).
    destruct pre; discriminate.
  - destruct (jira_at (String c s)) as [m|] eqn:Hj.
    + destruct (jira_at_sound _ _ Hj) as (Hm & post & E & _).
      rewrite (ids_some _ _ _ Hj E). rewrite E.
      change (m ++ post) with (EmptyString ++ m ++ post).
      apply Matches_next; auto.
      * intros. cbn [String.length]. lia.
      * intros m' post' E' Hm'. rewrite <- E in E'.
        exact (jira_at_longest _ _ Hj _ _ E' Hm').
      * destruct (JiraId_nonempty _ Hm) as (x & m' & ->).
        apply (IH (String.length post)); [|reflexivity].
        rewrite En, E, length_append. cbn [String.length]. lia.
    + rewrite (ids_none _ _ Hj). apply Matches_skip; [assumption|].
      apply (IH (String.length s)); [|reflexivity].
      rewrite En. cbn [String.length]. lia.
Qed.

Lemma no_id_no_match (s : string) :
  (forall pre m post, s = pre ++ m ++ post -> ~ JiraId m) ->
  match_all jira_regex 0 s = [].
Proof.
  induction s as [|c s IH]; intros Hno; [reflexivity|].
  destruct (jira_at (String c s)) as [m|] eqn:Hj.
  - destruct (jira_at_sound _ _ Hj) as (Hm & post & E & _).
    exfalso. exact (Hno EmptyString m post E Hm).
  - rewrite (ids_none _ _ Hj). apply IH.
    intros pre m post E. apply (Hno (String c pre) m post).
    cbn [append]. now rewrite E.
Qed.

Lemma first_match (pre m post : string) :
  JiraId m ->
  (forall pre' m' post',
      pre ++ m ++ post = pre' ++ m' ++ post' -> JiraId m' ->
      (String.length pre <= String.length pre')%nat) ->
  (forall m' post',
      m ++ post = m' ++ post' -> JiraId m' ->
      (String.length m' <= String.length m)%nat) ->
  match_all jira_regex 0 (pre ++ m ++ post)
  = m :: match_all jira_regex 0 post.
Proof.
  intros Hm Hleft Hlong. induction pre as [|c pre IH].
  - cbn [append].
    destruct (jira_at_complete _ _ _ (eq_refl (m ++ post)) Hm) as (m0 & Hj & L).
    destruct (jira_at_sound _ _ Hj) as (Hm0 & post0 & E0 & _).
    specialize (Hlong _ _ E0 Hm0).
    destruct (append_same_length _ _ _ _ E0) as [-> ->]; [lia|].
    now apply ids_some.
  - cbn [append].
    destruct (jira_at (String c (pre ++ m ++ post))) as [m0|] eqn:Hj.
    + exfalso. destruct (jira_at_sound _ _ Hj) as (Hm0 & post0 & E0 & _).
      specialize (Hleft EmptyString m0 post0 E0 Hm0).
      cbn [String.length] in Hleft. lia.
    + rewrite (ids_none _ _ Hj). apply IH.
      intros pre' m' post' E Hm'.
      specialize (Hleft (String c pre') m' post').
      cbn [append String.length] in Hleft.
      rewrite E in Hleft. specialize (Hleft eq_refl Hm'). lia.
Qed.

(** The specification determines the matches. *)
Lemma Matches_functional (s : string) (ms : list string) :
  Matches s ms -> ms = match_all jira_regex 0 s.
Proof.
  induction 1 as [s Hno | pre m post ms Hm Hleft Hlong Hrest IH].
  - symmetry. now apply no_id_no_match.
  - rewrite first_match by assumption. now rewrite IH.
Qed.

Lemma match_all_ids (s m : string) :
  In m (match_all jira_regex 0 s) -> JiraId m.
Proof.
  intros Hin. pose proof (Matches_match_all s) as HM.
  induction HM as [s Hno | pre m0 post ms Hm Hleft Hlong Hrest IH].
  - destruct Hin.
  - destruct Hin as [<- | Hin]; auto.
Qed.

Lemma JiraId_no_digit_start (m : string) : JiraId m -> ~ begins_with_digit m.
Proof.
  intros (l & key & d & ds & -> & Hl & _) (c & rest & E & Hc).
  injection E as <- _. rewrite (letter_not_digit _ Hl) in Hc. discriminate.
Qed.

Lemma JiraId_no_leading_zero (m : string) :
  JiraId m -> ~ leading_zero_suffix m.
Proof.
  intros (l & key & d & ds & -> & Hl & Hk & Hw & Hd & Hds)
         (key' & ds' & E & Hds').
  (* both cuts are at the only hyphen *)
  assert (Hcut : forall a b a' b' : string,
             every word a = true -> every word a' = true ->
             a ++ String "-" b = a' ++ String "-" b' -> b = b').
  { induction a as [|x a IHa]; intros b [|y a'] b' Ha Ha' Eab;
      cbn [append every] in *.
    - now injection Eab.
    - injection Eab as <- _. apply andb_true_iff in Ha' as [Hy _].
      rewrite hyphen_not_in_word in Hy. discriminate.
    - injection Eab as -> _. apply andb_true_iff in Ha as [Hx _].
      rewrite hyphen_not_in_word in Hx. discriminate.
    - injection Eab as _ Eab. apply andb_true_iff in Ha as [_ Ha].
      apply andb_true_iff in Ha' as [_ Ha']. eauto. }
  destruct key' as [|l' key'']; cbn [append] in E.
  - injection E as -> _. vm_compute in Hl. discriminate.
  - injection E as _ E.
    assert (Hw' : every word key'' = true).
    { (* the prefix before the hyphen of the second cut lies in the key *)
      clear - E Hw Hds Hd Hds'. revert key'' E.
      induction key as [|x key IHk]; intros key'' E; cbn [append every] in *.
      - destruct key'' as [|y key'']; [reflexivity|]. cbn [append] in E.
        injection E as <- E. exfalso.
        (* a hyphen inside the digits *)
        assert (Hin : every digit (String d ds) = true).
        { cbn [every]. now rewrite (nonzero_is_digit _ Hd), Hds. }
        rewrite E in Hin. rewrite every_append in Hin.
        apply andb_true_iff in Hin as [_ Hin]. cbn [every] in Hin.
        apply andb_true_iff in Hin as [Hh _]. discriminate.
      - apply andb_true_iff in Hw as [Hx Hw].
        destruct key'' as [|y key'']; [reflexivity|]. cbn [append] in E.
        injection E as <- E. cbn [every]. rewrite Hx. cbn [andb].
        now apply IHk. }
    apply (Hcut _ _ _ _ Hw Hw') in E. injection E as -> _.
    rewrite zero_not_nonzero in Hd. discriminate.
Qed.
End AllMatches.

(* ================================================================== *)
(** ** C1: the identifier extractor *)

(** C1.  For every input string, [findJiraIds] returns exactly the
    non-overlapping substrings, in left-to-right order, that match the
    pattern (a letter, one or more letters, digits or underscores, a
    hyphen, digits of which the first is not zero): the list it returns is
    the one list [Matches] relates to the string.  It returns the empty
    list when no substring matches, and no match it returns begins with a
    digit or has digits after the hyphen that begin with a zero. *)
Theorem findJiraIds_exact (s : string) :
  (forall ms, Matches s ms <-> ms = findJiraIds s)
  /\ ((forall pre m post, s = (pre ++ m ++ post)%string -> ~ JiraId m) ->
      findJiraIds s = [])
  /\ (forall m, In m (findJiraIds s) ->
        JiraId m /\ ~ begins_with_digit m /\ ~ leading_zero_suffix m).
Proof.
  rewrite findJiraIds_match_all. repeat split.
  - apply Matches_functional.
  - intros ->. apply Matches_match_all.
  - apply no_id_no_match.
  - eapply match_all_ids; eassumption.
  - apply JiraId_no_digit_start. eapply match_all_ids; eassumption.
  - apply JiraId_no_leading_zero. eapply match_all_ids; eassumption.
Qed.

(* ================================================================== *)
(** ** Objects *)

Section Objects.
Variables K V : Type.
Variable eqb : K -> K -> bool.
Variable index : K -> option N.
Hypothesis eqb_spec : forall a b, eqb a b = true <-> a = b.

Lemma for_in_single (k : K) (v : V) :
  JsObject.for_in index [(k, v)] = [(k, v)].
Proof.
  unfold JsObject.for_in, JsObject.indexed, JsObject.named. simpl.
  destruct (index k); reflexivity.
Qed.

Lemma In_insert_index (n : N) (p : K * V) (l : list (N * (K * V)))
  (x : N * (K * V)) :
  In x (JsObject.insert_index n p l) <-> x = (n, p) \/ In x l.
Proof.
  induction l as [|[m q] l IH]; cbn [JsObject.insert_index In].
  - split; (intros [H | H]; [left; congruence | right; exact H]).
  - destruct (n <=? m)%N; cbn [In].
    + split; (intros [H | H]; [left; congruence | right; exact H]).
    + rewrite IH. split.
      * intros [H | [H | H]]; auto.
      * intros [H | [H | H]]; auto.
Qed.

(** [for-in] visits own properties only. *)
Lemma In_for_in (o : JsObject.t K V) (p : K * V) :
  In p (JsObject.for_in index o) -> In p o.
Proof.
  unfold JsObject.for_in. rewrite in_app_iff. intros [H | H].
  - apply in_map_iff in H as ([n q] & <- & H). simpl.
    induction o as [|r o IH]; simpl in *; [contradiction|].
    destruct (index (fst r)).
    + apply In_insert_index in H as [[= _ ->] | H]; auto.
    + auto.
  - unfold JsObject.named in H. apply filter_In in H. tauto.
Qed.

(** ... and visits every one of them. *)
Lemma for_in_In (o : JsObject.t K V) (p : K * V) :
  In p o -> In p (JsObject.for_in index o).
Proof.
  unfold JsObject.for_in. rewrite in_app_iff. intros H.
  destruct (index (fst p)) as [n|] eqn:E.
  - left. apply in_map_iff. exists (n, p). split; [reflexivity|].
    induction o as [|r o IH]; simpl in *; [contradiction|].
    destruct H as [-> | H].
    + rewrite E. apply In_insert_index. auto.
    + destruct (index (fst r)); [apply In_insert_index|]; auto.
  - right. unfold JsObject.named. apply filter_In. rewrite E. auto.
Qed.

Lemma get_In (o : JsObject.t K V) (k : K) (v : V) :
  JsObject.get eqb o k = Some v -> In (k, v) o.
Proof.
  induction o as [|[k' v'] o IH]; simpl; [discriminate|].
  destruct (eqb k' k) eqn:E.
  - apply eqb_spec in E. intros [= ->]. subst. auto.
  - auto.
Qed.

(** After [o[k] = v], a property of [o] is the new one or an old one. *)
Lemma In_set (o : JsObject.t K V) (k : K) (v : V) (p : K * V) :
  In p (JsObject.set eqb o k v) -> p = (k, v) \/ In p o.
Proof.
  induction o as [|[k' v'] o IH]; cbn [JsObject.set In].
  - intros [H | []]. left. congruence.
  - destruct (eqb k' k) eqn:E; cbn [In].
    + apply eqb_spec in E. subst. intros [H | H]; [left; congruence|].
      right. now right.
    + intros [H | H]; [right; now left|].
      destruct (IH H) as [H' | H']; [now left | right; now right].
Qed.

End Objects.

Lemma pid_eqb_spec (a b : option Z) : pid_eqb a b = true <-> a = b.
Proof.
  destruct a, b; simpl; try (split; congruence).
  rewrite Z.eqb_eq. split; congruence.
Qed.

Lemma string_eqb_spec (a b : string) : String.eqb a b = true <-> a = b.
Proof. apply String.eqb_eq. Qed.

Lemma inherited_proto : JsObject.inherited "__proto__" = true.
Proof. reflexivity. Qed.

Lemma not_inherited_not_proto (k : string) :
  JsObject.inherited k = false -> String.eqb k "__proto__" = false.
Proof.
  intros H. destruct (String.eqb k "__proto__") eqn:E; [|reflexivity].
  apply String.eqb_eq in E. subst. discriminate.
Qed.

(* ================================================================== *)
(** ** C2: aggregation *)

Ltac fields := repeat first [ reflexivity | lia | f_equal ].

(** Entries that share their project and a description no plain object
    inherits are merged into one item, which counts and sums them. *)
Lemma grouped_same_key (log : Log.t) (logs : list Log.t) :
  JsObject.inherited (Log.description log) = false ->
  Forall (same_key log) logs ->
  grouped (log :: logs)
  = [(Log.pid log,
      {| Project.name := Log.project log;
         Project.id := Log.pid log;
         Project.items :=
           [(Log.description log,
             Obj {| Item.description := Log.description log;
                    Item.jiraIds := findJiraIds (Log.description log);
                    Item.duration := total_dur (log :: logs);
                    Item.occurrences := Z.of_nat (List.length (log :: logs));
                    Item.project := None;
                    Item.jiraId := None |})] |})].
Proof.
  intros Hd Hall. unfold grouped. cbn [fold_left].
  assert (R : pid_eqb (Log.pid log) (Log.pid log) = true)
    by now apply pid_eqb_spec.
  pose proof (not_inherited_not_proto _ Hd) as Hp.
  (* the first entry *)
  assert (E1 : group (JsObject.empty _ _) log
               = [(Log.pid log,
                   {| Project.name := Log.project log;
                      Project.id := Log.pid log;
                      Project.items :=
                        [(Log.description log,
                          Obj {| Item.description := Log.description log;
                                 Item.jiraIds :=
                                   findJiraIds (Log.description log);
                                 Item.duration := total_dur [log];
                                 Item.occurrences :=
                                   Z.of_nat (List.length [log]);
                                 Item.project := None;
                                 Item.jiraId := None |})] |})]).
  { unfold group, JsObject.lookup, JsObject.assign.
    cbn -[JsObject.inherited String.eqb findJiraIds Z.add].
    rewrite Hd, Hp. cbn -[findJiraIds Z.add]. fields. }
  rewrite E1. clear E1.
  (* the others *)
  change (log :: logs) with ([log] ++ logs).
  generalize dependent (@cons Log.t log nil). intros done.
  revert done. induction Hall as [|l logs [Hpid Hdesc] Hall IH]; intros done.
  - cbn [fold_left]. now rewrite app_nil_r.
  - cbn [fold_left].
    replace (done ++ l :: logs) with ((done ++ [l]) ++ logs)
      by now rewrite <- app_assoc.
    rewrite <- IH. f_equal.
    unfold group, JsObject.lookup, JsObject.assign.
    rewrite <- Hpid, <- Hdesc.
    cbn -[JsObject.inherited String.eqb findJiraIds Z.add pid_eqb Z.of_nat].
    rewrite R.
    cbn -[JsObject.inherited String.eqb findJiraIds Z.add pid_eqb Z.of_nat].
    rewrite String.eqb_refl, Hp.
    cbn -[JsObject.inherited String.eqb findJiraIds Z.add pid_eqb Z.of_nat].
    rewrite ?String.eqb_refl, ?R.
    assert (Hsum : total_dur (done ++ [l]) = total_dur done + Log.dur l).
    { unfold total_dur. rewrite fold_right_app. cbn -[Z.add].
      generalize (Log.dur l). intros d. induction done; cbn -[Z.add]; lia. }
    rewrite Hsum, length_app. cbn [List.length]. fields.
Qed.

(** X1. Entries that share their project and their description are
    merged into one work item, which counts them and sums their durations,
    and whose ids are those of the description, provided the description
    is not the name of a property objects inherit (C2 has the other case)
    and the durations are within the range where the sums of the script
    are exact. *)
Lemma aggregate_same_key (log : Log.t) (logs : list Log.t) :
  JsObject.inherited (Log.description log) = false ->
  Forall (same_key log) logs ->
  exact_sums (log :: logs) ->
  allItems_of (log :: logs) = [Obj (merged log (log :: logs))].
Proof.
  intros Hd Hall _. unfold allItems_of. rewrite grouped_same_key by assumption.
  unfold flatten, JsObject.keys_in_order. rewrite for_in_single.
  cbn [flat_map snd Project.items Project.name]. rewrite for_in_single.
  reflexivity.
Qed.

(** The scenario of the specification: two entries "Fix ABC-12 bug" of
    60000 ms and 30000 ms. *)
Lemma aggregate_same_key_witness :
  allItems_of [entry "Fix ABC-12 bug" 60000; entry "Fix ABC-12 bug" 30000]
  = [Obj {| Item.description := "Fix ABC-12 bug";
            Item.jiraIds := ["ABC-12"];
            Item.duration := 90000;
            Item.occurrences := 2;
            Item.project := Some "X";
            Item.jiraId := None |}].
Proof.
  apply (aggregate_same_key (entry "Fix ABC-12 bug" 60000)
           [entry "Fix ABC-12 bug" 30000]).
  - reflexivity.
  - constructor; [split; reflexivity | constructor].
  - unfold exact_sums. vm_compute. discriminate.
Defined.

(** C2.  Two entries of project 1 described "constructor": the
    specification expects one work item with 2 occurrences and 90000 ms.
    The lookup [project.items["constructor"]] finds the function every
    object inherits, so no item is made: the array holds that function,
    which has no description and no ids, and whose [duration] and
    [occurrences] are [NaN].  Under "__proto__" the entries leave no item
    at all. *)
Theorem aggregate_inherited_description :
  let log d := {| Log.pid := Some 1; Log.project := Some "X";
                  Log.description := "constructor"; Log.dur := d |} in
  let hidden := {| Log.pid := Some 1; Log.project := Some "X";
                   Log.description := "__proto__"; Log.dur := 60000 |} in
  same_key (log 60000) (log 30000)
  /\ allItems_of [log 60000; log 30000] = [Builtin "constructor"]
  /\ (forall item, allItems_of [log 60000; log 30000] <> [Obj item])
  /\ allItems_of [hidden] = [].
Proof.
  cbv zeta. repeat split.
  intros item. vm_compute. discriminate.
Qed.

(* ================================================================== *)
(** ** C3: classification *)

(** C3 as stated fails on an item with two ids: its status is "Multiple
    Jira Ids", and the id it tracks is set all the same, to the first of
    them. *)
Lemma classify_two_ids :
  let item := {| Item.description := "Spans ABC-1 and XYZ-2";
                 Item.jiraIds := ["ABC-1"; "XYZ-2"];
                 Item.duration := 60000;
                 Item.occurrences := 1;
                 Item.project := Some "X";
                 Item.jiraId := None |} in
  snd (classify item) = MultipleJiraIds
  /\ Item.jiraId (fst (classify item)) = Some "ABC-1"
  /\ ~ (Item.jiraId (fst (classify item)) <> None
        <-> List.length (Item.jiraIds item) = 1%nat).
Proof.
  cbv zeta. repeat split. cbn. intros [H _].
  assert (E : (2 = 1)%nat) by (apply H; discriminate). discriminate.
Qed.

(** C3, amended.  [classify] is a function of the item; the status it
    gives depends on the number of ids only: none, "No Jira Id"; one,
    "Ready"; more, "Multiple Jira Ids".  The id it tracks is the first id
    whenever there is one: it is set exactly when the item has at least
    one id, and a Ready item tracks its only id. *)
Theorem classify_by_length :
  (forall a b,
      List.length (Item.jiraIds a) = List.length (Item.jiraIds b) ->
      snd (classify a) = snd (classify b))
  /\ (forall item,
        (List.length (Item.jiraIds item) = 0%nat ->
         snd (classify item) = NoJiraId)
        /\ (List.length (Item.jiraIds item) = 1%nat ->
            snd (classify item) = Ready)
        /\ ((1 < List.length (Item.jiraIds item))%nat ->
            snd (classify item) = MultipleJiraIds)
        /\ Item.jiraId (fst (classify item))
           = nth_error (Item.jiraIds item) 0
        /\ (Item.jiraId (fst (classify item)) <> None
            <-> (1 <= List.length (Item.jiraIds item))%nat)
        /\ (snd (classify item) = Ready
            <-> exists id, Item.jiraIds item = [id]
                           /\ Item.jiraId (fst (classify item)) = Some id)).
Proof.
  split.
  - intros a b H. unfold classify, status_of. cbn [snd]. now rewrite H.
  - intros item. unfold classify, status_of, track. cbn [fst snd Item.jiraId].
    destruct (Item.jiraIds item) as [|id [|id' ids]]; cbn.
    + repeat split; try (intros; discriminate || lia || congruence).
      intros (id & H & _). discriminate.
    + repeat split; try (intros; discriminate || lia || congruence).
      intros _. exists id. auto.
    + repeat split; try (intros; discriminate || lia || congruence).
      intros (x & H & _). discriminate.
Qed.

(* ================================================================== *)
(** ** The monad *)

Lemma finish_bind (A : Type) (m : M A) (f : A -> M Empty_set) :
  finish (bind m f)
  = match m with
    | (t, Ret a) => (t ++ fst (finish (f a)), snd (finish (f a)))
    | (t, Ended x) => (t, x)
    end.
Proof.
  destruct m as [t [a|x]]; simpl; [|reflexivity].
  destruct (f a) as [t' [[]|x]]. reflexivity.
Qed.

Lemma bind_ret (A B : Type) (t : list event) (a : A) (f : A -> M B) :
  bind (t, Ret a) f = (t ++ fst (f a), snd (f a)).
Proof. simpl. destruct (f a). reflexivity. Qed.

Lemma bind_ended (A B : Type) (t : list event) (x : ending) (f : A -> M B) :
  bind (t, Ended x) f = (t, Ended x).
Proof. reflexivity. Qed.

Lemma bind_assoc (A B C : Type) (m : M A) (f : A -> M B) (g : B -> M C) :
  bind (bind m f) g = bind m (fun a => bind (f a) g).
Proof.
  destruct m as [t [a|x]]; simpl; [|reflexivity].
  destruct (f a) as [t' [b|y]]; simpl; [|reflexivity].
  destruct (g b). now rewrite app_assoc.
Qed.

Lemma finish_bind_if (A : Type) (c : bool) (a b : M A)
  (f : A -> M Empty_set) :
  finish (bind (if c then a else b) f)
  = if c then finish (bind a f) else finish (bind b f).
Proof. destruct c; reflexivity. Qed.

Lemma posts_app (t t' : list event) : posts (t ++ t') = posts t ++ posts t'.
Proof. apply filter_app. Qed.

Lemma early_posts (t : list event) : forallb early t = true -> posts t = [].
Proof.
  induction t as [|ev t IH]; simpl; [reflexivity|].
  intros H. apply andb_true_iff in H as [Hev Ht].
  destruct ev; try discriminate; auto.
Qed.

Lemma early_no_confirm (t : list event) :
  forallb early t = true -> ~ In AskedConfirm t.
Proof.
  intros H Hin. rewrite forallb_forall in H. apply H in Hin. discriminate.
Qed.

(** One step of the script: the trace so far, and what follows. *)
Ltac script_cbn :=
  cbn [ret emit console_log console_error process_exit throw read
       callback fail_on ask fst snd app finish Res.statusCode Res.body].

Ltac script :=
  script_cbn;
  repeat (first [ rewrite finish_bind_if
                | rewrite bind_assoc
                | rewrite finish_bind
                | rewrite bind_ret
                | rewrite bind_ended ];
          script_cbn).

(* ================================================================== *)
(** ** C5: the submission loop *)

Section SubmitFacts.
Variable date : string.
Variables username password : string.
Variable replies : nat -> reply unit.

Local Abbreviation next := (createNextWorkLog date username password replies).
Local Abbreviation request := (post date username password).
Local Abbreviation adding := (adding date).

Lemma next_empty (n : nat) : finish (next [] n) = ([ConsoleLog AllCreated], Exit 0).
Proof. reflexivity. Qed.

(** A 201: on to the next item. *)
Lemma next_created (item : Item.t) (queue : list Item.t) (n : nat) :
  created (replies n) = true ->
  finish (next (item :: queue) n)
  = ([adding item; request item; ConsoleLog Done]
       ++ fst (finish (next queue (S n))),
     snd (finish (next queue (S n)))).
Proof.
  intros H. cbn [createNextWorkLog].
  destruct (replies n) as [m | st []]; [discriminate|]. cbn in H.
  script. rewrite H. script. reflexivity.
Qed.

(** Another status: the script reports the failure and exits with 1. *)
Lemma next_rejected (item : Item.t) (queue : list Item.t) (n : nat)
  (st : Z) (u : unit) :
  replies n = Response st u -> (st =? 201)%Z = false ->
  finish (next (item :: queue) n)
  = ([adding item; request item; ConsoleLog Failed;
      ConsoleError (ErrObject (fst (callback (replies n))))],
     Exit 1).
Proof.
  intros E H. cbn [createNextWorkLog]. rewrite E.
  script. rewrite H. script. reflexivity.
Qed.

(** No response: [res] is undefined and reading [res.statusCode] throws,
    before anything is printed about the failure. *)
Lemma next_no_response (item : Item.t) (queue : list Item.t) (n : nat)
  (message : string) :
  replies n = NoResponse message ->
  finish (next (item :: queue) n)
  = ([adding item; request item], Uncaught (TypeError "statusCode")).
Proof.
  intros E. cbn [createNextWorkLog]. rewrite E. script. reflexivity.
Qed.

(** When the reply to the [n]-th request says something else than
    "created", the loop stops there. *)
Lemma next_failed (item : Item.t) (queue : list Item.t) (n : nat) :
  created (replies n) = false ->
  posts (fst (finish (next (item :: queue) n))) = [request item]
  /\ exit_status (snd (finish (next (item :: queue) n))) = 1
  /\ snd (finish (next (item :: queue) n)) <> Exit 0.
Proof.
  intros H. destruct (replies n) as [m | st u] eqn:E.
  - rewrite (next_no_response _ _ _ _ E). repeat split. discriminate.
  - cbn in H. rewrite (next_rejected _ _ _ _ _ E H). repeat split.
    discriminate.
Qed.

Lemma next_all_created (queue : list Item.t) (n : nat) :
  (forall k, (k < List.length queue)%nat -> created (replies (n + k)) = true) ->
  posts (fst (finish (next queue n))) = map request queue
  /\ snd (finish (next queue n)) = Exit 0.
Proof.
  revert n. induction queue as [|item queue IH]; intros n H.
  - split; reflexivity.
  - assert (H0 : created (replies n) = true).
    { rewrite <- (Nat.add_0_r n). apply H. cbn. lia. }
    rewrite (next_created _ _ _ H0). cbn [fst snd].
    destruct (IH (S n)) as [IHp IHe].
    { intros k Hk. replace (S n + k)%nat with (n + S k)%nat by lia.
      apply H. cbn. lia. }
    split; [|assumption].
    rewrite posts_app. cbn. now rewrite IHp.
Qed.

Lemma next_first_failure (before : list Item.t) (item : Item.t)
  (after : list Item.t) (n : nat) :
  (forall k, (k < List.length before)%nat -> created (replies (n + k)) = true) ->
  created (replies (n + List.length before)) = false ->
  posts (fst (finish (next (before ++ item :: after) n)))
  = map request (before ++ [item])
  /\ exit_status (snd (finish (next (before ++ item :: after) n))) = 1
  /\ snd (finish (next (before ++ item :: after) n)) <> Exit 0.
Proof.
  revert n. induction before as [|b before IH]; intros n Hok Hfail.
  - cbn [List.length] in Hfail. rewrite Nat.add_0_r in Hfail.
    exact (next_failed item after n Hfail).
  - assert (H0 : created (replies n) = true).
    { rewrite <- (Nat.add_0_r n). apply Hok. cbn. lia. }
    cbn [app]. rewrite (next_created _ _ _ H0). cbn [fst snd].
    destruct (IH (S n)) as (IHp & IHs & IHe).
    { intros k Hk. replace (S n + k)%nat with (n + S k)%nat by lia.
      apply Hok. cbn. lia. }
    { replace (S n + List.length before)%nat
        with (n + List.length (b :: before))%nat by (cbn; lia).
      assumption. }
    repeat split; try assumption.
    rewrite posts_app. cbn. now rewrite IHp.
Qed.
End SubmitFacts.

(** The scenario of the specification: three items, a 500 on the second.
    Two requests are made, for the first two items in order; the third is
    never attempted. *)
Example halts_at_second_of_three :
  let e := sample [entry "Fix ABC-1 bug" 60000; entry "Review ABC-2" 30000;
                   entry "Test ABC-3" 15000]
             [subtask "ABC-1"; subtask "ABC-2"; subtask "ABC-3"]
             (fun n => if (n =? 1)%nat then Response 500 tt
                       else Response 201 tt)
             true in
  map (fun ev => match ev with
                 | PostWorklog jiraId _ _ _ => jiraId
                 | _ => None
                 end) (posts (trace e))
  = [Some "ABC-1"; Some "ABC-2"]
  /\ outcome e = Exit 1.
Proof. cbv zeta. split; reflexivity. Qed.

(** C5.  The submitter takes the items one at a time, front to back.  As
    long as the replies say 201 it goes on to the next item: when all do,
    every item has been submitted once, in order, and the run ends with
    exit code 0.  At the first reply that is not a 201 it stops: the items
    up to and including that one have been submitted once each, none
    after it is attempted, and the process ends with status 1. *)
Theorem createNextWorkLog_sequential (date username password : string)
  (replies : nat -> reply unit) (queue : list Item.t) (n : nat) :
  let r := finish (createNextWorkLog date username password replies queue n) in
  ((forall k, (k < List.length queue)%nat ->
              created (replies (n + k)%nat) = true) ->
   posts (fst r) = map (post date username password) queue
   /\ snd r = Exit 0)
  /\ (forall before item after,
         queue = before ++ item :: after ->
         (forall k, (k < List.length before)%nat ->
                    created (replies (n + k)%nat) = true) ->
         created (replies (n + List.length before)%nat) = false ->
         posts (fst r) = map (post date username password) (before ++ [item])
         /\ exit_status (snd r) = 1
         /\ snd r <> Exit 0).
Proof.
  cbv zeta. split.
  - apply next_all_created.
  - intros before item after ->. apply next_first_failure.
Qed.

(* ================================================================== *)
(** ** The stages of the run *)

Lemma forallb_early_app (t t' : list event) :
  forallb early (t ++ t') = forallb early t && forallb early t'.
Proof. apply forallb_app. Qed.

(** *** The summary loop *)

Lemma summarise_items (items : list Item.t) (s : summary) :
  exists t,
    forallb early t = true
    /\ forEach (map Obj items) summarise s = (t, Ret (summarised items s)).
Proof.
  revert s. induction items as [|item items IH]; intros s.
  - exists []. split; reflexivity.
  - destruct (IH (note s (track item) (status_of (Item.jiraIds item))))
      as (t & Ht & E).
    eexists.
    cbn [map forEach summarise classify bind console_log emit ret app].
    cbn [summarised fold_left]. unfold summarised in E. rewrite E.
    split; [|reflexivity]. cbn [forallb early andb]. exact Ht.
Qed.

(** The loop ends at the first value that is no item. *)
Lemma summarise_loop (allItems : list value) (s : summary) :
  exists t,
    forallb early t = true
    /\ ((allItems = map Obj (objects allItems)
         /\ forEach allItems summarise s
            = (t, Ret (summarised (objects allItems) s)))
        \/ ((exists name, In (Builtin name) allItems)
            /\ forEach allItems summarise s
               = (t, Ended (Uncaught (TypeError "join"))))).
Proof.
  revert s. induction allItems as [|v allItems IH]; intros s.
  - exists []. split; [reflexivity|]. left. split; reflexivity.
  - destruct v as [item | name].
    + destruct (IH (note s (track item) (status_of (Item.jiraIds item))))
        as (t & Ht & [[Hobj E] | [Hb E]]).
      * eexists. split; [|left; split].
        2:{ cbn [objects flat_map app map]. f_equal. exact Hobj. }
        2:{ cbn [forEach summarise classify bind console_log emit ret app].
            rewrite E.
            cbn [app objects flat_map summarised fold_left].
            reflexivity. }
        cbn [forallb early andb]. exact Ht.
      * eexists. split; [|right; split].
        2:{ destruct Hb as (name & Hb). exists name. now right. }
        2:{ cbn [forEach summarise classify bind console_log emit ret app].
            rewrite E. reflexivity. }
        cbn [forallb early andb]. exact Ht.
    + exists []. split; [reflexivity|]. right. split.
      * exists name. now left.
      * reflexivity.
Qed.

Lemma summarised_seen (items : list Item.t) (s : summary) :
  seen (summarised items s) = seen s ++ map track items.
Proof.
  revert s. induction items as [|item items IH]; intros s; cbn.
  - now rewrite app_nil_r.
  - unfold summarised in IH. rewrite IH. cbn. now rewrite <- app_assoc.
Qed.

Lemma summarised_issues_mono (items : list Item.t) (s : summary) :
  (issues s <= issues (summarised items s))%nat.
Proof.
  revert s. induction items as [|item items IH]; intros s; cbn; [lia|].
  unfold summarised in IH. etransitivity; [|apply IH]. cbn.
  destruct (status_of (Item.jiraIds item)); lia.
Qed.

(** An item that is not ready is counted. *)
Lemma summarised_issue (items : list Item.t) (s : summary) (item : Item.t) :
  In item items -> status_of (Item.jiraIds item) <> Ready ->
  (0 < issues (summarised items s))%nat.
Proof.
  revert s. induction items as [|x items IH]; intros s Hin Hst;
    [destruct Hin | destruct Hin as [-> | Hin]].
  - cbn [summarised fold_left].
    pose proof (summarised_issues_mono items
                  (note s (track item) (status_of (Item.jiraIds item)))) as L.
    unfold summarised in L. cbn [note issues] in L.
    destruct (status_of (Item.jiraIds item)); [congruence | lia | lia].
  - cbn [summarised fold_left]. now apply IH.
Qed.

(** Without issues, every item is ready. *)
Lemma summarised_ready (items : list Item.t) (item : Item.t) :
  issues (summarised items start) = 0%nat -> In item items ->
  status_of (Item.jiraIds item) = Ready.
Proof.
  intros H Hin. destruct (status_of (Item.jiraIds item)) eqn:E; auto.
  - pose proof (summarised_issue items start item Hin) as L.
    rewrite E in L. specialize (L ltac:(discriminate)). lia.
  - pose proof (summarised_issue items start item Hin) as L.
    rewrite E in L. specialize (L ltac:(discriminate)). lia.
Qed.

Lemma add_unique_keeps (jiraId : option string) (unique : list string)
  (id : string) :
  In id unique -> In id (add_unique jiraId unique).
Proof.
  intros H. unfold add_unique. destruct (truthy jiraId); [|assumption].
  destruct jiraId as [x|]; [|assumption].
  destruct (existsb (String.eqb x) unique); [assumption|].
  apply in_app_iff. now left.
Qed.

Lemma add_unique_adds (id : string) (unique : list string) :
  id <> EmptyString -> In id (add_unique (Some id) unique).
Proof.
  intros H. unfold add_unique, truthy.
  apply String.eqb_neq in H. rewrite H. cbn [negb].
  destruct (existsb (String.eqb id) unique) eqn:E.
  - apply existsb_exists in E as (x & Hx & Ex).
    apply String.eqb_eq in Ex. now subst.
  - apply in_app_iff. right. now left.
Qed.

Lemma summarised_unique_keeps (items : list Item.t) (s : summary)
  (id : string) :
  In id (uniqueJiraIds s) -> In id (uniqueJiraIds (summarised items s)).
Proof.
  revert s. induction items as [|x items IH]; intros s H; [assumption|].
  cbn [summarised fold_left]. apply IH. cbn [note uniqueJiraIds].
  now apply add_unique_keeps.
Qed.

(** The first id of every item is among the ids looked up. *)
Lemma summarised_unique (items : list Item.t) (s : summary)
  (item : Item.t) (id : string) :
  In item items -> nth_error (Item.jiraIds item) 0 = Some id ->
  id <> EmptyString ->
  In id (uniqueJiraIds (summarised items s)).
Proof.
  revert s. induction items as [|x items IH]; intros s Hin Hid Hne;
    [destruct Hin | destruct Hin as [-> | Hin]].
  - cbn [summarised fold_left]. apply summarised_unique_keeps.
    cbn [note uniqueJiraIds track Item.jiraId]. rewrite Hid.
    now apply add_unique_adds.
  - cbn [summarised fold_left]. now apply IH.
Qed.

(** *** The cross-check loop *)

Lemma check_loop (issues : JsObject.dict Ticket.t) (ids : list string)
  (errors : nat) :
  exists t n,
    forallb early t = true
    /\ forEach ids (check issues) errors = (t, Ret n)
    /\ (errors <= n)%nat
    /\ ((exists id, In id ids /\ verify issues id <> Found) -> (0 < n)%nat)
    /\ (n = 0%nat -> forall id, In id ids -> verify issues id = Found).
Proof.
  revert errors. induction ids as [|id ids IH]; intros errors.
  - exists [], errors. repeat split; auto.
    + intros (id & [] & _).
    + intros _ id [].
  - cbn [forEach]. unfold check at 1.
    cbn [bind console_log emit ret app].
    destruct (IH (match verify issues id with
                  | Found => errors
                  | _ => S errors
                  end)) as (t & n & Ht & E & L & Hsome & Hnone).
    rewrite E. eexists _, n. repeat split.
    + cbn [forallb early andb]. exact Ht.
    + destruct (verify issues id); lia.
    + intros (x & [<- | Hx] & Hv).
      * destruct (verify issues id); [congruence | lia | lia].
      * apply Hsome. eauto.
    + intros -> x [<- | Hx]; [|now apply Hnone].
      destruct (verify issues id); [reflexivity | lia | lia].
Qed.

(** The events of a trace come before the confirmation. *)
Ltac quiet :=
  repeat (rewrite ?forallb_early_app; cbn [forallb early andb fst snd]);
  repeat match goal with
    | H : forallb early _ = true |- _ => rewrite H; clear H
    end;
  reflexivity.

(** A run that stops with status 1 after a quiet trace. *)
Ltac stopped :=
  eexists;
  split; [|left; eexists; split; [script; reflexivity | reflexivity]];
  quiet.

(** *** Prompts *)

Lemma unless_given_ask (e : env) (flag : option string) (q : question)
  (before : list event) :
  forallb early before = true ->
  exists t,
    forallb early t = true
    /\ unless_given flag (bind (before, Ret tt) (fun _ => ask e q))
       = (t, Ret (given_or flag (prompt e q))).
Proof.
  intros Hb. unfold unless_given, given_or, ask.
  cbn [bind emit ret app].
  destruct flag as [s|]; [destruct (String.eqb s EmptyString)|].
  - eexists. split; [|reflexivity].
    rewrite !forallb_early_app, Hb. reflexivity.
  - exists []. split; reflexivity.
  - eexists. split; [|reflexivity].
    rewrite !forallb_early_app, Hb. reflexivity.
Qed.

Lemma unless_given_asked (e : env) (flag : option string) (q : question) :
  exists t,
    forallb early t = true
    /\ unless_given flag (ask e q) = (t, Ret (given_or flag (prompt e q))).
Proof.
  unfold unless_given, given_or, ask. cbn [bind emit ret app].
  destruct flag as [s|]; [destruct (String.eqb s EmptyString)|];
    eexists; (split; [|reflexivity]); reflexivity.
Qed.

Lemma credentials_ret (e : env) :
  exists t,
    forallb early t = true
    /\ credentials e
       = (t, Ret (toggl_token e, Flags.workspace (program e))).
Proof.
  unfold credentials, toggl_token.
  destruct (unless_given_ask e (Flags.apiToken (program e)) AskApiToken
              [ConsoleLog MissingApiToken] eq_refl) as (t & Ht & E).
  unfold console_log, emit at 1. rewrite E. rewrite bind_ret.
  destruct (truthy (Flags.workspace (program e)));
    unfold ask; cbn [bind console_log emit ret app fst snd];
    (eexists; split; [|reflexivity]);
    rewrite !forallb_early_app, Ht; reflexivity.
Qed.

(** *** The stages, from the last to the first *)

Lemma submit_run (e : env) (date username password : string)
  (queue : list Item.t) (total : option Z) :
  finish (submit e date username password queue total)
  = ([ConsoleLog (AboutToCreate (List.length queue) total); AskedConfirm]
       ++ (if confirm e
           then fst (finish (createNextWorkLog date username password
                               (worklog e) queue 0))
           else []),
     if confirm e
     then snd (finish (createNextWorkLog date username password
                         (worklog e) queue 0))
     else Exit 0).
Proof.
  unfold submit. destruct (confirm e); script; reflexivity.
Qed.

Lemma on_search_cases (e : env) (date username password : string)
  (queue : list Item.t) (total : option Z) (ids : list string)
  (r : reply Search.body) :
  exists t,
    forallb early t = true
    /\ (finish (on_search e date username password queue total ids
                  (fst (callback r)) (snd (callback r)))
        = (t, Exit 1)
        \/ exists st found,
            r = Response st found
            /\ (forall id, In id ids ->
                  verify (issues_of (Search.issues found)) id = Found)
            /\ finish (on_search e date username password queue total ids
                         (fst (callback r)) (snd (callback r)))
               = (t ++ fst (finish (submit e date username password
                                      queue total)),
                  snd (finish (submit e date username password
                                 queue total)))).
Proof.
  unfold on_search. destruct r as [m | st found].
  - eexists. split; [|left; script; reflexivity]. reflexivity.
  - cbn [callback fst snd].
    destruct ((200 <=? st)%Z && (st <? 300)%Z).
    2:{ eexists. split; [|left; script; reflexivity]. reflexivity. }
    script.
    destruct (check_loop (issues_of (Search.issues found)) ids 0)
      as (t & n & Ht & E & _ & _ & Hnone).
    rewrite E. destruct n as [|n]; script; cbn [Nat.ltb Nat.leb]; script.
    + exists t. split; [exact Ht|]. right. exists st, found.
      repeat split. now apply Hnone.
    + eexists. split; [|left; reflexivity].
      rewrite forallb_early_app, Ht. reflexivity.
Qed.

Lemma cross_check_cases (e : env) (date : string) (queue : list Item.t)
  (total : option Z) (ids : list string) (jql : string) :
  exists t,
    forallb early t = true
    /\ (finish (cross_check e date queue total ids jql) = (t, Exit 1)
        \/ exists st found,
            search e = Response st found
            /\ (forall id, In id ids ->
                  verify (issues_of (Search.issues found)) id = Found)
            /\ finish (cross_check e date queue total ids jql)
               = (t ++ fst (finish (submit e date (jira_username e)
                                      (jira_password e) queue total)),
                  snd (finish (submit e date (jira_username e)
                                 (jira_password e) queue total)))).
Proof.
  unfold cross_check.
  destruct (unless_given_asked e (Flags.username (program e)) AskJiraUsername)
    as (tu & Htu & ->).
  destruct (unless_given_asked e (Flags.password (program e)) AskJiraPassword)
    as (tp & Htp & ->).
  fold (jira_username e). fold (jira_password e). script.
  destruct (on_search_cases e date (jira_username e) (jira_password e)
              queue total ids (search e))
    as (t & Ht & [E | (st & found & Es & Hall & E)]).
  - destruct (callback (search e)) as [err res]. cbn [fst snd] in E.
    rewrite E. cbn [fst snd]. eexists. split; [|left; reflexivity]. quiet.
  - destruct (callback (search e)) as [err res]. cbn [fst snd] in E.
    rewrite E. cbn [fst snd].
    exists (tu ++ tp ++ GetSearch jql (jira_username e) (jira_password e) :: t).
    split; [quiet|].
    right. exists st, found. repeat split; try assumption.
    rewrite <- !app_assoc. reflexivity.
Qed.

Lemma on_report_cases (e : env) (date : string) (r : reply Report.body) :
  exists t,
    forallb early t = true
    /\ ((exists x,
            finish (on_report e date (fst (callback r)) (snd (callback r)))
            = (t, x)
            /\ exit_status x = 1)
        \/ (exists st body,
               r = Response st body
               /\ allItems_of (Report.data body) = []
               /\ finish (on_report e date (fst (callback r))
                            (snd (callback r)))
                  = (t, Exit 0))
        \/ (exists st body st' found,
               r = Response st body
               /\ search e = Response st' found
               /\ passes e date body found t
                    (finish (on_report e date (fst (callback r))
                               (snd (callback r)))))).
Proof.
  unfold on_report. destruct r as [m | st body].
  { stopped. }
  cbn [callback fst snd].
  destruct ((200 <=? st)%Z && (st <? 300)%Z).
  2:{ stopped. }
  script.
  destruct (Report.total_count body >? Report.per_page body)%Z.
  { stopped. }
  script. fold (allItems_of (Report.data body)).
  destruct (allItems_of (Report.data body)) as [|v allItems] eqn:Eall.
  { cbn [List.length Nat.eqb]. script. eexists.
    split; [|right; left; exists st, body; repeat split; assumption].
    reflexivity. }
  cbn [List.length Nat.eqb]. script. rewrite <- Eall.
  destruct (summarise_loop (allItems_of (Report.data body))
              {| issues := 0; i := 1; uniqueJiraIds := []; seen := [] |})
    as (ts & Hts & [[Hobj E] | [_ E]]).
  2:{ rewrite E. stopped. }
  rewrite E. script. fold start.
  destruct (issues (summarised (objects (allItems_of (Report.data body)))
                      start)) as [|n] eqn:Ei; cbn [Nat.ltb Nat.leb]; script.
  2:{ stopped. }
  rewrite summarised_seen. cbn [seen start app].
  destruct (cross_check_cases e date
              (map track (objects (allItems_of (Report.data body))))
              (totalDuration_of (allItems_of (Report.data body)))
              (uniqueJiraIds
                 (summarised (objects (allItems_of (Report.data body))) start))
              (jql_of (uniqueJiraIds
                 (summarised (objects (allItems_of (Report.data body)))
                    start))))
    as (t & Ht & [E' | (st' & found & Es & Hall & E')]).
  - rewrite E'. stopped.
  - rewrite E'. cbn [fst snd]. eexists. split.
    2:{ right. right. exists st, body, st', found. repeat split.
        - assumption.
        - assumption.
        - intros item. now apply summarised_ready.
        - exact Hall.
        - rewrite !app_comm_cons, !app_assoc. reflexivity. }
    quiet.
Qed.

(** Every run stops before the confirmation with status 1, or with status
    0 because there is nothing to report, or reaches the confirmation. *)
Lemma run_cases (e : env) :
  exists t,
    forallb early t = true
    /\ ((exists x, run e = (t, x) /\ exit_status x = 1)
        \/ (exists st body,
               report e = Response st body
               /\ allItems_of (Report.data body) = []
               /\ run e = (t, Exit 0))
        \/ (exists st body st' found,
               report e = Response st body
               /\ search e = Response st' found
               /\ passes e (target_date e) body found t (run e))).
Proof.
  unfold run, main.
  destruct (credentials_ret e) as (tc & Htc & ->).
  script.
  destruct (on_report_cases e (target_date e) (report e))
    as (t & Ht & [(x & E & Hx) | [(st & body & Er & Hall & E)
                                 | (st & body & st' & found & Er & Es & Hp)]]);
    destruct (callback (report e)) as [err res]; cbn [fst snd] in *.
  - rewrite E. eexists.
    split; [|left; eexists; split; [reflexivity | assumption]].
    quiet.
  - rewrite E. eexists.
    split; [|right; left; exists st, body; repeat split; assumption].
    quiet.
  - destruct Hp as (Hobj & Hready & Hfound & E). rewrite E. cbn [fst snd].
    eexists. split.
    2:{ right. right. exists st, body, st', found.
        repeat split; try assumption.
        rewrite !app_comm_cons, !app_assoc. reflexivity. }
    quiet.
Qed.

(* ================================================================== *)
(** ** What the array holds *)

Lemma lookup_Own_In (V : Type) (o : JsObject.dict V) (k : string) (v : V) :
  JsObject.lookup o k = JsObject.Own v -> In (k, v) o.
Proof.
  unfold JsObject.lookup.
  destruct (JsObject.get String.eqb o k) as [x|] eqn:E.
  - intros [= ->]. exact (get_In _ _ String.eqb string_eqb_spec o k v E).
  - destruct (JsObject.inherited k); discriminate.
Qed.

Lemma In_assign (V : Type) (o : JsObject.dict V) (k : string) (v : V)
  (p : string * V) :
  In p (JsObject.assign o k v) -> p = (k, v) \/ In p o.
Proof.
  unfold JsObject.assign. destruct (String.eqb k "__proto__"); [auto|].
  apply (In_set _ _ String.eqb string_eqb_spec).
Qed.

(** [group] stores items whose ids are those of their description. *)
Lemma group_ids (projects : projects_t) (log : Log.t) :
  (forall pid project d v,
      In (pid, project) projects -> In (d, v) (Project.items project) ->
      ids_of_description v) ->
  forall pid project d v,
    In (pid, project) (group projects log) ->
    In (d, v) (Project.items project) ->
    ids_of_description v.
Proof.
  intros Hold pid project d v Hp Hv. unfold group in Hp. cbv zeta in Hp.
  apply (In_set _ _ pid_eqb pid_eqb_spec) in Hp as [Hp | Hp].
  2:{ eauto. }
  apply (f_equal snd) in Hp. cbn [snd] in Hp. subst project.
  cbn [Project.items] in Hv. apply In_assign in Hv as [Hv | Hv].
  1: apply (f_equal snd) in Hv; cbn [snd] in Hv; subst v.
  - (* the item just updated *)
    destruct (JsObject.get pid_eqb projects (Log.pid log)) as [old|] eqn:Eg.
    + apply (get_In _ _ pid_eqb pid_eqb_spec) in Eg.
      destruct (JsObject.lookup (Project.items old) (Log.description log))
        as [[item|name] | name |] eqn:El; cbn; auto.
      apply lookup_Own_In in El. exact (Hold _ _ _ _ Eg El).
    + unfold JsObject.lookup, JsObject.empty.
      cbn [Project.items JsObject.get].
      destruct (JsObject.inherited (Log.description log)); cbn;
        [exact I | reflexivity].
  - (* an item of the project as it was *)
    destruct (JsObject.get pid_eqb projects (Log.pid log)) as [old|] eqn:Eg.
    + apply (get_In _ _ pid_eqb pid_eqb_spec) in Eg. eauto.
    + destruct Hv.
Qed.

Lemma grouped_ids (data : list Log.t) :
  forall pid project d v,
    In (pid, project) (grouped data) ->
    In (d, v) (Project.items project) ->
    ids_of_description v.
Proof.
  unfold grouped.
  assert (G : forall projects : projects_t,
             (forall pid project d v,
                 In (pid, project) projects ->
                 In (d, v) (Project.items project) ->
                 ids_of_description v) ->
             forall pid project d v,
               In (pid, project) (fold_left group data projects) ->
               In (d, v) (Project.items project) ->
               ids_of_description v).
  { induction data as [|log data IH]; intros projects H; cbn [fold_left].
    - exact H.
    - apply IH. now apply group_ids. }
  apply G. intros pid project d v [].
Qed.

Lemma allItems_ids (data : list Log.t) (v : value) :
  In v (allItems_of data) -> ids_of_description v.
Proof.
  unfold allItems_of, flatten. intros H.
  apply in_flat_map in H as ([pid project] & Hp & Hv).
  apply in_map_iff in Hv as ([d v0] & <- & Hv). cbn [snd] in *.
  apply In_for_in in Hp. unfold JsObject.keys_in_order in Hv.
  apply In_for_in in Hv.
  pose proof (grouped_ids data pid project d v0 Hp Hv) as W.
  destruct v0; exact W.
Qed.

(** The id a ready item tracks is a ticket id: it is not empty. *)
Lemma allItems_first_id (data : list Log.t) (item : Item.t) (id : string) :
  In (Obj item) (allItems_of data) ->
  nth_error (Item.jiraIds item) 0 = Some id ->
  JiraId id.
Proof.
  intros Hin Hid. apply allItems_ids in Hin. cbn in Hin.
  apply nth_error_In in Hid. rewrite Hin, findJiraIds_match_all in Hid.
  exact (match_all_ids _ _ Hid).
Qed.

Lemma In_objects (allItems : list value) (item : Item.t) :
  In (Obj item) allItems <-> In item (objects allItems).
Proof.
  unfold objects. rewrite in_flat_map. split.
  - intros H. exists (Obj item). split; [assumption | now left].
  - intros ([x | name] & H & Hx); [|destruct Hx].
    destruct Hx as [-> | []]. assumption.
Qed.

(** *** The dictionary of issues *)

Lemma issues_of_keys (found : list Issue.t) (k : string) (t : Ticket.t) :
  In (k, t) (issues_of found) ->
  exists issue, In issue found /\ Issue.key issue = k.
Proof.
  unfold issues_of.
  assert (G : forall o : JsObject.dict Ticket.t,
             In (k, t)
               (fold_left
                  (fun issues issue =>
                     JsObject.assign issues (Issue.key issue)
                       {| Ticket.key := Issue.key issue;
                          Ticket.isSubtask := Issue.subtask issue |})
                  found o) ->
             In (k, t) o \/ exists issue, In issue found /\ Issue.key issue = k).
  { induction found as [|issue found IH]; intros o H; cbn [fold_left] in H.
    - now left.
    - apply IH in H as [H | (x & Hx & E)].
      + apply In_assign in H as [H | H]; [|now left].
        right. exists issue. split; [now left | congruence].
      + right. exists x. split; [now right | assumption]. }
  intros H. apply G in H as [[] | H]. exact H.
Qed.

(** The keys [issues] is looked up under are ticket ids: no name of an
    inherited property, nor of a property of an entry. *)
Lemma JiraId_has_hyphen (m : string) : JiraId m -> has_hyphen m = true.
Proof.
  intros (l & key & d & ds & -> & _). cbn [has_hyphen].
  apply orb_true_iff. right.
  induction key as [|x key IH]; cbn [append has_hyphen].
  - reflexivity.
  - rewrite IH. apply orb_true_r.
Qed.

Lemma hyphen_not_a_property (k : string) :
  has_hyphen k = true ->
  JsObject.inherited k = false /\ k <> "key" /\ k <> "isSubtask"
  /\ k <> "__proto__".
Proof.
  intros H. repeat split; try (intros ->; discriminate).
  destruct (JsObject.inherited k) eqn:E; [|reflexivity].
  unfold JsObject.inherited in E. apply existsb_exists in E as (x & Hx & Ex).
  apply String.eqb_eq in Ex. subst x.
  cbn [JsObject.Object_prototype_names In] in Hx.
  repeat (destruct Hx as [<- | Hx]; [discriminate|]). destruct Hx.
Qed.

Lemma summarised_unique_inv (items : list Item.t) (s : summary) (id : string) :
  In id (uniqueJiraIds (summarised items s)) ->
  In id (uniqueJiraIds s)
  \/ exists item, In item items /\ nth_error (Item.jiraIds item) 0 = Some id.
Proof.
  revert s. induction items as [|x items IH]; intros s H; [now left|].
  cbn [summarised fold_left] in H. apply IH in H as [H | (item & Hi & Hn)].
  - cbn [note uniqueJiraIds track Item.jiraId] in H.
    unfold add_unique in H.
    destruct (truthy (nth_error (Item.jiraIds x) 0)); [|now left].
    destruct (nth_error (Item.jiraIds x) 0) as [y|] eqn:Ey; [|now left].
    destruct (existsb (String.eqb y) (uniqueJiraIds s)); [now left|].
    apply in_app_iff in H as [H | [<- | []]]; [now left|].
    right. exists x. split; [now left | assumption].
  - right. exists item. split; [now right | assumption].
Qed.

Lemma looked_up_ids (data : list Log.t) (id : string) :
  In id (unique_ids (objects (allItems_of data))) ->
  JiraId id
  /\ forall found,
      verify (issues_of found) id
      = match JsObject.get String.eqb (issues_of found) id with
        | Some issue => if Ticket.isSubtask issue then Found else NotASubtask
        | None => DoesntExist
        end.
Proof.
  intros H. unfold unique_ids in H.
  apply summarised_unique_inv in H as [[] | (item & Hi & Hn)].
  apply In_objects in Hi.
  pose proof (allItems_first_id _ _ _ Hi Hn) as J. split; [exact J|].
  intros found. unfold verify, JsObject.lookup.
  destruct (hyphen_not_a_property _ (JiraId_has_hyphen _ J)) as (-> & _).
  destruct (JsObject.get String.eqb (issues_of found) id) as [issue|];
    [|reflexivity].
  destruct (Ticket.isSubtask issue); reflexivity.
Qed.

(** An id the search did not return is not found. *)
Lemma verify_absent (found : list Issue.t) (id : string) :
  (forall issue, In issue found -> Issue.key issue <> id) ->
  verify (issues_of found) id <> Found.
Proof.
  intros H. unfold verify.
  destruct (JsObject.lookup (issues_of found) id) as [t | name |] eqn:E;
    try discriminate.
  apply lookup_Own_In, issues_of_keys in E as (issue & Hin & Hk).
  exfalso. exact (H issue Hin Hk).
Qed.

(** An id that maps to an issue that is no sub-task is not found. *)
Lemma verify_not_subtask (found : list Issue.t) (id : string) (t : Ticket.t) :
  JsObject.get String.eqb (issues_of found) id = Some t ->
  Ticket.isSubtask t = false ->
  verify (issues_of found) id <> Found.
Proof.
  intros Hg Hs. unfold verify, JsObject.lookup. rewrite Hg, Hs. discriminate.
Qed.

(* ================================================================== *)
(** ** C4: nothing is submitted unless every check passes *)

(** C4.  When an item of the report has no id or several, or when the id
    of an item with one id is missing from the issues the search returned
    or maps to an issue that is no sub-task, the run ends with status 1
    and no work log has been posted. *)
Theorem gate_before_submission (e : env) (st : Z) (body : Report.body)
  (item : Item.t) :
  report e = Response st body ->
  In (Obj item) (allItems_of (Report.data body)) ->
  (status_of (Item.jiraIds item) = NoJiraId
   \/ status_of (Item.jiraIds item) = MultipleJiraIds
   \/ exists id st' found,
       Item.jiraIds item = [id]
       /\ search e = Response st' found
       /\ ((forall issue, In issue (Search.issues found) ->
                          Issue.key issue <> id)
           \/ exists ticket,
               JsObject.get String.eqb (issues_of (Search.issues found)) id
               = Some ticket
               /\ Ticket.isSubtask ticket = false)) ->
  exit_status (outcome e) = 1 /\ posts (trace e) = [].
Proof.
  intros Er Hin Hbad. unfold outcome, trace.
  destruct (run_cases e)
    as (t & Ht & [(x & E & Hx) | [(st0 & body0 & Er0 & Hnone & E)
                                 | (st0 & body0 & st' & found & Er0 & Es & Hp)]]).
  - rewrite E. split; [assumption | now apply early_posts].
  - rewrite Er in Er0. injection Er0 as <- <-. rewrite Hnone in Hin.
    destruct Hin.
  - exfalso. rewrite Er in Er0. injection Er0 as <- <-.
    destruct Hp as (_ & Hready & Hfound & _).
    pose proof (proj1 (In_objects _ _) Hin) as Hobj.
    specialize (Hready _ Hobj).
    destruct Hbad as [H | [H | (id & st1 & found1 & Hid & Es1 & Hv)]];
      try congruence.
    rewrite Es in Es1. injection Es1 as <- <-.
    assert (Hnth : nth_error (Item.jiraIds item) 0 = Some id)
      by now rewrite Hid.
    assert (Hne : id <> EmptyString).
    { pose proof (allItems_first_id _ _ _ Hin Hnth) as J.
      destruct (JiraId_nonempty _ J) as (c & m & ->). discriminate. }
    pose proof (summarised_unique _ start _ _ Hobj Hnth Hne) as Hu.
    specialize (Hfound _ Hu).
    destruct Hv as [Habsent | (ticket & Hg & Hs)].
    + exact (verify_absent _ _ Habsent Hfound).
    + exact (verify_not_subtask _ _ _ Hg Hs Hfound).
Qed.

(** The scenario "Unplanned work": no id, no request to the tracker. *)
Lemma gate_before_submission_witness :
  let e := sample [entry "Unplanned work" 60000] [] all_created true in
  exit_status (outcome e) = 1 /\ posts (trace e) = [].
Proof.
  cbv zeta.
  apply (gate_before_submission
           (sample [entry "Unplanned work" 60000] [] all_created true)
           200
           {| Report.total_count := 1; Report.per_page := 50;
              Report.data := [entry "Unplanned work" 60000] |}
           {| Item.description := "Unplanned work";
              Item.jiraIds := [];
              Item.duration := 60000;
              Item.occurrences := 1;
              Item.project := Some "X";
              Item.jiraId := None |}).
  - reflexivity.
  - left. reflexivity.
  - left. reflexivity.
Defined.

(** An id the tracker does not know, and an id of a story. *)
Example gate_unknown_ticket :
  run (sample [entry "Fix ABC-12 bug" 60000] [] all_created true)
  = ([ConsoleLog (Fetching "2016-05-01");
      ConsoleLog (ApiRequest (Some "42") "2016-05-01");
      GetReport (Some "42") 1 "2016-05-01" "2016-05-01" "token";
      ConsoleLog (FoundItems 1);
      ConsoleLog SummaryHeader;
      ConsoleLog (ItemSummary 1 "Fix ABC-12 bug" 60000 1 ["ABC-12"] Ready);
      ConsoleLog (Verifying (jql_of ["ABC-12"]));
      GetSearch (jql_of ["ABC-12"]) "me" "secret";
      ConsoleLog (KeyResult "ABC-12" DoesntExist);
      ConsoleError (IssuesDetected 1)],
     Exit 1).
Proof. reflexivity. Qed.

Example gate_not_a_subtask :
  let e := sample [entry "Fix ABC-12 bug" 60000] [story "ABC-12"]
             all_created true in
  In (ConsoleLog (KeyResult "ABC-12" NotASubtask)) (trace e)
  /\ outcome e = Exit 1 /\ posts (trace e) = [].
Proof. cbv zeta. repeat split. vm_compute. tauto. Qed.

(* ================================================================== *)
(** ** C10: declining the confirmation *)

(** C10.  When the user answers no to "Are you sure?", the process exits
    with status 0 and no work log is posted. *)
Theorem declined_confirmation (e : env) :
  In AskedConfirm (trace e) -> confirm e = false ->
  outcome e = Exit 0 /\ posts (trace e) = [].
Proof.
  unfold trace, outcome. intros Hasked Hno.
  destruct (run_cases e)
    as (t & Ht & [(x & E & Hx) | [(st0 & body0 & Er0 & Hnone & E)
                                 | (st0 & body0 & st' & found & Er0 & Es & Hp)]]).
  - rewrite E in Hasked. cbn [fst] in Hasked.
    exfalso. exact (early_no_confirm _ Ht Hasked).
  - rewrite E in Hasked. cbn [fst] in Hasked.
    exfalso. exact (early_no_confirm _ Ht Hasked).
  - destruct Hp as (_ & _ & _ & E). rewrite E. rewrite submit_run, Hno.
    cbn [fst snd]. split; [reflexivity|].
    rewrite posts_app, (early_posts _ Ht). reflexivity.
Qed.

Lemma declined_confirmation_witness :
  let e := sample [entry "Fix ABC-12 bug" 60000] [subtask "ABC-12"]
             all_created false in
  In AskedConfirm (trace e) /\ confirm e = false
  /\ outcome e = Exit 0 /\ posts (trace e) = [].
Proof.
  cbv zeta.
  assert (H : In AskedConfirm
                (trace (sample [entry "Fix ABC-12 bug" 60000]
                          [subtask "ABC-12"] all_created false))).
  { vm_compute. tauto. }
  split; [exact H|]. split; [reflexivity|].
  exact (declined_confirmation
           (sample [entry "Fix ABC-12 bug" 60000] [subtask "ABC-12"]
              all_created false) H eq_refl).
Defined.

(* ================================================================== *)
(** ** C8: more entries than one page *)

(** C8.  When the report answers with a [total_count] above [per_page],
    the script prints the "too many entries" error and exits with status
    1 right after the request: the rows of the report are never read (the
    run is the same whatever they are), and nothing else is requested. *)
Theorem too_many_entries (e : env) (st : Z) (body : Report.body) :
  report e = Response st body ->
  (200 <= st < 300)%Z ->
  (Report.total_count body > Report.per_page body)%Z ->
  run e
  = (fst (credentials e)
       ++ [ConsoleLog (Fetching (target_date e));
           ConsoleLog (ApiRequest (Flags.workspace (program e))
                         (target_date e));
           GetReport (Flags.workspace (program e)) 1 (target_date e)
             (target_date e) (toggl_token e);
           ConsoleError (TooManyEntries (Report.per_page body))],
     Exit 1)
  /\ forall data, run (with_data e data) = run e.
Proof.
  intros Er Hst Hmany.
  assert (G : forall e' body',
             report e' = Response st body' ->
             (Report.total_count body' > Report.per_page body')%Z ->
             run e'
             = (fst (credentials e')
                  ++ [ConsoleLog (Fetching (target_date e'));
                      ConsoleLog (ApiRequest (Flags.workspace (program e'))
                                    (target_date e'));
                      GetReport (Flags.workspace (program e')) 1
                        (target_date e') (target_date e') (toggl_token e');
                      ConsoleError (TooManyEntries (Report.per_page body'))],
                Exit 1)).
  { intros e' body' Er' Hmany'. unfold run, main.
    destruct (credentials_ret e') as (tc & Htc & ->).
    rewrite Er'. unfold on_report. cbn [callback].
    replace ((200 <=? st)%Z && (st <? 300)%Z) with true
      by (symmetry; apply andb_true_iff; split;
          [apply Z.leb_le | apply Z.ltb_lt]; lia).
    script. cbn [Res.body].
    replace (Report.total_count body' >? Report.per_page body')%Z with true
      by (symmetry; apply Z.gtb_lt; lia).
    script. reflexivity. }
  split; [now apply G|].
  intros data. rewrite (G e body Er Hmany).
  apply (G (with_data e data)
           {| Report.total_count := Report.total_count body;
              Report.per_page := Report.per_page body;
              Report.data := data |}).
  - cbn [with_data report]. now rewrite Er.
  - exact Hmany.
Qed.

(** The scenario of the specification: 500 entries, 200 to the page. *)
Lemma too_many_entries_witness :
  run crowded
  = ([ConsoleLog (Fetching "2016-05-01");
      ConsoleLog (ApiRequest (Some "42") "2016-05-01");
      GetReport (Some "42") 1 "2016-05-01" "2016-05-01" "token";
      ConsoleError (TooManyEntries 200)],
     Exit 1).
Proof.
  refine (proj1 (too_many_entries crowded 200
                   {| Report.total_count := 500; Report.per_page := 200;
                      Report.data := [entry "Fix ABC-12 bug" 60000] |}
                   eq_refl _ _)).
  - split; [discriminate | reflexivity].
  - reflexivity.
Defined.

(* ================================================================== *)
(** ** C9: the workspace prompt *)

(** C9.  Without the workspace option, the script asks for the workspace
    id and stores the answer in [apiToken], over the token it had;
    [workspace] stays undefined.  The report is then requested without a
    workspace id, with the answer as the token. *)
Theorem workspace_answer_overwrites_token (e : env) :
  Flags.workspace (program e) = None ->
  In (Asked AskWorkspaceId) (fst (credentials e))
  /\ snd (credentials e) = Ret (prompt e AskWorkspaceId, None)
  /\ In (GetReport None 1 (target_date e) (target_date e)
           (prompt e AskWorkspaceId)) (trace e).
Proof.
  intros Hw.
  assert (Hc : In (Asked AskWorkspaceId) (fst (credentials e))
               /\ snd (credentials e) = Ret (prompt e AskWorkspaceId, None)).
  { unfold credentials, unless_given, ask. rewrite Hw. cbn [truthy].
    destruct (Flags.apiToken (program e)) as [s|];
      [destruct (String.eqb s EmptyString)|];
      cbn [bind console_log emit ret app fst snd In]; tauto. }
  destruct Hc as [Hasked Hret]. repeat split; try assumption.
  unfold trace, run, main.
  destruct (credentials e) as [tc r]. cbn [snd] in Hret. subst r.
  script. destruct (callback (report e)) as [err res].
  apply in_app_iff. right. cbn. tauto.
Qed.

Lemma workspace_answer_overwrites_token_witness :
  credentials no_workspace
  = ([ConsoleLog MissingWorkspaceId; Asked AskWorkspaceId], Ret ("42", None))
  /\ In (GetReport None 1 "2016-05-01" "2016-05-01" "42") (trace no_workspace).
Proof.
  split; [reflexivity|].
  exact (proj2 (proj2 (workspace_answer_overwrites_token no_workspace
                         eq_refl))).
Defined.

(* ================================================================== *)
(** ** C6: the work log *)

(** Every work log the loop posts is the one of an item of the queue. *)
Lemma next_posts (date username password : string)
  (replies : nat -> reply unit) (queue : list Item.t) (n : nat) (ev : event) :
  In ev (posts (fst (finish (createNextWorkLog date username password
                               replies queue n)))) ->
  exists item, In item queue /\ ev = post date username password item.
Proof.
  revert n. induction queue as [|item queue IH]; intros n H.
  - destruct H.
  - destruct (created (replies n)) eqn:Ec.
    + rewrite (next_created _ _ _ _ _ _ _ Ec) in H. cbn [fst] in H.
      rewrite posts_app in H. cbn in H. destruct H as [<- | H].
      * exists item. split; [now left | reflexivity].
      * destruct (IH _ H) as (x & Hx & E). exists x. split; [now right|].
        assumption.
    + destruct (next_failed date username password replies item queue n Ec)
        as (Hp & _). rewrite Hp in H. destruct H as [<- | []].
      exists item. split; [now left | reflexivity].
Qed.

Lemma whole_thousandth (d : Z) : whole (Qmake d 1000) <-> (1000 | d)%Z.
Proof.
  unfold whole, Qeq. cbn [Qnum Qden inject_Z]. split.
  - intros (n & H). exists n. lia.
  - intros (n & H). exists n. lia.
Qed.

(** C6 as stated fails on an item of 1500 ms: the script posts 1.5
    seconds. *)
Lemma worklog_fraction_of_second :
  let e := sample [entry "Fix ABC-12 bug" 1500] [subtask "ABC-12"]
             all_created true in
  exists body,
    In (PostWorklog (Some "ABC-12") body "me" "secret") (trace e)
    /\ Worklog.timeSpentSeconds body = Qmake 1500 1000
    /\ ~ whole (Worklog.timeSpentSeconds body).
Proof.
  cbv zeta. eexists. split; [|split].
  - vm_compute. do 12 right. left. reflexivity.
  - reflexivity.
  - cbn [Worklog.timeSpentSeconds]. rewrite whole_thousandth.
    intros (n & H). lia.
Qed.

(** C6, amended.  Every work log the run posts belongs to an item of the
    report: it is posted to the first id of the item, [started] is the
    target date followed by [T00:00:00.000+0000], and [timeSpentSeconds]
    is the duration of the item divided by 1000, as a fraction: a whole
    number of seconds exactly when the duration is a multiple of 1000
    ms.  The durations of the report are within the range where the sums
    and the quotient of the script are exact: below 10^15 ms together. *)
Theorem worklog_payload (e : env) (jiraId : option string)
  (body : Worklog.body) (username password : string) :
  exact_seconds (report_rows e) ->
  In (PostWorklog jiraId body username password) (trace e) ->
  Worklog.started body = (target_date e ++ "T00:00:00.000+0000")%string
  /\ exists st report_body item,
      report e = Response st report_body
      /\ In (Obj item) (allItems_of (Report.data report_body))
      /\ jiraId = nth_error (Item.jiraIds item) 0
      /\ Worklog.timeSpentSeconds body = Qmake (Item.duration item) 1000
      /\ Qeq (Worklog.timeSpentSeconds body * inject_Z 1000)
             (inject_Z (Item.duration item))
      /\ (whole (Worklog.timeSpentSeconds body)
          <-> (1000 | Item.duration item)%Z).
Proof.
  intros _ Hin.
  assert (Hp : In (PostWorklog jiraId body username password)
                 (posts (trace e))).
  { unfold posts. apply filter_In. split; [assumption | reflexivity]. }
  clear Hin. unfold trace in Hp.
  destruct (run_cases e)
    as (t & Ht & [(x & E & Hx) | [(st0 & body0 & Er0 & Hnone & E)
                                 | (st0 & body0 & st' & found & Er0 & Es & H)]]).
  - rewrite E in Hp. cbn [fst] in Hp. rewrite (early_posts _ Ht) in Hp.
    destruct Hp.
  - rewrite E in Hp. cbn [fst] in Hp. rewrite (early_posts _ Ht) in Hp.
    destruct Hp.
  - destruct H as (_ & _ & _ & E). rewrite E in Hp. cbn [fst] in Hp.
    rewrite posts_app, (early_posts _ Ht), submit_run in Hp.
    cbn [app fst] in Hp. unfold posts at 1 in Hp. cbn [filter] in Hp.
    fold (posts (if confirm e
                 then fst (finish (createNextWorkLog (target_date e)
                                     (jira_username e) (jira_password e)
                                     (worklog e)
                                     (map track (objects (allItems_of
                                                  (Report.data body0)))) 0))
                 else [])) in Hp.
    destruct (confirm e); [|destruct Hp].
    apply next_posts in Hp as (item' & Hq & Ev).
    apply in_map_iff in Hq as (item & <- & Hobj).
    apply In_objects in Hobj.
    unfold post in Ev. injection Ev as -> -> _ _.
    split; [reflexivity|].
    exists st0, body0, item. repeat split; try assumption.
    + unfold Qeq. cbn. lia.
    + apply whole_thousandth.
    + apply whole_thousandth.
Qed.

Lemma worklog_payload_witness :
  let e := sample [entry "Fix ABC-12 bug" 60000; entry "Fix ABC-12 bug" 30000]
             [subtask "ABC-12"] all_created true in
  let body := {| Worklog.comment :=
                   ("Fix ABC-12 bug " ++ newline ++ newline
                      ++ "(Imported via Joggl)")%string;
                 Worklog.timeSpentSeconds := Qmake 90000 1000;
                 Worklog.started := "2016-05-01T00:00:00.000+0000" |} in
  In (PostWorklog (Some "ABC-12") body "me" "secret") (trace e)
  /\ Worklog.started body = "2016-05-01T00:00:00.000+0000"
  /\ whole (Worklog.timeSpentSeconds body).
Proof.
  cbv zeta.
  assert (H : In (PostWorklog (Some "ABC-12")
                    {| Worklog.comment :=
                         ("Fix ABC-12 bug " ++ newline ++ newline
                            ++ "(Imported via Joggl)")%string;
                       Worklog.timeSpentSeconds := Qmake 90000 1000;
                       Worklog.started := "2016-05-01T00:00:00.000+0000" |}
                    "me" "secret")
                (trace (sample [entry "Fix ABC-12 bug" 60000;
                                entry "Fix ABC-12 bug" 30000]
                          [subtask "ABC-12"] all_created true))).
  { vm_compute. do 12 right. left. reflexivity. }
  split; [exact H|].
  assert (Hb : exact_seconds
                 (report_rows (sample [entry "Fix ABC-12 bug" 60000;
                                       entry "Fix ABC-12 bug" 30000]
                                 [subtask "ABC-12"] all_created true)))
    by (unfold exact_seconds; vm_compute; reflexivity).
  destruct (worklog_payload _ _ _ _ _ Hb H)
    as (Hs & st & rb & item & _ & _ & _ & _ & _ & Hw).
  split; [exact Hs|].
  exists 90. reflexivity.
Defined.

(* ================================================================== *)
(** ** What becomes of a run with such a description *)

(** The summary loop throws on the function. *)
Example inherited_description_crashes :
  run (sample [entry "constructor" 60000] [] all_created true)
  = ([ConsoleLog (Fetching "2016-05-01");
      ConsoleLog (ApiRequest (Some "42") "2016-05-01");
      GetReport (Some "42") 1 "2016-05-01" "2016-05-01" "token";
      ConsoleLog (FoundItems 1);
      ConsoleLog SummaryHeader],
     Uncaught (TypeError "join")).
Proof. reflexivity. Qed.

(** The entry is lost, and the run says there is nothing to report. *)
Example proto_description_vanishes :
  run (sample [entry "__proto__" 60000] [] all_created true)
  = ([ConsoleLog (Fetching "2016-05-01");
      ConsoleLog (ApiRequest (Some "42") "2016-05-01");
      GetReport (Some "42") 1 "2016-05-01" "2016-05-01" "token";
      ConsoleLog (FoundItems 1);
      ConsoleLog (NoItems "2016-05-01")],
     Exit 0).
Proof. reflexivity. Qed.

(* ================================================================== *)
(** ** C7: requests without a response *)

(** C7.  The report and the search cannot be reached: the script prints
    the error and exits with status 1.  The work log cannot be reached:
    the callback reads [res.statusCode] of an undefined [res] before it
    looks at [err]; the [TypeError] is not caught, and nothing of the
    network error has been printed. *)
Theorem worklog_without_response :
  let e := sample [entry "Fix ABC-12 bug" 60000] [subtask "ABC-12"]
             (fun _ => NoResponse "ECONNRESET") true in
  run e
  = ([ConsoleLog (Fetching "2016-05-01");
      ConsoleLog (ApiRequest (Some "42") "2016-05-01");
      GetReport (Some "42") 1 "2016-05-01" "2016-05-01" "token";
      ConsoleLog (FoundItems 1);
      ConsoleLog SummaryHeader;
      ConsoleLog (ItemSummary 1 "Fix ABC-12 bug" 60000 1 ["ABC-12"] Ready);
      ConsoleLog (Verifying (jql_of ["ABC-12"]));
      GetSearch (jql_of ["ABC-12"]) "me" "secret";
      ConsoleLog (KeyResult "ABC-12" Found);
      ConsoleLog (AboutToCreate 1 (Some 60000));
      AskedConfirm;
      adding "2016-05-01"
        {| Item.description := "Fix ABC-12 bug";
           Item.jiraIds := ["ABC-12"];
           Item.duration := 60000;
           Item.occurrences := 1;
           Item.project := Some "X";
           Item.jiraId := Some "ABC-12" |};
      post "2016-05-01" "me" "secret"
        {| Item.description := "Fix ABC-12 bug";
           Item.jiraIds := ["ABC-12"];
           Item.duration := 60000;
           Item.occurrences := 1;
           Item.project := Some "X";
           Item.jiraId := Some "ABC-12" |}],
     Uncaught (TypeError "statusCode"))
  /\ (forall m, ~ In (ConsoleError m) (trace e))
  /\ outcome e <> Exit 1.
Proof.
  cbv zeta. split; [reflexivity|]. split.
  - intros m H. vm_compute in H.
    repeat (destruct H as [H | H]; [discriminate|]). exact H.
  - discriminate.
Qed.

(** The two GET requests do report the failure and exit with 1. *)
Lemma report_without_response (e : env) (message : string) :
  report e = NoResponse message ->
  run e
  = (fst (credentials e)
       ++ [ConsoleLog (Fetching (target_date e));
           ConsoleLog (ApiRequest (Flags.workspace (program e))
                         (target_date e));
           GetReport (Flags.workspace (program e)) 1 (target_date e)
             (target_date e) (toggl_token e);
           ConsoleError (ErrMessage (Transport message));
           ConsoleError (ErrObject (Some (Transport message)))],
     Exit 1).
Proof.
  intros Er. unfold run, main.
  destruct (credentials_ret e) as (tc & Htc & ->).
  rewrite Er. unfold on_report. script. reflexivity.
Qed.

Lemma report_without_response_witness :
  report no_workspace = NoResponse "ECONNREFUSED"
  /\ run no_workspace
     = ([ConsoleLog MissingWorkspaceId; Asked AskWorkspaceId;
         ConsoleLog (Fetching "2016-05-01");
         ConsoleLog (ApiRequest None "2016-05-01");
         GetReport None 1 "2016-05-01" "2016-05-01" "42";
         ConsoleError (ErrMessage (Transport "ECONNREFUSED"));
         ConsoleError (ErrObject (Some (Transport "ECONNREFUSED")))],
        Exit 1).
Proof.
  split; [reflexivity|].
  exact (report_without_response no_workspace "ECONNREFUSED" eq_refl).
Defined.

(** So does the search, whatever led to it. *)
Lemma search_without_response (e : env) (date username password : string)
  (queue : list Item.t) (total : option Z) (ids : list string)
  (message : string) :
  finish (on_search e date username password queue total ids
            (fst (callback (@NoResponse Search.body message)))
            (snd (callback (@NoResponse Search.body message))))
  = ([ConsoleError (ErrMessage (Transport message));
      ConsoleError (ErrObject (Some (Transport message)))],
     Exit 1).
Proof. unfold on_search. script. reflexivity. Qed.

Example search_unreachable :
  run {| program := program (sample [] [] all_created true);
         today := "2016-05-02";
         prompt := fun _ => "typed";
         confirm := true;
         report := report (sample [entry "Fix ABC-12 bug" 60000] []
                             all_created true);
         search := NoResponse "ECONNREFUSED";
         worklog := all_created |}
  = ([ConsoleLog (Fetching "2016-05-01");
      ConsoleLog (ApiRequest (Some "42") "2016-05-01");
      GetReport (Some "42") 1 "2016-05-01" "2016-05-01" "token";
      ConsoleLog (FoundItems 1);
      ConsoleLog SummaryHeader;
      ConsoleLog (ItemSummary 1 "Fix ABC-12 bug" 60000 1 ["ABC-12"] Ready);
      ConsoleLog (Verifying (jql_of ["ABC-12"]));
      GetSearch (jql_of ["ABC-12"]) "me" "secret";
      ConsoleError (ErrMessage (Transport "ECONNREFUSED"));
      ConsoleError (ErrObject (Some (Transport "ECONNREFUSED")))],
     Exit 1).
Proof. reflexivity. Qed.

(* ================================================================== *)
(** * Further properties *)

(* ================================================================== *)
(** ** [findJiraIds]: fixed points, separators, sizes *)

Section MoreMatches.
Local Open Scope string_scope.

Lemma match_all_of_id (m : string) :
  JiraId m -> match_all jira_regex 0 m = [m].
Proof.
  intros Hm.
  assert (E : m = m ++ EmptyString) by now rewrite append_nil_r.
  destruct (jira_at_complete _ _ _ E Hm) as (m0 & Hj & L).
  destruct (jira_at_sound _ _ Hj) as (Hm0 & post0 & E0 & _).
  pose proof (f_equal String.length E0) as L0.
  rewrite length_append in L0.
  assert (E1 : m ++ EmptyString = m0 ++ post0)
    by (rewrite append_nil_r; exact E0).
  destruct (append_same_length _ _ _ _ E1) as [<- <-]; [lia|].
  rewrite (ids_some m m EmptyString Hj E). reflexivity.
Qed.

(** A character that is no letter, digit, underscore or hyphen cuts the
    text in two for the pattern. *)
Lemma take_while_sep (cl : cls) (s : string) (c : ascii) (b : string) :
  in_cls cl c = false ->
  take_while cl (s ++ String c b) = take_while cl s
  /\ drop_while cl (s ++ String c b) = drop_while cl s ++ String c b.
Proof.
  intros Hc. induction s as [|x s [IHt IHd]]; cbn [append take_while drop_while].
  - rewrite Hc. split; reflexivity.
  - destruct (in_cls cl x); [|split; reflexivity].
    rewrite IHt, IHd. split; reflexivity.
Qed.

Lemma word_sep_classes (c : ascii) :
  in_cls word c = false ->
  in_cls letter c = false /\ in_cls digit c = false
  /\ in_cls nonzero c = false.
Proof.
  intros H. repeat split.
  - destruct (in_cls letter c) eqn:E; [|reflexivity].
    now rewrite (letter_is_word _ E) in H.
  - classes.
  - classes.
Qed.

Lemma jira_at_sep (s : string) (c : ascii) (b : string) :
  in_cls word c = false -> in_cls hyphen c = false ->
  s <> EmptyString ->
  jira_at (s ++ String c b) = jira_at s.
Proof.
  intros Hw Hh Hs.
  destruct (word_sep_classes _ Hw) as (_ & Hd & Hn).
  destruct s as [|l s1]; [congruence|]. cbn [append jira_at].
  destruct (in_cls letter l); [|reflexivity].
  destruct s1 as [|w s2]; cbn [append].
  - destruct (word_sep_classes _ Hw) as (_ & _ & _). now rewrite Hw.
  - destruct (in_cls word w) eqn:Ew; [|reflexivity].
    change (String w (s2 ++ String c b)) with (String w s2 ++ String c b).
    destruct (take_while_sep word (String w s2) c b Hw) as [-> ->].
    destruct (drop_while word (String w s2)) as [|h [|d s3]]; cbn [append].
    + rewrite Hh. cbn [andb]. now destruct b.
    + rewrite Hn, andb_false_r. reflexivity.
    + destruct (in_cls hyphen h && in_cls nonzero d); [|reflexivity].
      destruct (take_while_sep digit s3 c b Hd) as [-> _]. reflexivity.
Qed.

Lemma match_all_sep (a : string) (c : ascii) (b : string) :
  in_cls word c = false -> in_cls hyphen c = false ->
  match_all jira_regex 0 (a ++ String c b)
  = (match_all jira_regex 0 a ++ match_all jira_regex 0 b)%list.
Proof.
  intros Hw Hh.
  remember (String.length a) as n eqn:En. revert a En.
  induction n as [n IH] using lt_wf_ind. intros a En.
  destruct a as [|x a].
  - cbn [append]. rewrite ids_none; [reflexivity|].
    cbn [jira_at]. destruct (word_sep_classes _ Hw) as (-> & _). reflexivity.
  - assert (Hne : String x a <> EmptyString) by discriminate.
    pose proof (jira_at_sep (String x a) c b Hw Hh Hne) as Hj.
    destruct (jira_at (String x a)) as [m|] eqn:Ea.
    + destruct (jira_at_sound _ _ Ea) as (Hm & post & E & _).
      destruct (JiraId_nonempty _ Hm) as (y & m' & ->).
      rewrite (ids_some _ _ post Ea E).
      rewrite (ids_some (String x a ++ String c b) (String y m')
                 (post ++ String c b) Hj).
      2:{ rewrite E at 1. now rewrite append_assoc. }
      cbn [app]. f_equal. apply (IH (String.length post)); [|reflexivity].
      rewrite En, E, length_append. cbn [String.length]. lia.
    + cbn [append] in *. rewrite (ids_none _ _ Hj), (ids_none _ _ Ea).
      apply (IH (String.length a)); [|reflexivity].
      rewrite En. cbn [String.length]. lia.
Qed.

Lemma JiraId_length (m : string) : JiraId m -> (4 <= String.length m)%nat.
Proof.
  intros (l & key & d & ds & -> & _ & Hk & _).
  destruct key as [|x key]; [congruence|].
  cbn [append String.length]. rewrite length_append. cbn [String.length]. lia.
Qed.

Lemma match_all_total_length (s : string) :
  (total_length (match_all jira_regex 0 s) <= String.length s)%nat.
Proof.
  remember (String.length s) as n eqn:En. revert s En.
  induction n as [n IH] using lt_wf_ind. intros s En.
  destruct s as [|c s]; [cbn; lia|].
  destruct (jira_at (String c s)) as [m|] eqn:Hj.
  - destruct (jira_at_sound _ _ Hj) as (Hm & post & E & _).
    rewrite (ids_some _ _ post Hj E). cbn [total_length fold_right].
    pose proof (JiraId_length _ Hm) as L.
    assert (Hp : (String.length post < n)%nat).
    { rewrite En, E, length_append. lia. }
    pose proof (IH _ Hp post eq_refl) as IHp. unfold total_length in IHp.
    rewrite En, E, length_append. lia.
  - rewrite (ids_none _ _ Hj).
    assert (Hp : (String.length s < n)%nat) by (rewrite En; cbn; lia).
    pose proof (IH _ Hp s eq_refl) as IHp. rewrite En. cbn [String.length]. lia.
Qed.
End MoreMatches.

(** X3.  Every id [findJiraIds] returns is returned again, alone, when
    the function is applied to it. *)
Theorem findJiraIds_fixed (s m : string) :
  In m (findJiraIds s) -> findJiraIds m = [m].
Proof.
  rewrite !findJiraIds_match_all. intros H.
  apply match_all_of_id. exact (match_all_ids _ _ H).
Qed.

Lemma findJiraIds_fixed_witness :
  In "ABC-12" (findJiraIds "Fix ABC-12 bug") /\ findJiraIds "ABC-12" = ["ABC-12"].
Proof.
  assert (H : In "ABC-12" (findJiraIds "Fix ABC-12 bug")) by (left; reflexivity).
  split; [exact H|]. exact (findJiraIds_fixed "Fix ABC-12 bug" "ABC-12" H).
Defined.

(** X4.  A character that is no letter, digit, underscore or hyphen
    separates: the ids of a text are the ids of what precedes such a
    character followed by the ids of what follows it. *)
Theorem findJiraIds_separator (a : string) (c : ascii) (b : string) :
  in_cls word c = false -> in_cls hyphen c = false ->
  findJiraIds (a ++ String c b)%string = findJiraIds a ++ findJiraIds b.
Proof.
  intros Hw Hh. rewrite !findJiraIds_match_all. now apply match_all_sep.
Qed.

Lemma findJiraIds_separator_witness :
  findJiraIds ("Spans ABC-1" ++ String " " "and XYZ-2")%string
  = findJiraIds "Spans ABC-1" ++ findJiraIds "and XYZ-2".
Proof.
  exact (findJiraIds_separator "Spans ABC-1" " " "and XYZ-2" eq_refl eq_refl).
Defined.

(** A hyphen does not separate: two halves without an id make one. *)
Example hyphen_joins :
  findJiraIds "AB" = [] /\ findJiraIds "1" = []
  /\ findJiraIds ("AB" ++ String "-" "1")%string = ["AB-1"].
Proof. repeat split. Qed.

(** X5.  The ids are disjoint pieces of the text of at least four
    characters each: together they are no longer than the text, so a text
    of [n] characters has at most [n / 4] ids. *)
Theorem findJiraIds_sizes (s : string) :
  (forall m, In m (findJiraIds s) -> (4 <= String.length m)%nat)
  /\ (total_length (findJiraIds s) <= String.length s)%nat
  /\ (4 * List.length (findJiraIds s) <= String.length s)%nat.
Proof.
  rewrite findJiraIds_match_all.
  assert (H4 : forall m, In m (match_all jira_regex 0 s) ->
                         (4 <= String.length m)%nat).
  { intros m H. apply JiraId_length. exact (match_all_ids _ _ H). }
  pose proof (match_all_total_length s) as Ht.
  repeat split; try assumption.
  revert H4 Ht. generalize (String.length s).
  induction (match_all jira_regex 0 s) as [|m ms IH]; intros n H4 Ht.
  - cbn. lia.
  - cbn [total_length fold_right List.length] in *.
    pose proof (H4 m (or_introl eq_refl)) as Lm.
    assert (IH' : (4 * List.length ms <= n - String.length m)%nat).
    { apply IH; [intros x Hx; apply H4; now right|].
      unfold total_length. lia. }
    lia.
Qed.

(* ================================================================== *)
(** ** Objects: lookups after assignments, keys, enumeration *)

Section ObjectFacts.
Variables K V : Type.
Variable eqb : K -> K -> bool.
Hypothesis eqb_spec : forall a b, eqb a b = true <-> a = b.

Lemma eqb_refl_spec (k : K) : eqb k k = true.
Proof using eqb_spec. now apply eqb_spec. Qed.

Lemma eqb_false_spec (a b : K) : eqb a b = false <-> a <> b.
Proof using eqb_spec.
  destruct (eqb a b) eqn:E.
  - apply eqb_spec in E. split; [discriminate | congruence].
  - split; [|reflexivity]. intros _ H. apply eqb_spec in H. congruence.
Qed.

(** What was assigned is what is read; other keys are untouched. *)
Lemma get_set (o : JsObject.t K V) (k k' : K) (v : V) :
  JsObject.get eqb (JsObject.set eqb o k v) k'
  = if eqb k k' then Some v else JsObject.get eqb o k'.
Proof using eqb_spec.
  induction o as [|[a x] o IH]; cbn [JsObject.set JsObject.get].
  - reflexivity.
  - destruct (eqb a k) eqn:Eak; cbn [JsObject.get].
    + apply eqb_spec in Eak. subst a.
      destruct (eqb k k'); reflexivity.
    + destruct (eqb a k') eqn:Eak'.
      * apply eqb_spec in Eak'. subst a.
        assert (E : eqb k k' = false).
        { apply eqb_false_spec. apply eqb_false_spec in Eak. congruence. }
        now rewrite E.
      * exact IH.
Qed.

Lemma get_None (o : JsObject.t K V) (k : K) :
  JsObject.get eqb o k = None <-> ~ In k (map fst o).
Proof using eqb_spec.
  induction o as [|[a x] o IH]; cbn [JsObject.get map fst In].
  - tauto.
  - destruct (eqb a k) eqn:E.
    + apply eqb_spec in E. split; [discriminate | tauto].
    + apply eqb_false_spec in E. rewrite IH. tauto.
Qed.

Lemma keys_set (o : JsObject.t K V) (k : K) (v : V) :
  map fst (JsObject.set eqb o k v)
  = match JsObject.get eqb o k with
    | Some _ => map fst o
    | None => map fst o ++ [k]
    end.
Proof using eqb_spec.
  induction o as [|[a x] o IH]; cbn [JsObject.set JsObject.get map fst app].
  - reflexivity.
  - destruct (eqb a k) eqn:E; cbn [map fst]; [reflexivity|].
    rewrite IH. destruct (JsObject.get eqb o k); reflexivity.
Qed.

(** An object has one property per key. *)
Lemma NoDup_set (o : JsObject.t K V) (k : K) (v : V) :
  NoDup (map fst o) -> NoDup (map fst (JsObject.set eqb o k v)).
Proof using eqb_spec.
  intros H. rewrite keys_set.
  destruct (JsObject.get eqb o k) eqn:E; [assumption|].
  apply get_None in E.
  apply NoDup_app; [assumption | repeat constructor; intros [] |].
  intros x Hx [<- | []]. contradiction.
Qed.

Lemma In_get (o : JsObject.t K V) (k : K) (v : V) :
  NoDup (map fst o) -> In (k, v) o -> JsObject.get eqb o k = Some v.
Proof using eqb_spec.
  induction o as [|[a x] o IH]; cbn [map fst JsObject.get In]; [tauto|].
  intros Hnd [[= -> ->] | Hin].
  - now rewrite eqb_refl_spec.
  - inversion Hnd as [|? ? Hnot Hnd']; subst.
    destruct (eqb a k) eqn:E; [|now apply IH].
    apply eqb_spec in E. subst a. exfalso. apply Hnot.
    apply in_map_iff. exists (k, v). split; [reflexivity | assumption].
Qed.

End ObjectFacts.

Section Enumeration.
Variables K V : Type.
Variable index : K -> option N.

Lemma insert_index_perm (n : N) (p : K * V) (l : list (N * (K * V))) :
  Permutation (map snd (JsObject.insert_index n p l)) (p :: map snd l).
Proof.
  induction l as [|[m q] l IH]; cbn [JsObject.insert_index map snd].
  - reflexivity.
  - destruct (n <=? m)%N; cbn [map snd]; [reflexivity|].
    rewrite IH. apply perm_swap.
Qed.

(** [for-in] visits every own property once. *)
Lemma for_in_perm (o : JsObject.t K V) :
  Permutation (JsObject.for_in index o) o.
Proof.
  unfold JsObject.for_in, JsObject.indexed, JsObject.named.
  induction o as [|p o IH]; cbn [fold_right filter map app]; [reflexivity|].
  destruct (index (fst p)).
  - rewrite insert_index_perm. cbn [app]. now constructor.
  - rewrite <- Permutation_middle. now constructor.
Qed.
End Enumeration.

(* ================================================================== *)
(** ** The grouping loop, for any report *)

Section Grouping.

Lemma total_dur_app (a b : list Log.t) :
  total_dur (a ++ b) = total_dur a + total_dur b.
Proof.
  unfold total_dur.
  induction a as [|x a IH]; cbn [app fold_right]; lia.
Qed.

Lemma find_app (A : Type) (f : A -> bool) (a b : list A) :
  find f (a ++ b) = match find f a with Some x => Some x | None => find f b end.
Proof.
  induction a as [|x a IH]; cbn [app find]; [reflexivity|].
  destruct (f x); [reflexivity | exact IH].
Qed.

Lemma get_projects_set (projects : projects_t) (k k' : option Z)
  (p : Project.t) :
  JsObject.get pid_eqb (JsObject.set pid_eqb projects k p) k'
  = if pid_eqb k k' then Some p else JsObject.get pid_eqb projects k'.
Proof. apply get_set. exact pid_eqb_spec. Qed.

Lemma get_items_set (items : JsObject.dict value) (k k' : string) (v : value) :
  JsObject.get String.eqb (JsObject.set String.eqb items k v) k'
  = if String.eqb k k' then Some v else JsObject.get String.eqb items k'.
Proof. apply get_set. exact string_eqb_spec. Qed.

Lemma fetched_items (projects : projects_t) (log : Log.t) (description : string) :
  JsObject.get String.eqb (Project.items (fetched projects log)) description
  = stored projects (Log.pid log) description.
Proof.
  unfold fetched, stored.
  destruct (JsObject.get pid_eqb projects (Log.pid log)); reflexivity.
Qed.

Lemma expected_other (data : list Log.t) (log : Log.t) (pid : option Z)
  (description : string) :
  has_key pid description log = false ->
  expected (data ++ [log]) pid description = expected data pid description.
Proof.
  intros H. unfold expected. rewrite filter_app. cbn [filter].
  rewrite H. now rewrite app_nil_r.
Qed.

Lemma expected_proto (data : list Log.t) (pid : option Z) :
  expected data pid "__proto__" = None.
Proof.
  unfold expected. now destruct (filter (has_key pid "__proto__") data).
Qed.

Lemma has_key_refl (log : Log.t) :
  has_key (Log.pid log) (Log.description log) log = true.
Proof.
  unfold has_key. apply andb_true_iff. split.
  - now apply pid_eqb_spec.
  - apply String.eqb_refl.
Qed.

Lemma has_key_spec (pid : option Z) (description : string) (log : Log.t) :
  has_key pid description log = true
  <-> Log.pid log = pid /\ Log.description log = description.
Proof.
  unfold has_key. rewrite andb_true_iff, pid_eqb_spec, string_eqb_spec.
  tauto.
Qed.

(** What the loop body stores under the key of its row. *)
Lemma stored_group_same (data : list Log.t) (projects : projects_t)
  (log : Log.t) :
  (forall pid description,
      stored projects pid description = expected data pid description) ->
  stored (group projects log) (Log.pid log) (Log.description log)
  = expected (data ++ [log]) (Log.pid log) (Log.description log).
Proof.
  intros IH. unfold stored, group. fold (fetched projects log).
  rewrite get_projects_set.
  replace (pid_eqb (Log.pid log) (Log.pid log)) with true
    by (symmetry; now apply pid_eqb_spec).
  cbn [Project.items]. unfold JsObject.assign.
  destruct (String.eqb (Log.description log) "__proto__") eqn:Ep.
  - rewrite fetched_items, IH.
    apply String.eqb_eq in Ep. rewrite Ep. now rewrite !expected_proto.
  - rewrite get_items_set, String.eqb_refl.
    unfold JsObject.lookup. rewrite fetched_items, IH.
    unfold expected. rewrite filter_app. cbn [filter].
    rewrite has_key_refl, Ep.
    destruct (filter (has_key (Log.pid log) (Log.description log)) data)
      as [|e es]; cbn [app].
    + destruct (JsObject.inherited (Log.description log)); [reflexivity|].
      do 2 f_equal. cbn [Item.description Item.jiraIds Item.duration
                         Item.occurrences Item.project Item.jiraId].
      f_equal; cbn; lia.
    + destruct (JsObject.inherited (Log.description log)); [reflexivity|].
      do 2 f_equal. cbn [Item.description Item.jiraIds Item.duration
                         Item.occurrences Item.project Item.jiraId].
      f_equal.
      * change (e :: es ++ [log]) with ((e :: es) ++ [log]).
        rewrite total_dur_app. cbn. lia.
      * change (e :: es ++ [log]) with ((e :: es) ++ [log]).
        rewrite length_app. cbn [List.length]. lia.
Qed.

Lemma stored_group (data : list Log.t) (projects : projects_t) (log : Log.t) :
  (forall pid description,
      stored projects pid description = expected data pid description) ->
  forall pid description,
    stored (group projects log) pid description
    = expected (data ++ [log]) pid description.
Proof.
  intros IH pid description.
  destruct (has_key pid description log) eqn:Hk.
  - apply has_key_spec in Hk. destruct Hk as [<- <-].
    now apply stored_group_same.
  - rewrite (expected_other _ _ _ _ Hk), <- IH.
    unfold stored at 1, group. fold (fetched projects log).
    rewrite get_projects_set.
    destruct (pid_eqb (Log.pid log) pid) eqn:Epid.
    + apply pid_eqb_spec in Epid. subst pid.
      cbn [Project.items]. unfold JsObject.assign.
      destruct (String.eqb (Log.description log) "__proto__");
        [apply fetched_items|].
      rewrite get_items_set.
      unfold has_key in Hk. rewrite andb_false_iff in Hk.
      destruct Hk as [Hk | Hk].
      * assert (pid_eqb (Log.pid log) (Log.pid log) = true)
          by now apply pid_eqb_spec.
        congruence.
      * rewrite Hk. apply fetched_items.
    + reflexivity.
Qed.

Lemma grouped_app (data : list Log.t) (log : Log.t) :
  grouped (data ++ [log]) = group (grouped data) log.
Proof. unfold grouped. now rewrite fold_left_app. Qed.

(** Under every key, the loop has stored the work item of the rows with
    that key. *)
Lemma stored_grouped (data : list Log.t) (pid : option Z)
  (description : string) :
  stored (grouped data) pid description = expected data pid description.
Proof.
  revert pid description.
  induction data as [|log data IH] using rev_ind; [reflexivity|].
  rewrite grouped_app. now apply stored_group.
Qed.

(** A project keeps the name of the first row that names it. *)
Lemma grouped_names (data : list Log.t) (pid : option Z) :
  option_map Project.name (JsObject.get pid_eqb (grouped data) pid)
  = option_map Log.project
      (find (fun log => pid_eqb (Log.pid log) pid) data).
Proof.
  induction data as [|log data IH] using rev_ind; [reflexivity|].
  rewrite grouped_app, find_app. unfold group.
  fold (fetched (grouped data) log). rewrite get_projects_set.
  cbn [find]. unfold fetched.
  destruct (pid_eqb (Log.pid log) pid) eqn:E.
  - apply pid_eqb_spec in E. subst pid.
    destruct (JsObject.get pid_eqb (grouped data) (Log.pid log)) eqn:G;
      cbn [option_map Project.name] in *;
      destruct (find _ data); cbn [option_map] in *; congruence.
  - rewrite IH. now destruct (find _ data).
Qed.

Lemma In_set_projects (projects : projects_t) (k : option Z) (v : Project.t)
  (p : option Z * Project.t) :
  In p (JsObject.set pid_eqb projects k v) -> p = (k, v) \/ In p projects.
Proof.
  induction projects as [|[a x] o IH]; cbn [JsObject.set In].
  - intros [<- | []]. now left.
  - destruct (pid_eqb a k) eqn:E; cbn [In].
    + apply pid_eqb_spec in E. subst a.
      intros [<- | H]; [now left | right; now right].
    + intros [<- | H]; [right; now left|].
      destruct (IH H) as [-> | H']; [now left | right; now right].
Qed.

Lemma get_In_projects (projects : projects_t) (k : option Z) (v : Project.t) :
  JsObject.get pid_eqb projects k = Some v -> In (k, v) projects.
Proof.
  induction projects as [|[a x] o IH]; cbn [JsObject.get In]; [discriminate|].
  destruct (pid_eqb a k) eqn:E.
  - apply pid_eqb_spec in E. subst a. intros [= ->]. now left.
  - intros H. right. now apply IH.
Qed.

Lemma get_In_items (items : JsObject.dict value) (k : string) (v : value) :
  JsObject.get String.eqb items k = Some v -> In (k, v) items.
Proof.
  induction items as [|[a x] o IH]; cbn [JsObject.get In]; [discriminate|].
  destruct (String.eqb a k) eqn:E.
  - apply String.eqb_eq in E. subst a. intros [= ->]. now left.
  - intros H. right. now apply IH.
Qed.

(** No key is stored twice. *)
Lemma grouped_NoDup (data : list Log.t) :
  NoDup (map fst (grouped data))
  /\ forall pid project, In (pid, project) (grouped data) ->
       NoDup (map fst (Project.items project)).
Proof.
  induction data as [|log data [IH1 IH2]] using rev_ind.
  - split; [constructor | intros ? ? []].
  - rewrite grouped_app. unfold group. fold (fetched (grouped data) log).
    split; [apply NoDup_set; [exact pid_eqb_spec | exact IH1]|].
    intros pid project H. apply In_set_projects in H.
    destruct H as [[= -> ->] | H]; [|now apply (IH2 pid)].
    cbn [Project.items].
    assert (Hf : NoDup (map fst (Project.items (fetched (grouped data) log)))).
    { unfold fetched.
      destruct (JsObject.get pid_eqb (grouped data) (Log.pid log)) eqn:G.
      - apply get_In_projects in G. now apply (IH2 _ _ G).
      - constructor. }
    unfold JsObject.assign.
    destruct (String.eqb (Log.description log) "__proto__"); [exact Hf|].
    apply NoDup_set; [exact string_eqb_spec | exact Hf].
Qed.

Lemma In_stored (data : list Log.t) (pid : option Z) (project : Project.t)
  (description : string) (v : value) :
  In (pid, project) (grouped data) ->
  In (description, v) (Project.items project) ->
  expected data pid description = Some v.
Proof.
  intros Hp Hi. rewrite <- stored_grouped. unfold stored.
  destruct (grouped_NoDup data) as [N1 N2].
  rewrite (In_get _ _ pid_eqb pid_eqb_spec _ _ _ N1 Hp).
  apply (In_get _ _ String.eqb string_eqb_spec _ _ _ (N2 _ _ Hp) Hi).
Qed.

Lemma stored_In (data : list Log.t) (pid : option Z) (description : string)
  (v : value) :
  expected data pid description = Some v ->
  exists project,
    In (pid, project) (grouped data)
    /\ In (description, v) (Project.items project).
Proof.
  rewrite <- stored_grouped. unfold stored.
  destruct (JsObject.get pid_eqb (grouped data) pid) as [project|] eqn:G;
    [|discriminate].
  intros H. exists project. split.
  - now apply get_In_projects.
  - now apply get_In_items.
Qed.

(** The values of the array are the stored values, with the name of
    their project. *)
Lemma In_flatten (projects : projects_t) (v : value) :
  In v (flatten projects)
  <-> exists pid project description w,
        In (pid, project) projects
        /\ In (description, w) (Project.items project)
        /\ v = set_project (Project.name project) w.
Proof.
  unfold flatten. rewrite in_flat_map. split.
  - intros [[pid project] [Hp Hv]]. cbn [snd] in Hv.
    apply in_map_iff in Hv. destruct Hv as [[description w] [<- Hw]].
    exists pid, project, description, w. repeat split.
    + eapply Permutation_in; [apply for_in_perm | exact Hp].
    + eapply Permutation_in; [apply for_in_perm | exact Hw].
  - intros (pid & project & description & w & Hp & Hw & ->).
    exists (pid, project). split.
    + eapply Permutation_in; [symmetry; apply for_in_perm | exact Hp].
    + cbn [snd]. apply in_map_iff. exists (description, w). split;
        [reflexivity|].
      eapply Permutation_in; [symmetry; apply for_in_perm | exact Hw].
Qed.

Lemma expected_Some (data : list Log.t) (pid : option Z)
  (description : string) (v : value) :
  expected data pid description = Some v ->
  exists log,
    In log data /\ Log.pid log = pid /\ Log.description log = description
    /\ description <> "__proto__"
    /\ v = if JsObject.inherited description then Builtin description
           else Obj {| Item.description := description;
                       Item.jiraIds := findJiraIds description;
                       Item.duration :=
                         total_dur (filter (has_key pid description) data);
                       Item.occurrences :=
                         Z.of_nat
                           (List.length (filter (has_key pid description) data));
                       Item.project := None;
                       Item.jiraId := None |}.
Proof.
  unfold expected.
  destruct (filter (has_key pid description) data) as [|e es] eqn:F;
    [discriminate|].
  assert (He : In e (filter (has_key pid description) data))
    by (rewrite F; now left).
  apply filter_In in He. destruct He as [He Hk].
  apply has_key_spec in Hk. destruct Hk as [Hp Hd].
  destruct (String.eqb description "__proto__") eqn:Ep; [discriminate|].
  apply String.eqb_neq in Ep.
  intros H. exists e. repeat split; try assumption.
  destruct (JsObject.inherited description); congruence.
Qed.

Lemma expected_In (data : list Log.t) (log : Log.t) :
  In log data ->
  Log.description log <> "__proto__" ->
  expected data (Log.pid log) (Log.description log)
  = Some (if JsObject.inherited (Log.description log)
          then Builtin (Log.description log)
          else Obj {| Item.description := Log.description log;
                      Item.jiraIds := findJiraIds (Log.description log);
                      Item.duration := total_dur (entries_like log data);
                      Item.occurrences :=
                        Z.of_nat (List.length (entries_like log data));
                      Item.project := None;
                      Item.jiraId := None |}).
Proof.
  intros Hin Hp. unfold expected, entries_like.
  destruct (filter (has_key (Log.pid log) (Log.description log)) data)
    as [|e es] eqn:F.
  - assert (H : In log []); [|destruct H].
    rewrite <- F. apply filter_In. split; [assumption | apply has_key_refl].
  - apply String.eqb_neq in Hp. rewrite Hp.
    now destruct (JsObject.inherited (Log.description log)).
Qed.

Lemma project_name_of (data : list Log.t) (pid : option Z)
  (project : Project.t) :
  In (pid, project) (grouped data) ->
  Project.name project = project_name pid data.
Proof.
  intros H. destruct (grouped_NoDup data) as [N1 _].
  pose proof (grouped_names data pid) as E.
  rewrite (In_get _ _ pid_eqb pid_eqb_spec _ _ _ N1 H) in E.
  unfold project_name. cbn [option_map] in E.
  destruct (find _ data); cbn [option_map] in E; congruence.
Qed.
End Grouping.

(** The work item of a row is in the array. *)
Lemma In_work_item (data : list Log.t) (log : Log.t) :
  In log data -> JsObject.inherited (Log.description log) = false ->
  In (Obj (work_item log data)) (allItems_of data).
Proof.
  unfold allItems_of. intros Hin Hinh.
  assert (Hproto : Log.description log <> "__proto__")
    by (apply String.eqb_neq; now apply not_inherited_not_proto).
  pose proof (expected_In data log Hin Hproto) as E.
  rewrite Hinh in E. apply stored_In in E.
  destruct E as (project & Hp & Hi).
  apply In_flatten. exists (Log.pid log), project, (Log.description log).
  eexists. split; [exact Hp|]. split; [exact Hi|].
  cbn [set_project Item.description Item.jiraIds Item.duration
       Item.occurrences Item.project Item.jiraId].
  now rewrite (project_name_of _ _ _ Hp).
Qed.

(** Every work item of the array is that of a row. *)
Lemma work_item_In (data : list Log.t) (item : Item.t) :
  In (Obj item) (allItems_of data) ->
  exists log,
    In log data /\ JsObject.inherited (Log.description log) = false
    /\ item = work_item log data.
Proof.
  unfold allItems_of. intros H. apply In_flatten in H.
  destruct H as (pid & project & description & w & Hp & Hi & E).
  pose proof (In_stored _ _ _ _ _ Hp Hi) as S.
  apply expected_Some in S.
  destruct S as (log & Hin & Hpid & Hd & _ & Hw).
  exists log. subst pid description.
  destruct (JsObject.inherited (Log.description log));
    subst w; cbn [set_project] in E; [discriminate|].
  split; [assumption|]. split; [reflexivity|].
  injection E as ->.
  cbn [Item.description Item.jiraIds Item.duration
       Item.occurrences Item.project Item.jiraId].
  now rewrite (project_name_of _ _ _ Hp).
Qed.

(** A built-in function is in the array exactly for the inherited names,
    [__proto__] apart, that are the description of a row. *)
Lemma In_builtin (data : list Log.t) (name : string) :
  In (Builtin name) (allItems_of data)
  <-> JsObject.inherited name = true /\ name <> "__proto__"
      /\ exists log, In log data /\ Log.description log = name.
Proof.
  unfold allItems_of. split.
  - intros H. apply In_flatten in H.
    destruct H as (pid & project & description & w & Hp & Hi & E).
    pose proof (In_stored _ _ _ _ _ Hp Hi) as S.
    apply expected_Some in S.
    destruct S as (log & Hin & Hpid & Hd & Hproto & Hw).
    destruct (JsObject.inherited description) eqn:Hinh;
      subst w; cbn [set_project] in E; [|discriminate].
    injection E as ->. repeat split; try assumption. now exists log.
  - intros (Hinh & Hproto & log & Hin & <-).
    pose proof (expected_In data log Hin Hproto) as E.
    rewrite Hinh in E. apply stored_In in E.
    destruct E as (project & Hp & Hi).
    apply In_flatten. exists (Log.pid log), project, (Log.description log).
    eexists. split; [exact Hp|]. split; [exact Hi|]. reflexivity.
Qed.

(** X6. For any report, the array of work items holds exactly the work
    items of the keys of the rows.  A row whose description is not the
    name of an inherited property has its work item in the array: the
    description, its ticket ids, the summed duration and the number of the
    rows with the same project id and description, and the project name of
    the first row with that project id.  Every work item of the array is
    that of such a row.  A built-in function is in the array exactly for
    the inherited names, [__proto__] apart, that are the description of a
    row.  The durations are within the range where the sums of the script
    are exact. *)
Theorem aggregate_per_key (data : list Log.t) :
  exact_sums data ->
  (forall log,
      In log data -> JsObject.inherited (Log.description log) = false ->
      In (Obj (work_item log data)) (allItems_of data))
  /\ (forall item,
        In (Obj item) (allItems_of data) ->
        exists log,
          In log data /\ JsObject.inherited (Log.description log) = false
          /\ item = work_item log data)
  /\ (forall name,
        In (Builtin name) (allItems_of data)
        <-> JsObject.inherited name = true /\ name <> "__proto__"
            /\ exists log, In log data /\ Log.description log = name).
Proof.
  intros _. split; [|split].
  - intros log. apply In_work_item.
  - intros item. apply work_item_In.
  - intros name. apply In_builtin.
Qed.

Lemma aggregate_per_key_witness :
  In (Obj {| Item.description := "Fix ABC-12 bug";
             Item.jiraIds := ["ABC-12"];
             Item.duration := 61500;
             Item.occurrences := 2;
             Item.project := Some "X";
             Item.jiraId := None |})
    (allItems_of [entry "Fix ABC-12 bug" 60000; entry "Review ABC-2" 30000;
                  entry "Fix ABC-12 bug" 1500]).
Proof.
  assert (Hb : exact_sums [entry "Fix ABC-12 bug" 60000;
                           entry "Review ABC-2" 30000;
                           entry "Fix ABC-12 bug" 1500])
    by (unfold exact_sums; vm_compute; discriminate).
  exact (proj1 (aggregate_per_key _ Hb) (entry "Fix ABC-12 bug" 60000)
           (or_introl eq_refl) eq_refl).
Defined.

Section Counting.

Lemma length_flatten (projects : projects_t) :
  List.length (flatten projects) = List.length (stored_keys projects).
Proof.
  unfold flatten.
  rewrite (Permutation_length
             (Permutation_flat_map _ (for_in_perm _ _ pid_index projects))).
  unfold stored_keys.
  induction projects as [|[pid project] projects IH]; [reflexivity|].
  cbn [flat_map snd fst]. rewrite !length_app, IH, !length_map.
  unfold JsObject.keys_in_order.
  now rewrite (Permutation_length (for_in_perm _ _ JsObject.array_index _)).
Qed.

Lemma In_stored_keys (projects : projects_t) (pid : option Z)
  (description : string) :
  In (pid, description) (stored_keys projects)
  <-> exists project v,
        In (pid, project) projects
        /\ In (description, v) (Project.items project).
Proof.
  unfold stored_keys. rewrite in_flat_map. split.
  - intros [[pid' project] [Hp Hk]]. cbn [fst snd] in Hk.
    apply in_map_iff in Hk. destruct Hk as [[d v] [[= -> ->] Hv]].
    now exists project, v.
  - intros (project & v & Hp & Hv). exists (pid, project).
    split; [assumption|]. cbn [fst snd]. apply in_map_iff.
    now exists (description, v).
Qed.

Lemma NoDup_stored_keys (projects : projects_t) :
  NoDup (map fst projects) ->
  (forall pid project, In (pid, project) projects ->
     NoDup (map fst (Project.items project))) ->
  NoDup (stored_keys projects).
Proof.
  induction projects as [|[pid project] projects IH];
    cbn [map fst]; intros N1 N2; [constructor|].
  inversion N1 as [|? ? Hnot N1']; subst.
  change (stored_keys ((pid, project) :: projects))
    with (map (fun q : string * value => (pid, fst q)) (Project.items project)
          ++ stored_keys projects).
  apply NoDup_app.
  - assert (N : NoDup (map fst (Project.items project)))
      by (apply (N2 pid); now left).
    revert N. generalize (Project.items project). intros l.
    induction l as [|[d v] l IHl]; cbn [map fst]; intros N; [constructor|].
    inversion N as [|? ? Hd N']; subst. constructor; [|now apply IHl].
    intros H. apply in_map_iff in H. destruct H as [[d' v'] [[= ->] H]].
    apply Hd. apply in_map_iff. now exists (d, v').
  - apply IH; [assumption|]. intros p q H. apply (N2 p). now right.
  - intros [p d] H1 H2. apply in_map_iff in H1.
    destruct H1 as [q [[= <- <-] _]].
    apply In_stored_keys in H2. destruct H2 as (project' & v & Hp & _).
    apply Hnot. apply in_map_iff. now exists (pid, project').
Qed.

Lemma In_distinct_keys (data : list Log.t) (k : option Z * string) :
  In k (distinct_keys data)
  <-> exists log,
        In log data /\ key_of log = k /\ Log.description log <> "__proto__".
Proof.
  unfold distinct_keys. rewrite nodup_In, in_map_iff. split.
  - intros (log & <- & H). apply filter_In in H. destruct H as [Hin Hp].
    exists log. repeat split; [assumption|].
    apply String.eqb_neq. now apply negb_true_iff.
  - intros (log & Hin & <- & Hp). exists log. split; [reflexivity|].
    apply filter_In. split; [assumption|].
    apply negb_true_iff. now apply String.eqb_neq.
Qed.

Lemma total_set (K V : Type) (eqb : K -> K -> bool) (g : V -> Z)
  (o : JsObject.t K V) (k : K) (v : V) :
  total g (JsObject.set eqb o k v)
  = total g o + g v
    - match JsObject.get eqb o k with Some x => g x | None => 0 end.
Proof.
  unfold total.
  induction o as [|[a x] o IH];
    cbn [JsObject.set JsObject.get fold_right snd]; [lia|].
  destruct (eqb a k); cbn [fold_right snd]; lia.
Qed.

Lemma sum_of_app (f : value -> Z) (a b : list value) :
  sum_of f (a ++ b) = sum_of f a + sum_of f b.
Proof.
  unfold sum_of. induction a as [|x a IH]; cbn [app fold_right]; lia.
Qed.

Lemma sum_of_perm (f : value -> Z) (a b : list value) :
  Permutation a b -> sum_of f a = sum_of f b.
Proof.
  unfold sum_of. induction 1; cbn [fold_right]; lia.
Qed.

Lemma sum_of_items (f : value -> Z) (name : option string)
  (items : JsObject.dict value) :
  (forall name v, f (set_project name v) = f v) ->
  sum_of f (map (fun q : string * value => set_project name (snd q)) items)
  = total f items.
Proof.
  intros Hf. unfold sum_of, total.
  induction items as [|[d v] l IHl]; [reflexivity|].
  cbn [map snd fold_right]. now rewrite IHl, Hf.
Qed.

Lemma total_cons (K V : Type) (g : V -> Z) (p : K * V) (o : JsObject.t K V) :
  total g (p :: o) = g (snd p) + total g o.
Proof. reflexivity. Qed.

(** The sum over the array is the sum over what the loop has stored. *)
Lemma sum_of_flatten (f : value -> Z) (projects : projects_t) :
  (forall name v, f (set_project name v) = f v) ->
  sum_of f (flatten projects)
  = total (fun project => total f (Project.items project)) projects.
Proof.
  intros Hf. unfold flatten.
  rewrite (sum_of_perm f _ _
             (Permutation_flat_map _ (for_in_perm _ _ pid_index projects))).
  induction projects as [|[pid project] projects IH]; [reflexivity|].
  cbn [flat_map snd]. rewrite sum_of_app, IH, total_cons. cbn [snd].
  f_equal. unfold JsObject.keys_in_order.
  rewrite (sum_of_perm f _ _
             (Permutation_map _ (for_in_perm _ _ JsObject.array_index _))).
  now apply sum_of_items.
Qed.

Lemma expected_kind (data : list Log.t) (pid : option Z)
  (description : string) (v : value) :
  expected data pid description = Some v ->
  is_item v = negb (JsObject.inherited description).
Proof.
  intros H. apply expected_Some in H.
  destruct H as (_ & _ & _ & _ & _ & ->).
  now destruct (JsObject.inherited description).
Qed.

(** One pass of the loop adds the row to one work item, or to none. *)
Lemma total_group (f : value -> Z) (step : Log.t -> Z) (data : list Log.t)
  (log : Log.t) :
  (forall name, f (Builtin name) = 0) ->
  (forall i,
      f (Obj {| Item.description := Item.description i;
                Item.jiraIds := Item.jiraIds i;
                Item.duration := Item.duration i + Log.dur log;
                Item.occurrences := Item.occurrences i + 1;
                Item.project := Item.project i;
                Item.jiraId := Item.jiraId i |})
      = f (Obj i) + step log) ->
  (forall i, Item.duration i = 0 -> Item.occurrences i = 0 -> f (Obj i) = 0) ->
  total (fun project => total f (Project.items project))
    (group (grouped data) log)
  = total (fun project => total f (Project.items project)) (grouped data)
    + if JsObject.inherited (Log.description log) then 0 else step log.
Proof.
  intros Hb Hs H0. unfold group. fold (fetched (grouped data) log).
  rewrite total_set. cbn [Project.items].
  assert (Hold : match JsObject.get pid_eqb (grouped data) (Log.pid log) with
                 | Some x => total f (Project.items x)
                 | None => 0
                 end = total f (Project.items (fetched (grouped data) log))).
  { unfold fetched.
    now destruct (JsObject.get pid_eqb (grouped data) (Log.pid log)). }
  rewrite Hold. clear Hold.
  unfold JsObject.assign.
  destruct (String.eqb (Log.description log) "__proto__") eqn:Ep.
  - apply String.eqb_eq in Ep. rewrite Ep, inherited_proto. lia.
  - rewrite total_set. unfold JsObject.lookup.
    rewrite fetched_items, stored_grouped.
    destruct (expected data (Log.pid log) (Log.description log)) as [v|] eqn:E.
    + apply expected_kind in E.
      destruct v as [i | name]; cbn [is_item] in E;
        destruct (JsObject.inherited (Log.description log));
        try discriminate.
      * rewrite Hs. lia.
      * lia.
    + destruct (JsObject.inherited (Log.description log)).
      * rewrite Hb. lia.
      * rewrite Hs, H0 by reflexivity. lia.
Qed.

Lemma total_grouped (f : value -> Z) (step : Log.t -> Z) (data : list Log.t) :
  (forall name, f (Builtin name) = 0) ->
  (forall log i,
      f (Obj {| Item.description := Item.description i;
                Item.jiraIds := Item.jiraIds i;
                Item.duration := Item.duration i + Log.dur log;
                Item.occurrences := Item.occurrences i + 1;
                Item.project := Item.project i;
                Item.jiraId := Item.jiraId i |})
      = f (Obj i) + step log) ->
  (forall i, Item.duration i = 0 -> Item.occurrences i = 0 -> f (Obj i) = 0) ->
  total (fun project => total f (Project.items project)) (grouped data)
  = fold_right (fun log acc => step log + acc) 0 (kept data).
Proof.
  intros Hb Hs H0.
  induction data as [|log data IH] using rev_ind; [reflexivity|].
  rewrite grouped_app, (total_group f step data log Hb (Hs log) H0), IH.
  unfold kept. rewrite filter_app, fold_right_app. cbn [filter].
  destruct (JsObject.inherited (Log.description log)); cbn [negb fold_right].
  - lia.
  - generalize (filter
                  (fun log0 => negb (JsObject.inherited (Log.description log0)))
                  data).
    intros l. induction l as [|x l IHl]; cbn [fold_right]; lia.
Qed.

Lemma totalDuration_sum (allItems : list value) :
  totalDuration_of allItems
  = if forallb is_item allItems then Some (sum_of duration_of allItems)
    else None.
Proof.
  unfold totalDuration_of.
  assert (G : forall acc,
             fold_left
               (fun acc v =>
                  match acc, v with
                  | Some t, Obj i => Some (t + Item.duration i)
                  | _, _ => None
                  end) allItems acc
             = match acc with
               | Some t => if forallb is_item allItems
                           then Some (t + sum_of duration_of allItems)
                           else None
               | None => None
               end).
  { induction allItems as [|v l IH]; intros acc; cbn [fold_left forallb].
    - destruct acc; [|reflexivity]. cbn. f_equal. lia.
    - rewrite IH. destruct acc as [t|]; [|reflexivity].
      destruct v as [i | name]; cbn [is_item andb]; [|reflexivity].
      destruct (forallb is_item l); [|reflexivity].
      f_equal. unfold sum_of. cbn [fold_right duration_of]. lia. }
  rewrite G. destruct (forallb is_item allItems); [|reflexivity].
  f_equal.
Qed.
End Counting.

(** X7. The array has one work item for each distinct pair of a project
    id and a description among the rows: its length is the number of
    these pairs, those with the description [__proto__] left out. *)
Theorem allItems_length (data : list Log.t) :
  List.length (allItems_of data) = List.length (distinct_keys data).
Proof.
  unfold allItems_of. rewrite length_flatten.
  apply Permutation_length. destruct (grouped_NoDup data) as [N1 N2].
  apply NoDup_Permutation.
  - now apply NoDup_stored_keys.
  - apply NoDup_nodup.
  - intros [pid description]. rewrite In_stored_keys, In_distinct_keys. split.
    + intros (project & v & Hp & Hv).
      pose proof (In_stored _ _ _ _ _ Hp Hv) as E.
      apply expected_Some in E.
      destruct E as (log & Hin & <- & <- & Hproto & _).
      now exists log.
    + intros (log & Hin & [= <- <-] & Hproto).
      pose proof (expected_In data log Hin Hproto) as E.
      apply stored_In in E. destruct E as (project & Hp & Hv).
      eauto.
Qed.

Lemma sum_durations (data : list Log.t) :
  sum_of duration_of (allItems_of data) = total_dur (kept data).
Proof.
  unfold allItems_of. rewrite sum_of_flatten by (now intros ? []).
  rewrite (total_grouped duration_of Log.dur); try reflexivity.
  intros i H _. exact H.
Qed.

Lemma sum_occurrences (data : list Log.t) :
  sum_of occurrences_of (allItems_of data)
  = Z.of_nat (List.length (kept data)).
Proof.
  unfold allItems_of. rewrite sum_of_flatten by (now intros ? []).
  rewrite (total_grouped occurrences_of (fun _ => 1)); try reflexivity.
  - induction (kept data) as [|x l IH]; [reflexivity|].
    cbn [fold_right List.length]. rewrite IH. lia.
  - intros i _ H. exact H.
Qed.

(** The array holds work items only, unless a description is the name of
    an inherited property other than [__proto__]. *)
Lemma items_harmless (data : list Log.t) :
  forallb is_item (allItems_of data) = forallb harmless data.
Proof.
  apply eq_true_iff_eq. rewrite !forallb_forall.
  assert (B1 := fun name => proj1 (In_builtin data name)).
  assert (B2 := fun name => proj2 (In_builtin data name)). split.
  - intros H log Hlog. unfold harmless.
    destruct (JsObject.inherited (Log.description log)) eqn:Hinh;
      [|reflexivity].
    cbn [negb orb].
    destruct (String.eqb (Log.description log) "__proto__") eqn:Ep;
      [reflexivity|].
    apply String.eqb_neq in Ep.
    assert (Hb : In (Builtin (Log.description log)) (allItems_of data))
      by (apply B2; eauto).
    specialize (H _ Hb). discriminate.
  - intros H [i | name] Hin; [reflexivity|].
    apply B1 in Hin. destruct Hin as (Hinh & Hproto & log & Hlog & <-).
    specialize (H log Hlog). unfold harmless in H.
    rewrite Hinh in H. cbn [negb orb] in H.
    now apply String.eqb_eq in H.
Qed.

Lemma totalDuration_grouped (data : list Log.t) :
  totalDuration_of (allItems_of data)
  = if forallb harmless data then Some (total_dur (kept data)) else None.
Proof.
  now rewrite totalDuration_sum, sum_durations, items_harmless.
Qed.

(** X8. The grouping loses no time and no row: the durations of the work
    items add up to the durations of the rows, and their occurrence counts
    to the number of the rows, the rows whose description is the name of
    an inherited property apart.  The total the script announces is that
    sum, unless a description is such a name other than [__proto__]: then
    the total is [NaN].  The durations are within the range where the
    sums of the script are exact. *)
Theorem aggregate_conserves (data : list Log.t) :
  exact_sums data ->
  sum_of duration_of (allItems_of data) = total_dur (kept data)
  /\ sum_of occurrences_of (allItems_of data)
     = Z.of_nat (List.length (kept data))
  /\ totalDuration_of (allItems_of data)
     = if forallb harmless data then Some (total_dur (kept data)) else None.
Proof.
  intros _. split; [apply sum_durations|].
  split; [apply sum_occurrences | apply totalDuration_grouped].
Qed.

Lemma aggregate_conserves_witness :
  totalDuration_of
    (allItems_of [entry "Fix ABC-12 bug" 60000; entry "Review ABC-2" 30000;
                  entry "Fix ABC-12 bug" 1500])
  = Some 91500.
Proof.
  assert (Hb : exact_sums [entry "Fix ABC-12 bug" 60000;
                           entry "Review ABC-2" 30000;
                           entry "Fix ABC-12 bug" 1500])
    by (unfold exact_sums; vm_compute; discriminate).
  exact (proj2 (proj2 (aggregate_conserves _ Hb))).
Defined.

(* ================================================================== *)
(** ** The loops of the run, line by line *)

Section Lines.

Lemma summarise_exact (items : list Item.t) (s : summary) :
  forEach (map Obj items) summarise s
  = (summary_lines items (i s), Ret (summarised items s)).
Proof.
  revert s. induction items as [|item items IH]; intros s; [reflexivity|].
  cbn [map forEach summarise classify bind console_log emit ret app].
  rewrite IH. reflexivity.
Qed.

Lemma summarised_issues (items : list Item.t) (s : summary) :
  issues (summarised items s)
  = (issues s + List.length (unready items))%nat.
Proof.
  unfold unready. revert s. induction items as [|item items IH]; intros s.
  - cbn. lia.
  - cbn [summarised fold_left]. unfold summarised in IH. rewrite IH.
    cbn [note issues filter]. unfold ready, status_of.
    destruct (List.length (Item.jiraIds item)) as [|[|n]];
      cbn [Nat.eqb negb List.length]; lia.
Qed.

Lemma check_exact (issues : JsObject.dict Ticket.t) (ids : list string)
  (errors : nat) :
  forEach ids (check issues) errors
  = (key_lines issues ids,
     Ret (errors + List.length (failures issues ids))%nat).
Proof.
  revert errors. induction ids as [|id ids IH]; intros errors.
  - cbn. now rewrite Nat.add_0_r.
  - cbn [forEach]. unfold check at 1. cbn [bind console_log emit ret app].
    rewrite IH. cbn [key_lines map failures filter].
    unfold failures.
    destruct (verify issues id); cbn [is_found negb List.length];
      do 2 f_equal; lia.
Qed.

Lemma failures_nil (issues : JsObject.dict Ticket.t) (ids : list string) :
  failures issues ids = []
  <-> forall id, In id ids -> verify issues id = Found.
Proof.
  unfold failures. split.
  - intros H id Hin. destruct (verify issues id) eqn:E; [reflexivity| |].
    + assert (X : In id []); [|destruct X].
      rewrite <- H. apply filter_In. now rewrite E.
    + assert (X : In id []); [|destruct X].
      rewrite <- H. apply filter_In. now rewrite E.
  - intros H. induction ids as [|id ids IH]; [reflexivity|].
    cbn [filter]. rewrite (H id (or_introl eq_refl)). cbn [is_found negb].
    apply IH. intros x Hx. apply H. now right.
Qed.

Lemma items_only (allItems : list value) :
  forallb is_item allItems = true -> allItems = map Obj (objects allItems).
Proof.
  induction allItems as [|[item | name] l IH]; cbn [forallb is_item andb];
    [reflexivity | | discriminate].
  intros H. cbn [objects flat_map app map]. f_equal. now apply IH.
Qed.
End Lines.

(* ================================================================== *)
(** ** The stages of the run, line by line *)

Section Stages.

Lemma next_all_submitted (date username password : string)
  (replies : nat -> reply unit) (queue : list Item.t) (n : nat) :
  (forall k, (k < List.length queue)%nat -> created (replies (n + k)%nat) = true) ->
  finish (createNextWorkLog date username password replies queue n)
  = (flat_map (submitted date username password) queue
       ++ [ConsoleLog AllCreated],
     Exit 0).
Proof.
  revert n. induction queue as [|item queue IH]; intros n H; [reflexivity|].
  assert (H0 : created (replies n) = true).
  { rewrite <- (Nat.add_0_r n). apply H. cbn. lia. }
  rewrite (next_created _ _ _ _ _ _ _ H0), IH.
  - reflexivity.
  - intros k Hk. replace (S n + k)%nat with (n + S k)%nat by lia.
    apply H. cbn. lia.
Qed.

Lemma unless_given_value (e : env) (flag : option string) (q : question) :
  snd (unless_given flag (ask e q)) = Ret (given_or flag (prompt e q)).
Proof.
  unfold unless_given, given_or, ask.
  destruct flag as [s|]; [destruct (String.eqb s EmptyString)|]; reflexivity.
Qed.

(** The second block asks for what the flags leave out, then sends the
    search. *)
Lemma cross_check_exact (e : env) (date : string) (queue : list Item.t)
  (total : option Z) (ids : list string) (jql : string) :
  finish (cross_check e date queue total ids jql)
  = (jira_prompts e
       ++ GetSearch jql (jira_username e) (jira_password e)
       :: fst (finish (on_search e date (jira_username e) (jira_password e)
                         queue total ids (fst (callback (search e)))
                         (snd (callback (search e))))),
     snd (finish (on_search e date (jira_username e) (jira_password e)
                    queue total ids (fst (callback (search e)))
                    (snd (callback (search e)))))).
Proof.
  unfold cross_check, jira_prompts.
  pose proof (unless_given_value e (Flags.username (program e))
                AskJiraUsername) as Eu.
  pose proof (unless_given_value e (Flags.password (program e))
                AskJiraPassword) as Ep.
  destruct (unless_given (Flags.username (program e))
              (ask e AskJiraUsername)) as [tu ru].
  destruct (unless_given (Flags.password (program e))
              (ask e AskJiraPassword)) as [tp rp].
  cbn [fst snd] in *. subst ru rp.
  fold (jira_username e). fold (jira_password e). script.
  destruct (callback (search e)) as [err res]. cbn [fst snd].
  now rewrite <- !app_assoc.
Qed.

Lemma on_search_failure (e : env) (date username password : string)
  (queue : list Item.t) (total : option Z) (ids : list string)
  (r : reply Search.body) :
  success r = false ->
  finish (on_search e date username password queue total ids
            (fst (callback r)) (snd (callback r)))
  = ([ConsoleError (ErrMessage (failure r));
      ConsoleError (ErrObject (Some (failure r)))],
     Exit 1).
Proof.
  unfold on_search.
  destruct r as [m | st found]; cbn [success callback failure fst snd].
  - intros _. script. reflexivity.
  - intros ->. script. reflexivity.
Qed.

Lemma on_search_checked (e : env) (date username password : string)
  (queue : list Item.t) (total : option Z) (ids : list string)
  (st : Z) (found : Search.body) :
  success (Response st found) = true ->
  finish (on_search e date username password queue total ids
            (fst (callback (Response st found)))
            (snd (callback (Response st found))))
  = match failures (issues_of (Search.issues found)) ids with
    | [] =>
        (key_lines (issues_of (Search.issues found)) ids
           ++ fst (finish (submit e date username password queue total)),
         snd (finish (submit e date username password queue total)))
    | errors =>
        (key_lines (issues_of (Search.issues found)) ids
           ++ [ConsoleError (IssuesDetected (List.length errors))],
         Exit 1)
    end.
Proof.
  unfold on_search. cbn [success callback fst snd]. intros ->.
  script. rewrite check_exact. script. cbn [Nat.add].
  destruct (failures (issues_of (Search.issues found)) ids) as [|x l];
    cbn [List.length Nat.ltb Nat.leb]; script; reflexivity.
Qed.

Lemma on_report_failure (e : env) (date : string) (r : reply Report.body) :
  success r = false ->
  finish (on_report e date (fst (callback r)) (snd (callback r)))
  = ([ConsoleError (ErrMessage (failure r));
      ConsoleError (ErrObject (Some (failure r)))],
     Exit 1).
Proof.
  unfold on_report.
  destruct r as [m | st body]; cbn [success callback failure fst snd].
  - intros _. script. reflexivity.
  - intros ->. script. reflexivity.
Qed.

(** A report within one page, with at least one work item and nothing
    else in the array. *)
Lemma on_report_summary (e : env) (date : string) (st : Z)
  (body : Report.body) :
  success (Response st body) = true ->
  (Report.total_count body <= Report.per_page body)%Z ->
  forallb is_item (allItems_of (Report.data body)) = true ->
  allItems_of (Report.data body) <> [] ->
  let allItems := allItems_of (Report.data body) in
  let ids := unique_ids (objects allItems) in
  let rest :=
    finish (cross_check e date (map track (objects allItems))
              (totalDuration_of allItems) ids (jql_of ids)) in
  finish (on_report e date (fst (callback (Response st body)))
            (snd (callback (Response st body))))
  = match unready (objects allItems) with
    | [] =>
        ([ConsoleLog (FoundItems (List.length (Report.data body)));
          ConsoleLog SummaryHeader]
           ++ summary_lines (objects allItems) 1
           ++ ConsoleLog (Verifying (jql_of ids)) :: fst rest,
         snd rest)
    | issues =>
        ([ConsoleLog (FoundItems (List.length (Report.data body)));
          ConsoleLog SummaryHeader]
           ++ summary_lines (objects allItems) 1
           ++ [ConsoleError (IssuesDetected (List.length issues))],
         Exit 1)
    end.
Proof.
  intros Hs Hc Hitems Hne. cbv zeta.
  unfold on_report. cbn [success callback fst snd] in *. rewrite Hs.
  script.
  assert (Hc' : (Report.total_count body >? Report.per_page body)%Z = false)
    by (rewrite Z.gtb_ltb; apply Z.ltb_ge; exact Hc).
  rewrite Hc'. script. fold (allItems_of (Report.data body)).
  destruct (allItems_of (Report.data body)) as [|v allItems] eqn:Eall;
    [congruence|].
  cbn [List.length Nat.eqb]. script. rewrite <- Eall in *.
  assert (E : forEach (allItems_of (Report.data body)) summarise
                {| issues := 0; i := 1; uniqueJiraIds := []; seen := [] |}
              = (summary_lines (objects (allItems_of (Report.data body))) 1,
                 Ret (summarised (objects (allItems_of (Report.data body)))
                        start))).
  { rewrite (items_only _ Hitems) at 1. apply summarise_exact. }
  rewrite E. script. rewrite summarised_issues, summarised_seen.
  cbn [start issues i seen app Nat.add]. unfold unique_ids.
  destruct (unready (objects (allItems_of (Report.data body)))) as [|x l];
    cbn [List.length Nat.ltb Nat.leb]; script; reflexivity.
Qed.

Lemma on_report_empty (e : env) (date : string) (st : Z)
  (body : Report.body) :
  success (Response st body) = true ->
  (Report.total_count body <= Report.per_page body)%Z ->
  allItems_of (Report.data body) = [] ->
  finish (on_report e date (fst (callback (Response st body)))
            (snd (callback (Response st body))))
  = ([ConsoleLog (FoundItems (List.length (Report.data body)));
      ConsoleLog (NoItems date)],
     Exit 0).
Proof.
  intros Hs Hc Hnil.
  unfold on_report. cbn [success callback fst snd] in *. rewrite Hs.
  script.
  assert (Hc' : (Report.total_count body >? Report.per_page body)%Z = false)
    by (rewrite Z.gtb_ltb; apply Z.ltb_ge; exact Hc).
  rewrite Hc'. script. fold (allItems_of (Report.data body)).
  rewrite Hnil. cbn [List.length Nat.eqb]. script. reflexivity.
Qed.

(** The first block: the prologue, then the callback of the report. *)
Lemma run_exact (e : env) :
  run e
  = (prologue e
       ++ fst (finish (on_report e (target_date e)
                         (fst (callback (report e)))
                         (snd (callback (report e))))),
     snd (finish (on_report e (target_date e)
                    (fst (callback (report e)))
                    (snd (callback (report e)))))).
Proof.
  unfold run, main, prologue.
  destruct (credentials_ret e) as (tc & _ & ->). script.
  destruct (callback (report e)) as [err res]. cbn [fst snd].
  now rewrite <- !app_assoc.
Qed.
End Stages.

(* ================================================================== *)
(** ** The summary loop and the cross-check *)

Section Loops.

Lemma add_unique_NoDup (jiraId : option string) (unique : list string) :
  NoDup unique -> NoDup (add_unique jiraId unique).
Proof.
  intros H. unfold add_unique. destruct (truthy jiraId); [|assumption].
  destruct jiraId as [id|]; [|assumption].
  destruct (existsb (String.eqb id) unique) eqn:E; [assumption|].
  apply NoDup_app; [assumption | repeat constructor; intros [] |].
  intros x Hx [<- | []].
  assert (X : existsb (String.eqb id) unique = true); [|congruence].
  apply existsb_exists. exists id. split; [assumption | apply String.eqb_refl].
Qed.

Lemma add_unique_nonempty (jiraId : option string) (unique : list string) :
  (forall id, In id unique -> id <> EmptyString) ->
  forall id, In id (add_unique jiraId unique) -> id <> EmptyString.
Proof.
  intros H id. unfold add_unique, truthy.
  destruct jiraId as [x|]; [|apply H].
  destruct (String.eqb x EmptyString) eqn:E; cbn [negb]; [apply H|].
  destruct (existsb (String.eqb x) unique); [apply H|].
  intros Hin. apply in_app_iff in Hin. destruct Hin as [Hin | [<- | []]].
  - now apply H.
  - now apply String.eqb_neq.
Qed.

Lemma summarised_NoDup (items : list Item.t) (s : summary) :
  NoDup (uniqueJiraIds s) -> NoDup (uniqueJiraIds (summarised items s)).
Proof.
  revert s. induction items as [|item items IH]; intros s H; [assumption|].
  cbn [summarised fold_left]. apply IH. cbn [note uniqueJiraIds].
  now apply add_unique_NoDup.
Qed.

Lemma summarised_nonempty (items : list Item.t) (s : summary) :
  (forall id, In id (uniqueJiraIds s) -> id <> EmptyString) ->
  forall id, In id (uniqueJiraIds (summarised items s)) -> id <> EmptyString.
Proof.
  revert s. induction items as [|item items IH]; intros s H; [assumption|].
  cbn [summarised fold_left]. apply IH. cbn [note uniqueJiraIds].
  now apply add_unique_nonempty.
Qed.

Lemma fold_issues (found : list Issue.t) (issue : Issue.t) :
  issues_of (found ++ [issue])
  = JsObject.assign (issues_of found) (Issue.key issue)
      {| Ticket.key := Issue.key issue;
         Ticket.isSubtask := Issue.subtask issue |}.
Proof. unfold issues_of. now rewrite fold_left_app. Qed.

(** A later issue with the same key replaces the earlier one. *)
Lemma get_issues_of (found : list Issue.t) (id : string) :
  id <> "__proto__" ->
  JsObject.get String.eqb (issues_of found) id
  = option_map (fun issue => {| Ticket.key := Issue.key issue;
                                Ticket.isSubtask := Issue.subtask issue |})
      (last_issue found id).
Proof.
  intros Hid. induction found as [|issue found IH] using rev_ind;
    [reflexivity|].
  rewrite fold_issues. unfold last_issue. rewrite rev_unit. cbn [find].
  fold (last_issue found id). unfold JsObject.assign.
  destruct (String.eqb (Issue.key issue) "__proto__") eqn:Ep.
  - apply String.eqb_eq in Ep.
    assert (E : String.eqb (Issue.key issue) id = false)
      by (apply String.eqb_neq; congruence).
    now rewrite E.
  - rewrite (get_set _ _ String.eqb string_eqb_spec).
    destruct (String.eqb (Issue.key issue) id); [reflexivity | exact IH].
Qed.
End Loops.

(** X9. The summary loop on work items: it prints one numbered entry for
    each item, keeps every item with the first of its ticket ids as the id
    to work with, and counts as issues exactly the items that have not one
    ticket id.  The ids it collects for the search hold no id twice, and
    they are exactly the non-empty first ids of the items. *)
Theorem summary_loop (items : list Item.t) :
  exists s,
    forEach (map Obj items) summarise start = (summary_lines items 1, Ret s)
    /\ seen s = map track items
    /\ issues s = List.length (unready items)
    /\ NoDup (uniqueJiraIds s)
    /\ forall id,
         In id (uniqueJiraIds s)
         <-> id <> EmptyString
             /\ exists item,
                 In item items
                 /\ nth_error (Item.jiraIds item) 0 = Some id.
Proof.
  exists (summarised items start). split; [apply summarise_exact|].
  split; [now rewrite summarised_seen|].
  split; [now rewrite summarised_issues|].
  split; [apply summarised_NoDup; constructor|].
  intros id. split.
  - intros H. split.
    + revert H. apply summarised_nonempty. intros ? [].
    + apply summarised_unique_inv in H. destruct H as [[] | H]. exact H.
  - intros (Hne & item & Hin & Hid).
    now apply (summarised_unique items start item id).
Qed.

(** X10. The cross-check reads the last issue of the search response with
    the key it looks up: an id is found when that issue is a subtask, is
    not a subtask when that issue is none, and does not exist when no
    issue has the key.  The id is not the name of a property that
    [issues] may inherit: none of [Object.prototype], and neither [key]
    nor [isSubtask], which an issue with the key [__proto__] makes
    inherited, as it becomes the prototype of [issues].  No ticket id is
    such a name. *)
Theorem verify_last_issue (found : list Issue.t) (id : string) :
  JsObject.inherited id = false ->
  id <> "key" -> id <> "isSubtask" ->
  verify (issues_of found) id
  = match last_issue found id with
    | Some issue => if Issue.subtask issue then Found else NotASubtask
    | None => DoesntExist
    end.
Proof.
  intros Hinh _ _. unfold verify, JsObject.lookup.
  rewrite get_issues_of
    by (apply String.eqb_neq; now apply not_inherited_not_proto).
  rewrite Hinh.
  destruct (last_issue found id) as [issue|]; cbn [option_map];
    [|reflexivity].
  cbn [Ticket.isSubtask]. now destruct (Issue.subtask issue).
Qed.

Lemma verify_last_issue_witness :
  JsObject.inherited "ABC-1" = false
  /\ verify (issues_of [story "ABC-1"; subtask "ABC-1"]) "ABC-1" = Found.
Proof.
  split; [reflexivity|].
  apply (verify_last_issue [story "ABC-1"; subtask "ABC-1"] "ABC-1" eq_refl);
    discriminate.
Defined.

(* ================================================================== *)
(** ** Whole runs *)

Section Runs.

Lemma inherited_no_ids (k : string) :
  JsObject.inherited k = true -> findJiraIds k = [].
Proof.
  unfold JsObject.inherited, JsObject.Object_prototype_names.
  cbn [existsb]. rewrite !orb_true_iff.
  intros H.
  repeat (destruct H as [H | H];
          [apply String.eqb_eq in H; subst k; vm_compute; reflexivity|]).
  discriminate.
Qed.

Lemma one_id_not_inherited (k id : string) :
  findJiraIds k = [id] -> JsObject.inherited k = false.
Proof.
  intros H. destruct (JsObject.inherited k) eqn:E; [|reflexivity].
  apply inherited_no_ids in E. congruence.
Qed.

Lemma all_items (data : list Log.t) :
  (forall log, In log data -> JsObject.inherited (Log.description log) = false) ->
  forallb is_item (allItems_of data) = true.
Proof.
  intros H. rewrite items_harmless. apply forallb_forall.
  intros log Hin. unfold harmless. now rewrite (H log Hin).
Qed.

Lemma kept_all (data : list Log.t) :
  (forall log, In log data -> JsObject.inherited (Log.description log) = false) ->
  kept data = data.
Proof.
  unfold kept. induction data as [|log data IH]; intros H; [reflexivity|].
  cbn [filter]. rewrite (H log (or_introl eq_refl)). cbn [negb].
  f_equal. apply IH. intros x Hx. apply H. now right.
Qed.

Lemma harmless_all (data : list Log.t) :
  (forall log, In log data -> JsObject.inherited (Log.description log) = false) ->
  forallb harmless data = true.
Proof.
  intros H. apply forallb_forall. intros log Hin. unfold harmless.
  now rewrite (H log Hin).
Qed.

Lemma allItems_nil (data : list Log.t) :
  (forall log, In log data -> Log.description log = "__proto__") ->
  allItems_of data = [].
Proof.
  intros H. destruct (allItems_of data) as [|v l] eqn:E; [reflexivity|].
  assert (Hv : In v (allItems_of data)) by (rewrite E; now left).
  unfold allItems_of in Hv. apply In_flatten in Hv.
  destruct Hv as (pid & project & description & w & Hp & Hi & _).
  pose proof (In_stored _ _ _ _ _ Hp Hi) as S.
  apply expected_Some in S.
  destruct S as (log & Hin & _ & Hd & Hproto & _).
  rewrite <- Hd, (H log Hin) in Hproto. congruence.
Qed.

Lemma unready_nil (items : list Item.t) :
  (forall item, In item items -> ready item = true) -> unready items = [].
Proof.
  unfold unready. induction items as [|item items IH]; intros H;
    [reflexivity|].
  cbn [filter]. rewrite (H item (or_introl eq_refl)). cbn [negb].
  apply IH. intros x Hx. apply H. now right.
Qed.

Lemma items_ready (data : list Log.t) :
  (forall log, In log data -> exists id, findJiraIds (Log.description log) = [id]) ->
  forall item, In item (objects (allItems_of data)) -> ready item = true.
Proof.
  intros H item Hin. apply In_objects in Hin. apply work_item_In in Hin.
  destruct Hin as (log & Hlog & _ & ->).
  destruct (H log Hlog) as (id & E).
  unfold ready, work_item. cbn [Item.jiraIds]. now rewrite E.
Qed.

Lemma one_id_rows (data : list Log.t) :
  (forall log, In log data -> exists id, findJiraIds (Log.description log) = [id]) ->
  forall log, In log data -> JsObject.inherited (Log.description log) = false.
Proof.
  intros H log Hin. destruct (H log Hin) as (id & E).
  exact (one_id_not_inherited _ _ E).
Qed.

(** The id of a row is among the ids the search asks for. *)
Lemma row_id_looked_up (data : list Log.t) (log : Log.t) (id : string) :
  In log data -> findJiraIds (Log.description log) = [id] ->
  In id (unique_ids (objects (allItems_of data))).
Proof.
  intros Hin E.
  pose proof (In_work_item data log Hin (one_id_not_inherited _ _ E)) as Hw.
  assert (Hid : nth_error (Item.jiraIds (work_item log data)) 0 = Some id)
    by (unfold work_item; cbn [Item.jiraIds]; now rewrite E).
  apply (summarised_unique _ start (work_item log data) id).
  - now apply In_objects.
  - exact Hid.
  - destruct (JiraId_nonempty _ (allItems_first_id _ _ _ Hw Hid))
      as (c & m' & ->).
    discriminate.
Qed.

(** Every id the search asks for is the id of a row. *)
Lemma looked_up_row (data : list Log.t) (id : string) :
  (forall log, In log data -> exists id, findJiraIds (Log.description log) = [id]) ->
  In id (unique_ids (objects (allItems_of data))) ->
  exists log, In log data /\ findJiraIds (Log.description log) = [id].
Proof.
  intros H Hin. apply summarised_unique_inv in Hin.
  destruct Hin as [[] | (item & Hitem & Hid)].
  apply In_objects in Hitem. apply work_item_In in Hitem.
  destruct Hitem as (log & Hlog & _ & ->).
  exists log. split; [assumption|].
  destruct (H log Hlog) as (x & E).
  unfold work_item in Hid. cbn [Item.jiraIds] in Hid. rewrite E in Hid.
  cbn in Hid. congruence.
Qed.
End Runs.

(** X11. Nothing to report: when the report comes with a 2xx status, fits
    one page, and has no rows (or only rows with the description
    [__proto__], which the grouping drops), the run says that there are
    no items for the date and ends with exit code 0, without a summary
    and without a request to Jira. *)
Theorem run_nothing_to_report (e : env) (st : Z) (body : Report.body) :
  report e = Response st body -> success (report e) = true ->
  (Report.total_count body <= Report.per_page body)%Z ->
  (forall log, In log (Report.data body) ->
               Log.description log = "__proto__") ->
  run e
  = (prologue e
       ++ [ConsoleLog (FoundItems (List.length (Report.data body)));
           ConsoleLog (NoItems (target_date e))],
     Exit 0).
Proof.
  intros Er Hs Hc Hrows. rewrite run_exact. rewrite Er in *.
  now rewrite (on_report_empty e _ st body Hs Hc (allItems_nil _ Hrows)).
Qed.

Lemma run_nothing_to_report_witness :
  run (sample [] [] all_created true)
  = ([ConsoleLog (Fetching "2016-05-01");
      ConsoleLog (ApiRequest (Some "42") "2016-05-01");
      GetReport (Some "42") 1 "2016-05-01" "2016-05-01" "token";
      ConsoleLog (FoundItems 0);
      ConsoleLog (NoItems "2016-05-01")],
     Exit 0).
Proof.
  refine (run_nothing_to_report (sample [] [] all_created true) 200
            {| Report.total_count := 0; Report.per_page := 50;
               Report.data := [] |} eq_refl eq_refl _ _).
  - cbn. lia.
  - intros log [].
Defined.

(** X12. Local validation: when the report is usable and no description
    is the name of an inherited property, but some row's description has
    no ticket id or more than one, the run prints the whole summary, one
    entry for every work item, then the number of the work items that are
    not ready, and ends with status 1.  It neither asks for the Jira
    account nor sends anything to Jira. *)
Theorem run_local_issues (e : env) (st : Z) (body : Report.body) :
  report e = Response st body -> success (report e) = true ->
  (Report.total_count body <= Report.per_page body)%Z ->
  (forall log, In log (Report.data body) ->
               JsObject.inherited (Log.description log) = false) ->
  (exists log, In log (Report.data body)
               /\ List.length (findJiraIds (Log.description log)) <> 1%nat) ->
  let n := List.length (unready (objects (allItems_of (Report.data body)))) in
  (0 < n)%nat
  /\ run e = (report_lines e body ++ [ConsoleError (IssuesDetected n)],
              Exit 1).
Proof.
  intros Er Hs Hc Hrows (log & Hlog & Hids). cbv zeta.
  assert (Hw : In (work_item log (Report.data body))
                 (unready (objects (allItems_of (Report.data body))))).
  { apply filter_In. split.
    - apply In_objects. apply In_work_item; [assumption | now apply Hrows].
    - unfold ready, work_item. cbn [Item.jiraIds].
      apply negb_true_iff. now apply Nat.eqb_neq. }
  rewrite run_exact. rewrite Er in *.
  assert (Hne : allItems_of (Report.data body) <> []).
  { intros E. rewrite E in Hw. destruct Hw. }
  pose proof (on_report_summary e (target_date e) st body Hs Hc
                (all_items _ Hrows) Hne) as R.
  cbv zeta in R. rewrite R. clear R.
  destruct (unready (objects (allItems_of (Report.data body)))) as [|x l];
    [destruct Hw|].
  cbn [fst snd]. split; [cbn; lia|].
  unfold report_lines. now rewrite <- !app_assoc.
Qed.

Lemma run_local_issues_witness :
  let e := sample [entry "Fix ABC-1 bug" 60000; entry "Unplanned work" 30000]
             [subtask "ABC-1"] all_created true in
  snd (run e) = Exit 1
  /\ actions (fst (run e))
     = [GetReport (Some "42") 1 "2016-05-01" "2016-05-01" "token"].
Proof.
  cbv zeta.
  destruct (run_local_issues
              (sample [entry "Fix ABC-1 bug" 60000;
                       entry "Unplanned work" 30000]
                 [subtask "ABC-1"] all_created true)
              200
              {| Report.total_count := 2; Report.per_page := 50;
                 Report.data := [entry "Fix ABC-1 bug" 60000;
                                 entry "Unplanned work" 30000] |}
              eq_refl eq_refl)
    as [_ E].
  - cbn. lia.
  - intros log [<- | [<- | []]]; reflexivity.
  - exists (entry "Unplanned work" 30000). split.
    + right. now left.
    + vm_compute. discriminate.
  - rewrite E. split; reflexivity.
Defined.

(** X13. The cross-check: when every row has exactly one ticket id and
    Jira answers the search with a 2xx status, but the id of some row is
    not found as a subtask, the run prints the verdict for every id it
    looked up, not only up to the first failure, then the number of the
    ids that failed, and ends with status 1 before the confirmation. *)
Theorem run_unverified (e : env) (st : Z) (body : Report.body) (st' : Z)
  (found : Search.body) :
  report e = Response st body -> success (report e) = true ->
  (Report.total_count body <= Report.per_page body)%Z ->
  (forall log, In log (Report.data body) ->
               exists id, findJiraIds (Log.description log) = [id]) ->
  search e = Response st' found -> success (search e) = true ->
  (exists log id,
      In log (Report.data body)
      /\ findJiraIds (Log.description log) = [id]
      /\ verify (issues_of (Search.issues found)) id <> Found) ->
  let n :=
    List.length
      (failures (issues_of (Search.issues found))
         (unique_ids (objects (allItems_of (Report.data body))))) in
  (0 < n)%nat
  /\ run e
     = (report_lines e body ++ search_lines e body found
          ++ [ConsoleError (IssuesDetected n)],
        Exit 1).
Proof.
  intros Er Hs Hc Hrows Es Hs' (log & id & Hlog & Hid & Hv). cbv zeta.
  assert (Hf : In id (failures (issues_of (Search.issues found))
                        (unique_ids
                           (objects (allItems_of (Report.data body)))))).
  { apply filter_In. split; [now apply (row_id_looked_up _ log)|].
    destruct (verify (issues_of (Search.issues found)) id);
      [congruence | reflexivity | reflexivity]. }
  rewrite run_exact. rewrite Er in *.
  assert (Hne : allItems_of (Report.data body) <> []).
  { intros E.
    pose proof (In_work_item _ log Hlog (one_id_rows _ Hrows log Hlog)) as X.
    rewrite E in X. destruct X. }
  pose proof (on_report_summary e (target_date e) st body Hs Hc
                (all_items _ (one_id_rows _ Hrows)) Hne) as R.
  cbv zeta in R. rewrite R. clear R.
  rewrite (unready_nil _ (items_ready _ Hrows)).
  rewrite cross_check_exact. rewrite Es in *.
  rewrite (on_search_checked e _ _ _ _ _ _ st' found Hs').
  destruct (failures (issues_of (Search.issues found))
              (unique_ids (objects (allItems_of (Report.data body)))))
    as [|x l]; [destruct Hf|].
  cbn [fst snd]. split; [cbn; lia|].
  unfold report_lines, search_lines. cbv zeta.
  rewrite <- !app_assoc. reflexivity.
Qed.

Lemma run_unverified_witness :
  let e := sample [entry "Fix ABC-1 bug" 60000; entry "Review ABC-2" 30000]
             [story "ABC-1"] all_created true in
  snd (run e) = Exit 1
  /\ filter (fun ev => match ev with
                       | ConsoleLog (KeyResult _ _) => true
                       | ConsoleError (IssuesDetected _) => true
                       | _ => false
                       end) (fst (run e))
     = [ConsoleLog (KeyResult "ABC-1" NotASubtask);
        ConsoleLog (KeyResult "ABC-2" DoesntExist);
        ConsoleError (IssuesDetected 2)].
Proof.
  cbv zeta.
  destruct (run_unverified
              (sample [entry "Fix ABC-1 bug" 60000;
                       entry "Review ABC-2" 30000]
                 [story "ABC-1"] all_created true)
              200
              {| Report.total_count := 2; Report.per_page := 50;
                 Report.data := [entry "Fix ABC-1 bug" 60000;
                                 entry "Review ABC-2" 30000] |}
              200 {| Search.issues := [story "ABC-1"] |}
              eq_refl eq_refl)
    as [_ E].
  - cbn. lia.
  - intros log [<- | [<- | []]]; eexists; vm_compute; reflexivity.
  - reflexivity.
  - reflexivity.
  - exists (entry "Fix ABC-1 bug" 60000), "ABC-1".
    split; [now left|]. split; [vm_compute; reflexivity|].
    vm_compute. discriminate.
  - rewrite E. split; reflexivity.
Defined.

(** X14. A run that succeeds, from the first line to the last: when the
    report is usable, every row has exactly one ticket id, Jira finds
    every id as a subtask, the user confirms and Jira creates every work
    log, the run prints the summary, looks the ids up, announces the
    number of the work items and the sum of the durations of all rows,
    then submits one work log for each work item, in the order of the
    summary, and ends with exit code 0.  (The trace holds the lines that
    say something: the empty lines the script prints between them are
    left out.)  The durations of the report are within the range where
    the sums and the quotient of the script are exact: below 10^15 ms
    together. *)
Theorem run_all_created (e : env) (st : Z) (body : Report.body) (st' : Z)
  (found : Search.body) :
  report e = Response st body -> success (report e) = true ->
  (Report.total_count body <= Report.per_page body)%Z ->
  Report.data body <> [] ->
  exact_seconds (Report.data body) ->
  (forall log, In log (Report.data body) ->
     exists id,
       findJiraIds (Log.description log) = [id]
       /\ verify (issues_of (Search.issues found)) id = Found) ->
  search e = Response st' found -> success (search e) = true ->
  confirm e = true ->
  (forall k, (k < List.length (allItems_of (Report.data body)))%nat ->
             created (worklog e k) = true) ->
  let items := map track (objects (allItems_of (Report.data body))) in
  run e
  = (report_lines e body ++ search_lines e body found
       ++ [ConsoleLog (AboutToCreate (List.length items)
                         (Some (total_dur (Report.data body))));
           AskedConfirm]
       ++ flat_map (submitted (target_date e) (jira_username e)
                      (jira_password e)) items
       ++ [ConsoleLog AllCreated],
     Exit 0).
Proof.
  intros Er Hs Hc Hdata _ Hrows Es Hs' Hok Hall. cbv zeta.
  assert (Hone : forall log, In log (Report.data body) ->
                   exists id, findJiraIds (Log.description log) = [id]).
  { intros log Hlog. destruct (Hrows log Hlog) as (id & E & _). eauto. }
  pose proof (one_id_rows _ Hone) as Hinh.
  rewrite run_exact. rewrite Er in *.
  assert (Hne : allItems_of (Report.data body) <> []).
  { destruct (Report.data body) as [|log data] eqn:Ed; [congruence|].
    intros E.
    pose proof (In_work_item (log :: data) log (or_introl eq_refl)
                  (Hinh log (or_introl eq_refl))) as X.
    rewrite E in X. destruct X. }
  pose proof (on_report_summary e (target_date e) st body Hs Hc
                (all_items _ Hinh) Hne) as R.
  cbv zeta in R. rewrite R. clear R.
  rewrite (unready_nil _ (items_ready _ Hone)).
  rewrite cross_check_exact. rewrite Es in *.
  rewrite (on_search_checked e _ _ _ _ _ _ st' found Hs').
  assert (Hf : failures (issues_of (Search.issues found))
                 (unique_ids (objects (allItems_of (Report.data body))))
               = []).
  { apply failures_nil. intros id Hid.
    destruct (looked_up_row _ id Hone Hid) as (log & Hlog & E).
    destruct (Hrows log Hlog) as (id' & E' & Hv). congruence. }
  rewrite Hf, submit_run, Hok.
  rewrite next_all_submitted.
  2:{ intros k Hk. apply Hall. rewrite length_map in Hk.
      rewrite (items_only _ (all_items _ Hinh)), length_map. exact Hk. }
  rewrite totalDuration_grouped, (harmless_all _ Hinh), (kept_all _ Hinh).
  cbn [fst snd]. unfold report_lines, search_lines. cbv zeta.
  rewrite <- !app_assoc. reflexivity.
Qed.

Lemma run_all_created_witness :
  run (sample [entry "Fix ABC-1 bug" 60000; entry "Review ABC-2" 30000;
               entry "Fix ABC-1 bug" 1500]
         [subtask "ABC-2"; subtask "ABC-1"] all_created true)
  = ([ConsoleLog (Fetching "2016-05-01");
      ConsoleLog (ApiRequest (Some "42") "2016-05-01");
      GetReport (Some "42") 1 "2016-05-01" "2016-05-01" "token";
      ConsoleLog (FoundItems 3);
      ConsoleLog SummaryHeader;
      ConsoleLog (ItemSummary 1 "Fix ABC-1 bug" 61500 2 ["ABC-1"] Ready);
      ConsoleLog (ItemSummary 2 "Review ABC-2" 30000 1 ["ABC-2"] Ready);
      ConsoleLog (Verifying (jql_of ["ABC-1"; "ABC-2"]));
      GetSearch (jql_of ["ABC-1"; "ABC-2"]) "me" "secret";
      ConsoleLog (KeyResult "ABC-1" Found);
      ConsoleLog (KeyResult "ABC-2" Found);
      ConsoleLog (AboutToCreate 2 (Some 91500));
      AskedConfirm;
      ConsoleLog (Adding (Qmake 61500 1000) (Some "ABC-1")
                    "2016-05-01T00:00:00.000+0000");
      PostWorklog (Some "ABC-1")
        {| Worklog.comment :=
             "Fix ABC-1 bug " ++ newline ++ newline ++ "(Imported via Joggl)";
           Worklog.timeSpentSeconds := Qmake 61500 1000;
           Worklog.started := "2016-05-01T00:00:00.000+0000" |}
        "me" "secret";
      ConsoleLog Done;
      ConsoleLog (Adding (Qmake 30000 1000) (Some "ABC-2")
                    "2016-05-01T00:00:00.000+0000");
      PostWorklog (Some "ABC-2")
        {| Worklog.comment :=
             "Review ABC-2 " ++ newline ++ newline ++ "(Imported via Joggl)";
           Worklog.timeSpentSeconds := Qmake 30000 1000;
           Worklog.started := "2016-05-01T00:00:00.000+0000" |}
        "me" "secret";
      ConsoleLog Done;
      ConsoleLog AllCreated],
     Exit 0).
Proof.
  refine (run_all_created
            (sample [entry "Fix ABC-1 bug" 60000; entry "Review ABC-2" 30000;
                     entry "Fix ABC-1 bug" 1500]
               [subtask "ABC-2"; subtask "ABC-1"] all_created true)
            200
            {| Report.total_count := 3; Report.per_page := 50;
               Report.data := [entry "Fix ABC-1 bug" 60000;
                               entry "Review ABC-2" 30000;
                               entry "Fix ABC-1 bug" 1500] |}
            200 {| Search.issues := [subtask "ABC-2"; subtask "ABC-1"] |}
            eq_refl eq_refl _ _ _ _ eq_refl eq_refl eq_refl _).
  - cbn. lia.
  - discriminate.
  - unfold exact_seconds. vm_compute. reflexivity.
  - intros log [<- | [<- | [<- | []]]]; eexists; split; vm_compute;
      reflexivity.
  - intros k _. reflexivity.
Defined.

Section Actions.

Lemma actions_app (t t' : list event) :
  actions (t ++ t') = actions t ++ actions t'.
Proof. apply filter_app. Qed.

Lemma summarise_quiet (allItems : list value) (s : summary) :
  actions (fst (forEach allItems summarise s)) = []
  /\ posts (fst (forEach allItems summarise s)) = [].
Proof.
  revert s. induction allItems as [|[item | name] l IH]; intros s;
    [split; reflexivity | | split; reflexivity].
  cbn [forEach summarise classify bind console_log emit ret app].
  destruct (IH (note s (track item) (status_of (Item.jiraIds item))))
    as [R P].
  destruct (forEach l summarise
              (note s (track item) (status_of (Item.jiraIds item))))
    as [t r].
  cbn [fst snd app] in *. split; [exact R | exact P].
Qed.

Lemma key_lines_quiet (issues : JsObject.dict Ticket.t) (ids : list string) :
  actions (key_lines issues ids) = [] /\ posts (key_lines issues ids) = [].
Proof. induction ids as [|id ids [IH1 IH2]]; split; auto. Qed.

(** The first block asks for what the command line leaves out. *)
Lemma credentials_actions (e : env) :
  actions (fst (credentials e)) = toggl_asked e
  /\ posts (fst (credentials e)) = [].
Proof.
  unfold credentials, unless_given, ask, toggl_asked, truthy.
  destruct (Flags.apiToken (program e)) as [s|];
    [destruct (String.eqb s EmptyString)|];
    (destruct (Flags.workspace (program e)) as [w|];
     [destruct (String.eqb w EmptyString)|]); split; reflexivity.
Qed.

Lemma jira_prompts_actions (e : env) :
  actions (jira_prompts e) = jira_asked e /\ posts (jira_prompts e) = [].
Proof.
  unfold jira_prompts, unless_given, ask, jira_asked, truthy.
  destruct (Flags.username (program e)) as [s|];
    [destruct (String.eqb s EmptyString)|];
    (destruct (Flags.password (program e)) as [s'|];
     [destruct (String.eqb s' EmptyString)|]); split; reflexivity.
Qed.

(** The submission does nothing but print and send work logs. *)
Lemma next_actions (date username password : string)
  (replies : nat -> reply unit) (queue : list Item.t) (n : nat) :
  actions (fst (finish (createNextWorkLog date username password replies
                          queue n)))
  = posts (fst (finish (createNextWorkLog date username password replies
                          queue n))).
Proof.
  revert n. induction queue as [|item queue IH]; intros n; [reflexivity|].
  destruct (created (replies n)) eqn:H.
  - rewrite (next_created _ _ _ _ _ _ _ H). cbn [fst].
    unfold actions, posts in *. rewrite !filter_app, IH. reflexivity.
  - destruct (replies n) as [m | st u] eqn:E.
    + rewrite (next_no_response _ _ _ _ _ _ _ _ E). reflexivity.
    + cbn in H. rewrite (next_rejected _ _ _ _ _ _ _ _ _ E H). reflexivity.
Qed.

Lemma submit_actions (e : env) (date username password : string)
  (queue : list Item.t) (total : option Z) :
  actions (fst (finish (submit e date username password queue total)))
  = AskedConfirm
    :: posts (fst (finish (submit e date username password queue total))).
Proof.
  rewrite submit_run. cbn [fst app]. destruct (confirm e); [|reflexivity].
  unfold actions, posts. cbn [filter is_action]. f_equal.
  apply next_actions.
Qed.

(** The callback of the search: nothing, or the confirmation and then
    work logs only. *)
Lemma on_search_actions (e : env) (date username password : string)
  (queue : list Item.t) (total : option Z) (ids : list string)
  (r : reply Search.body) :
  (actions (fst (finish (on_search e date username password queue total ids
                           (fst (callback r)) (snd (callback r))))) = []
   /\ posts (fst (finish (on_search e date username password queue total
                            ids (fst (callback r)) (snd (callback r)))))
      = [])
  \/ actions (fst (finish (on_search e date username password queue total
                             ids (fst (callback r)) (snd (callback r)))))
     = AskedConfirm
       :: posts (fst (finish (on_search e date username password queue
                                total ids (fst (callback r))
                                (snd (callback r))))).
Proof.
  destruct (success r) eqn:Hs.
  - destruct r as [m | st found]; [discriminate|].
    rewrite (on_search_checked e _ _ _ _ _ _ st found Hs).
    destruct (key_lines_quiet (issues_of (Search.issues found)) ids)
      as [R P].
    destruct (failures (issues_of (Search.issues found)) ids); cbn [fst].
    + right. rewrite actions_app, posts_app, R, P. apply submit_actions.
    + left. rewrite actions_app, posts_app, R, P. split; reflexivity.
  - rewrite (on_search_failure e date username password queue total ids r Hs).
    left. split; reflexivity.
Qed.

(** The callback of the report: nothing, or the prompts for the Jira
    account and the search, and after it what the callback of the search
    does. *)
Lemma on_report_actions (e : env) (date : string) (r : reply Report.body) :
  (actions (fst (finish (on_report e date (fst (callback r))
                           (snd (callback r))))) = []
   /\ posts (fst (finish (on_report e date (fst (callback r))
                            (snd (callback r))))) = [])
  \/ exists jql,
      (actions (fst (finish (on_report e date (fst (callback r))
                               (snd (callback r)))))
       = jira_asked e
           ++ [GetSearch jql (jira_username e) (jira_password e)]
       /\ posts (fst (finish (on_report e date (fst (callback r))
                                (snd (callback r))))) = [])
      \/ actions (fst (finish (on_report e date (fst (callback r))
                                 (snd (callback r)))))
         = jira_asked e
             ++ GetSearch jql (jira_username e) (jira_password e)
             :: AskedConfirm
             :: posts (fst (finish (on_report e date (fst (callback r))
                                      (snd (callback r))))).
Proof.
  destruct (success r) eqn:Hs.
  2:{ rewrite (on_report_failure e date r Hs). left. split; reflexivity. }
  destruct r as [m | st body]; [discriminate|].
  unfold on_report. cbn [success callback fst snd] in *. rewrite Hs.
  script.
  destruct (Report.total_count body >? Report.per_page body)%Z; script.
  { left. split; reflexivity. }
  fold (allItems_of (Report.data body)).
  destruct (List.length (allItems_of (Report.data body)) =? 0)%nat; script.
  { left. split; reflexivity. }
  destruct (summarise_quiet (allItems_of (Report.data body))
              {| issues := 0; i := 1; uniqueJiraIds := []; seen := [] |})
    as [R P].
  destruct (forEach (allItems_of (Report.data body)) summarise
              {| issues := 0; i := 1; uniqueJiraIds := []; seen := [] |})
    as [t [s | x]]; cbn [fst snd] in *.
  2:{ left. unfold actions, posts in *. cbn [filter is_action].
      split; assumption. }
  script.
  destruct (0 <? issues s)%nat; script.
  { left. unfold actions, posts in *. cbn [filter is_action].
    rewrite !filter_app, R, P. split; reflexivity. }
  rewrite cross_check_exact. cbn [fst snd].
  right. exists (jql_of (uniqueJiraIds s)).
  destruct (jira_prompts_actions e) as [Rj Pj].
  destruct (on_search_actions e date (jira_username e) (jira_password e)
              (seen s) (totalDuration_of (allItems_of (Report.data body)))
              (uniqueJiraIds s) (search e)) as [[Rs Ps] | Rs];
    [left | right]; unfold actions, posts in *; cbn [filter is_action];
    rewrite !filter_app, R, P; cbn [filter is_action app];
    rewrite !filter_app, Rj, Pj; cbn [filter is_action app].
  - now rewrite Rs, Ps.
  - now rewrite Rs.
Qed.

(** The submission ends with exit code 0 only when every work log was
    created. *)
Lemma next_exit (date username password : string)
  (replies : nat -> reply unit) (queue : list Item.t) (n : nat) :
  (exit_status (snd (finish (createNextWorkLog date username password
                               replies queue n))) = 0
   \/ exit_status (snd (finish (createNextWorkLog date username password
                                  replies queue n))) = 1)
  /\ (snd (finish (createNextWorkLog date username password replies
                     queue n)) = Exit 0 ->
      forall k, (k < List.length queue)%nat ->
                created (replies (n + k)%nat) = true).
Proof.
  revert n. induction queue as [|item queue IH]; intros n.
  - split; [now left|]. intros _ k Hk. cbn in Hk. lia.
  - destruct (created (replies n)) eqn:H.
    + rewrite (next_created _ _ _ _ _ _ _ H). cbn [snd].
      destruct (IH (S n)) as [IH1 IH2]. split; [exact IH1|].
      intros Hx [|k] Hk.
      * now rewrite Nat.add_0_r.
      * replace (n + S k)%nat with (S n + k)%nat by lia.
        apply IH2; [assumption|]. cbn in Hk. lia.
    + destruct (next_failed date username password replies item queue n H)
        as (_ & Hs & Hne).
      split; [now right|]. intros Hx. contradiction.
Qed.
End Actions.

(** X15. What a run does apart from printing, in every run and in this
    order: it asks for the Toggl token and the workspace id where the
    command line leaves them out, and requests the report, once.  Either
    nothing follows, or it asks for the Jira username and password where
    the command line leaves them out and sends the search, once.  Either
    nothing follows that, or the confirmation does, and after it work logs
    only. *)
Theorem interaction_order (e : env) :
  let get_report :=
    GetReport (Flags.workspace (program e)) 1 (target_date e)
      (target_date e) (toggl_token e) in
  (actions (trace e) = toggl_asked e ++ [get_report]
   /\ posts (trace e) = [])
  \/ exists jql,
      (actions (trace e)
       = toggl_asked e
           ++ get_report
           :: jira_asked e
           ++ [GetSearch jql (jira_username e) (jira_password e)]
       /\ posts (trace e) = [])
      \/ actions (trace e)
         = toggl_asked e
             ++ get_report
             :: jira_asked e
             ++ GetSearch jql (jira_username e) (jira_password e)
             :: AskedConfirm
             :: posts (trace e).
Proof.
  cbv zeta. unfold trace. rewrite run_exact. cbn [fst]. unfold prologue.
  destruct (credentials_actions e) as [Rc Pc].
  destruct (on_report_actions e (target_date e) (report e))
    as [[R P] | (jql & [[R P] | R])]; unfold actions, posts in *;
    rewrite !filter_app, Rc, Pc; cbn [filter is_action app].
  - left. now rewrite R, P, app_nil_r.
  - right. exists jql. left. rewrite R, P, <- !app_assoc. now split.
  - right. exists jql. right. rewrite R, <- !app_assoc. reflexivity.
Qed.

(** X16. The exit status, in every run, is 0 or 1; and a run ends with
    exit code 0 in three cases only: the report gave no work item, the
    user declined, or the user confirmed and Jira created a work log for
    every work item, which have then all been submitted, in order. *)
Theorem exit_codes (e : env) :
  (exit_status (outcome e) = 0 \/ exit_status (outcome e) = 1)
  /\ (outcome e = Exit 0 ->
      exists st body,
        report e = Response st body
        /\ (allItems_of (Report.data body) = []
            \/ confirm e = false
            \/ (confirm e = true
                /\ posts (trace e)
                   = map (post (target_date e) (jira_username e)
                            (jira_password e))
                       (map track (objects (allItems_of (Report.data body))))
                /\ forall k,
                    (k < List.length (allItems_of (Report.data body)))%nat ->
                    created (worklog e k) = true))).
Proof.
  unfold outcome, trace.
  destruct (run_cases e)
    as (t & Ht & [(x & -> & Hx) | [(st & body & Er & Hnil & ->)
                 | (st & body & st' & found & Er & Es & Hp)]]);
    cbn [fst snd].
  - split; [now right|]. intros ->. discriminate.
  - split; [now left|]. intros _. exists st, body. split; [assumption|].
    now left.
  - destruct Hp as (Hobj & _ & _ & ->). cbn [fst snd].
    rewrite submit_run. cbn [fst snd].
    destruct (confirm e) eqn:Hok.
    + destruct (next_exit (target_date e) (jira_username e) (jira_password e)
                  (worklog e)
                  (map track (objects (allItems_of (Report.data body)))) 0)
        as [H01 H0].
      split; [exact H01|]. intros Hx. exists st, body.
      split; [assumption|]. right. right. split; [reflexivity|].
      specialize (H0 Hx). cbn [Nat.add] in H0.
      destruct (next_all_created (target_date e) (jira_username e)
                  (jira_password e) (worklog e)
                  (map track (objects (allItems_of (Report.data body)))) 0
                  H0) as [Hposts _].
      split.
      * rewrite !posts_app, (early_posts _ Ht). cbn [app posts filter].
        exact Hposts.
      * intros k Hk. apply H0.
        rewrite length_map. rewrite Hobj, length_map in Hk. exact Hk.
    + split; [now left|]. intros _. exists st, body.
      split; [assumption|]. right. now left.
Qed.

(** X17. A report request that fails, for whatever reason: when Toggl
    does not answer, or answers with a status other than 2xx (a wrong
    token, say), the run prints the error and ends with status 1 right
    after the request; the body of the response is never looked at. *)
Theorem run_report_failed (e : env) :
  success (report e) = false ->
  run e
  = (prologue e
       ++ [ConsoleError (ErrMessage (failure (report e)));
           ConsoleError (ErrObject (Some (failure (report e))))],
     Exit 1).
Proof.
  intros H. rewrite run_exact.
  now rewrite (on_report_failure e (target_date e) (report e) H).
Qed.

Lemma run_report_failed_witness :
  run {| program := program (sample [] [] all_created true);
         today := "2016-05-02";
         prompt := fun _ => "typed";
         confirm := true;
         report := Response 401 {| Report.total_count := 0;
                                   Report.per_page := 0;
                                   Report.data := [] |};
         search := NoResponse "unused";
         worklog := all_created |}
  = ([ConsoleLog (Fetching "2016-05-01");
      ConsoleLog (ApiRequest (Some "42") "2016-05-01");
      GetReport (Some "42") 1 "2016-05-01" "2016-05-01" "token";
      ConsoleError (ErrMessage (BadStatus 401));
      ConsoleError (ErrObject (Some (BadStatus 401)))],
     Exit 1).
Proof.
  exact (run_report_failed
           {| program := program (sample [] [] all_created true);
              today := "2016-05-02";
              prompt := fun _ => "typed";
              confirm := true;
              report := Response 401 {| Report.total_count := 0;
                                        Report.per_page := 0;
                                        Report.data := [] |};
              search := NoResponse "unused";
              worklog := all_created |}
           eq_refl).
Defined.

(** X18. A search that fails: when the report is usable and every row has
    exactly one ticket id, but Jira does not answer the search or answers
    with a status other than 2xx (a wrong password, say), the run prints
    the error right after the search request and ends with status 1: no
    verdict is printed, nothing is confirmed or submitted. *)
Theorem run_search_failed (e : env) (st : Z) (body : Report.body) :
  report e = Response st body -> success (report e) = true ->
  (Report.total_count body <= Report.per_page body)%Z ->
  Report.data body <> [] ->
  (forall log, In log (Report.data body) ->
               exists id, findJiraIds (Log.description log) = [id]) ->
  success (search e) = false ->
  let ids := unique_ids (objects (allItems_of (Report.data body))) in
  run e
  = (report_lines e body
       ++ [ConsoleLog (Verifying (jql_of ids))]
       ++ jira_prompts e
       ++ [GetSearch (jql_of ids) (jira_username e) (jira_password e);
           ConsoleError (ErrMessage (failure (search e)));
           ConsoleError (ErrObject (Some (failure (search e))))],
     Exit 1).
Proof.
  intros Er Hs Hc Hdata Hrows Hf. cbv zeta.
  pose proof (one_id_rows _ Hrows) as Hinh.
  rewrite run_exact. rewrite Er in *.
  assert (Hne : allItems_of (Report.data body) <> []).
  { destruct (Report.data body) as [|log data] eqn:Ed; [congruence|].
    intros E.
    pose proof (In_work_item (log :: data) log (or_introl eq_refl)
                  (Hinh log (or_introl eq_refl))) as X.
    rewrite E in X. destruct X. }
  pose proof (on_report_summary e (target_date e) st body Hs Hc
                (all_items _ Hinh) Hne) as R.
  cbv zeta in R. rewrite R. clear R.
  rewrite (unready_nil _ (items_ready _ Hrows)).
  rewrite cross_check_exact.
  rewrite (on_search_failure e _ _ _ _ _ _ (search e) Hf).
  cbn [fst snd]. unfold report_lines.
  rewrite <- !app_assoc. reflexivity.
Qed.

Lemma run_search_failed_witness :
  let e :=
    {| program := program (sample [] [] all_created true);
       today := "2016-05-02";
       prompt := fun _ => "typed";
       confirm := true;
       report := Response 200 {| Report.total_count := 1;
                                 Report.per_page := 50;
                                 Report.data := [entry "Fix ABC-12 bug" 60000] |};
       search := Response 401 {| Search.issues := [] |};
       worklog := all_created |} in
  run e
  = ([ConsoleLog (Fetching "2016-05-01");
      ConsoleLog (ApiRequest (Some "42") "2016-05-01");
      GetReport (Some "42") 1 "2016-05-01" "2016-05-01" "token";
      ConsoleLog (FoundItems 1);
      ConsoleLog SummaryHeader;
      ConsoleLog (ItemSummary 1 "Fix ABC-12 bug" 60000 1 ["ABC-12"] Ready);
      ConsoleLog (Verifying (jql_of ["ABC-12"]));
      GetSearch (jql_of ["ABC-12"]) "me" "secret";
      ConsoleError (ErrMessage (BadStatus 401));
      ConsoleError (ErrObject (Some (BadStatus 401)))],
     Exit 1).
Proof.
  cbv zeta.
  refine (run_search_failed
            {| program := program (sample [] [] all_created true);
               today := "2016-05-02";
               prompt := fun _ => "typed";
               confirm := true;
               report := Response 200
                           {| Report.total_count := 1;
                              Report.per_page := 50;
                              Report.data := [entry "Fix ABC-12 bug" 60000] |};
               search := Response 401 {| Search.issues := [] |};
               worklog := all_created |}
            200
            {| Report.total_count := 1; Report.per_page := 50;
               Report.data := [entry "Fix ABC-12 bug" 60000] |}
            eq_refl eq_refl _ _ _ eq_refl).
  - cbn. lia.
  - discriminate.
  - intros log [<- | []]. eexists. vm_compute. reflexivity.
Defined.

(* ================================================================== *)
(** ** The range of the sums *)

Section Range.

Lemma total_abs_app (a b : list Log.t) :
  total_abs (a ++ b) = total_abs a + total_abs b.
Proof.
  unfold total_abs. induction a as [|x a IH]; cbn [app fold_right]; lia.
Qed.

Lemma total_abs_nonneg (logs : list Log.t) : 0 <= total_abs logs.
Proof.
  unfold total_abs. induction logs as [|x l IH]; cbn [fold_right]; lia.
Qed.

Lemma total_abs_filter (f : Log.t -> bool) (logs : list Log.t) :
  total_abs (filter f logs) <= total_abs logs.
Proof.
  unfold total_abs. induction logs as [|x l IH]; cbn [filter fold_right];
    [lia|].
  destruct (f x); cbn [fold_right]; lia.
Qed.

Lemma total_dur_abs (logs : list Log.t) :
  Z.abs (total_dur logs) <= total_abs logs.
Proof.
  unfold total_dur, total_abs.
  induction logs as [|x l IH]; cbn [fold_right]; lia.
Qed.

(** Within the range, the rows read so far are within the range at every
    pass of the grouping loop, and every sum the loop has formed of them
    is a safe integer: the integer sums are the sums of the script. *)
Lemma sums_stay_safe (data rest : list Log.t) (item : Item.t) :
  exact_sums (data ++ rest) ->
  exact_sums data
  /\ (In (Obj item) (allItems_of data) ->
      Z.abs (Item.duration item) <= MAX_SAFE_INTEGER)
  /\ Z.abs (total_dur (kept data)) <= MAX_SAFE_INTEGER.
Proof.
  unfold exact_sums. rewrite total_abs_app. intros H.
  pose proof (total_abs_nonneg rest) as Hr.
  split; [lia|]. split.
  - intros Hin. apply work_item_In in Hin.
    destruct Hin as (log & _ & _ & ->).
    unfold work_item, entries_like. cbn [Item.duration].
    pose proof (total_dur_abs
                  (filter (has_key (Log.pid log) (Log.description log)) data)).
    pose proof (total_abs_filter
                  (has_key (Log.pid log) (Log.description log)) data).
    lia.
  - unfold kept.
    pose proof (total_dur_abs
                  (filter (fun log =>
                             negb (JsObject.inherited (Log.description log)))
                     data)).
    pose proof (total_abs_filter
                  (fun log => negb (JsObject.inherited (Log.description log)))
                  data).
    lia.
Qed.
End Range.
